(** * Droidspaces container bring-up: a shallow embedding and its properties

  The development follows the C sources file by file.  The first part holds
  the definitions:
  - [CLib]           the libc and droidspace.h helpers the sources call;
  - [Hardware]       hardware.c: [has_user], [setup_gpu_groups];
  - [Seccomp]        android_seccomp.c: the classic-BPF program and its run;
  - [Config]         the configuration record;
  - [Network]        android.c and network.c: DNS discovery, identity files;
  - [Mount]          mount.c: [create_devices], [setup_dev];
  - [Environment]    environment.c: the environment sealer;
  - [Probe]          hardware.c: [scan_host_gpu_gids];
  - [Android]        android.c: [is_android] with its static variable;
  - [Terminal]       terminal.c: TTY targets, raw mode, the TTY list;
  - [Boot]           environment.c: [ds_env_boot_setup];
  - [Namespaces]     the clone flags behind the filter's mask;
  - [Image]          mount.c: [mount_rootfs_img];
  - [Cgroup]         mount.c: [setup_cgroups];
  - [Identity], [Devices]  vocabulary of the statements.
  The second part holds the properties, one module of facts per group of
  definitions.

  C strings are [list ascii] (the bytes before the terminating NUL), file
  names and environment variables are [string], C [int]s are [Z] with the
  casts written out, the file system and the environment are [gmap]s. *)

From Stdlib Require Import ZArith List Ascii String Bool Lia.
From stdpp Require Import base gmap strings list.
Import ListNotations.

Local Open Scope Z_scope.

(** ** libc and project helpers *)
Module CLib.

Definition NUL : ascii := "000"%char.
Definition NL : ascii := "010"%char.
Definition COLON : ascii := ":"%char.
Definition COMMA : ascii := ","%char.

(** A string literal as the bytes of a C string. *)
Definition s2l (s : string) : list ascii := list_ascii_of_string s.
Definition l2s (l : list ascii) : string := string_of_list_ascii l.

(** The C string held by a buffer: the bytes before the first NUL. *)
Fixpoint c_str (buf : list ascii) : list ascii :=
  match buf with
  | [] => []
  | c :: r => if Ascii.eqb c NUL then [] else c :: c_str r
  end.

(** [fgets(buf, size, fp)]: at most [size - 1] bytes, stopping after a
    newline; [room] counts the bytes still allowed.  The pair is the bytes
    stored and the rest of the stream. *)
Fixpoint fgets_read (room : nat) (fp : list ascii) : list ascii * list ascii :=
  match room, fp with
  | O, _ => ([], fp)
  | _, [] => ([], [])
  | S room', c :: fp' =>
      if Ascii.eqb c NL then ([c], fp')
      else let '(l, rest) := fgets_read room' fp' in (c :: l, rest)
  end.

(** [fgets] returns NULL (here [None]) at end of file. *)
Definition fgets (size : nat) (fp : list ascii) : option (list ascii * list ascii) :=
  match fp with
  | [] => None
  | _ => Some (fgets_read (size - 1) fp)
  end.

(** [strchr(s, c)]: the suffix starting at the first [c]. *)
Fixpoint strchr (s : list ascii) (c : ascii) : option (list ascii) :=
  match s with
  | [] => None
  | d :: r => if Ascii.eqb d c then Some s else strchr r c
  end.

(** [strrchr(s, c)]: the suffix starting at the last [c]. *)
Fixpoint strrchr (s : list ascii) (c : ascii) : option (list ascii) :=
  match s with
  | [] => None
  | d :: r =>
      match strrchr r c with
      | Some p => Some p
      | None => if Ascii.eqb d c then Some s else None
      end
  end.

(** [*p = '\0'] for a pointer [p] into the C string [s]: what [s] holds
    afterwards.  Pointers are suffixes, so [p - s] is a length difference. *)
Definition cut_at (s p : list ascii) : list ascii :=
  firstn (length s - length p) s.

(** [strstr(p, needle) == p]: [needle] is a prefix of [p]. *)
Fixpoint starts_with (needle p : list ascii) : bool :=
  match needle, p with
  | [], _ => true
  | _ :: _, [] => false
  | a :: needle', b :: p' => Ascii.eqb a b && starts_with needle' p'
  end.

(** Modelled from the spec: safe_strncpy is declared in droidspace.h and
    defined outside src/; the spec does not describe it.  Its call sites
    use it as a bounded copy into a buffer of [size] bytes that always
    leaves a terminating NUL: at most [size - 1] bytes of [src]. *)
Definition safe_strncpy (src : list ascii) (size : nat) : list ascii :=
  firstn (size - 1) src.

(** [snprintf(buf, size, ...)] keeps at most [size - 1] bytes of the
    formatted text. *)
Definition snprintf (size : nat) (text : list ascii) : list ascii :=
  firstn (size - 1) text.

(** *** Integers: [int], [gid_t], [atoi], [%d] *)

(** Cast to a 32-bit [int]. *)
Definition to_int (z : Z) : Z := (z + 2 ^ 31) mod 2 ^ 32 - 2 ^ 31.
(** Cast to [gid_t], an unsigned 32-bit integer. *)
Definition to_gid_t (z : Z) : Z := z mod 2 ^ 32.

Definition isspace (c : ascii) : bool :=
  let n := nat_of_ascii c in
  (n =? 32)%nat || ((9 <=? n)%nat && (n <=? 13)%nat).

Definition digit_val (c : ascii) : option Z :=
  let n := Z.of_nat (nat_of_ascii c) in
  if (48 <=? n) && (n <=? 57) then Some (n - 48) else None.

Fixpoint skip_space (s : list ascii) : list ascii :=
  match s with
  | c :: r => if isspace c then skip_space r else s
  | [] => []
  end.

Fixpoint strtol_digits (acc : Z) (s : list ascii) : Z :=
  match s with
  | c :: r =>
      match digit_val c with
      | Some d => strtol_digits (acc * 10 + d) r
      | None => acc
      end
  | [] => acc
  end.

Definition LONG_MAX : Z := 2 ^ 63 - 1.
Definition LONG_MIN : Z := - 2 ^ 63.

(** [strtol(s, NULL, 10)] with a 64-bit [long]: leading white space, an
    optional sign, the longest run of digits, saturating at the ends. *)
Definition strtol (s : list ascii) : Z :=
  let s1 := skip_space s in
  let '(neg, s2) :=
    match s1 with
    | c :: r => if Ascii.eqb c "-" then (true, r)
                else if Ascii.eqb c "+" then (false, r) else (false, s1)
    | [] => (false, [])
    end in
  let v := strtol_digits 0 s2 in
  let v := if neg then - v else v in
  Z.max LONG_MIN (Z.min LONG_MAX v).

(** [atoi], which glibc and bionic define as [(int) strtol(s, NULL, 10)]. *)
Definition atoi (s : list ascii) : Z := to_int (strtol s).

Definition digit_char (d : Z) : ascii := ascii_of_nat (Z.to_nat (48 + d)).

(** The decimal digits of [n >= 0], most significant first, in front of
    [acc]; [fuel] bounds the number of digits. *)
Fixpoint dec_digits (fuel : nat) (n : Z) (acc : list ascii) : list ascii :=
  match fuel with
  | O => acc
  | S fuel' =>
      let acc' := digit_char (n mod 10) :: acc in
      if n / 10 =? 0 then acc' else dec_digits fuel' (n / 10) acc'
  end.

(** [printf("%d", v)] for an [int] [v] (at most ten digits). *)
Definition fmt_d (v : Z) : list ascii :=
  if v <? 0 then "-"%char :: dec_digits 10 (- v) [] else dec_digits 10 v [].

End CLib.

(** ** hardware.c: GPU group reconciliation *)
Module Hardware.
Import CLib.

(** [has_user]'s loop [while ((p = strstr(p, username)) != NULL) { ...; p++ }]
    visits, in order, every position of [users] where [username] starts.
    [prev] is [*(p - 1)], or [None] when [p == users].  At the terminating
    NUL ([p = []]) [strstr] finds the empty [username] and nothing else, and
    [*(p + len)] is then that NUL.  When this last match of an empty
    [username] is at no boundary, [p++] leaves the string and C does not say
    what the next [strstr] reads: the scan ends there with 0. *)
Fixpoint has_user_from (username p : list ascii) (prev : option ascii) : bool :=
  match p with
  | [] =>
      if starts_with username [] then
        let at_start := match prev with None => true | Some _ => false end in
        let prev_comma := match prev with Some d => Ascii.eqb d COMMA | None => false end in
        at_start || prev_comma
      else false
  | c :: p' =>
      if starts_with username p then
        let at_start := match prev with None => true | Some _ => false end in
        let prev_comma := match prev with Some d => Ascii.eqb d COMMA | None => false end in
        let next_comma :=
          match skipn (length username) p with
          | [] => true
          | d :: _ => Ascii.eqb d COMMA
          end in
        if (at_start || prev_comma) && next_comma then true
        else has_user_from username p' (Some c)
      else has_user_from username p' (Some c)
  end.

(** [has_user(users, username)], both pointers being non-NULL. *)
Definition has_user (users username : list ascii) : bool :=
  has_user_from username users None.

(** The colon scan of [setup_gpu_groups]: [gid_str] is set after the second
    colon, [users_ptr] after the third, where the scan stops.  Pointers
    into [line_copy] are suffixes of it. *)
Fixpoint colon_scan (p : list ascii) (colons : nat) (gid_str : option (list ascii))
  : option (list ascii) * option (list ascii) :=
  match p with
  | [] => (gid_str, None)
  | c :: p' =>
      if Ascii.eqb c COLON then
        let colons' := S colons in
        if (colons' =? 2)%nat then colon_scan p' colons' (Some p')
        else if (colons' =? 3)%nat then (gid_str, Some p')
        else colon_scan p' colons' gid_str
      else colon_scan p' colons gid_str
  end.

(** The first index [i] with [gpu_gids[i] == gid]. *)
Fixpoint find_gid (gpu_gids : list Z) (gid : Z) : option nat :=
  match gpu_gids with
  | [] => None
  | g :: rest =>
      if g =? gid then Some O
      else match find_gid rest gid with Some i => Some (S i) | None => None end
  end.

(** [sizeof(line)] and [sizeof(line_copy)]. *)
Definition LINE_SIZE : nat := 2048.

(** The loop state: what was written to /etc/group.tmp so far, one entry
    per [fputs] or [fprintf]; the [found_gids] array; [modified_count]. *)
Record scan_state := {
  fout : list (list ascii);
  found_gids : list bool;
  modified_count : nat
}.

Definition ROOT : list ascii := s2l "root".

(** What one iteration of the loop body decides for its line: print it as it
    is (having marked [found_gids[gpu_idx]] or not), or print [text] in its
    place, mark [found_gids[gpu_idx]] and count a modification. *)
Inductive line_action :=
| Unmodified (found_idx : option nat)
| Modified (gpu_idx : nat) (text : list ascii).

Definition line_action_of (gpu_gids : list Z) (line : list ascii) : line_action :=
  let line_copy0 := safe_strncpy line LINE_SIZE in
  let line_copy :=
    match strrchr line_copy0 NL with
    | Some nl => cut_at line_copy0 nl
    | None => line_copy0
    end in
  match colon_scan line_copy 0 None with
  | (Some gid_str, Some users_ptr) =>
      (* the third colon was overwritten with NUL *)
      let head_len := (length line_copy - length users_ptr - 1)%nat in
      let gid_val := atoi (cut_at gid_str (COLON :: users_ptr)) in
      match find_gid gpu_gids (to_gid_t gid_val) with
      | Some gpu_idx =>
          if negb (has_user users_ptr ROOT) then
            Modified gpu_idx
              (if (0 <? length users_ptr)%nat
               then firstn head_len line_copy ++ [COLON] ++ users_ptr ++ s2l ",root" ++ [NL]
               else firstn head_len line_copy ++ s2l ":root" ++ [NL])
          else Unmodified (Some gpu_idx)
      | None => Unmodified None
      end
  | _ => Unmodified None
  end.

(** One iteration of the [while (fgets(line, sizeof(line), fin))] body;
    [line] is the C string [fgets] left in the buffer. *)
Definition process_line (gpu_gids : list Z) (line : list ascii) (st : scan_state)
  : scan_state :=
  match line_action_of gpu_gids line with
  | Modified gpu_idx text =>
      {| fout := fout st ++ [text];
         found_gids := <[gpu_idx := true]> (found_gids st);
         modified_count := S (modified_count st) |}
  | Unmodified (Some gpu_idx) =>
      {| fout := fout st ++ [line];
         found_gids := <[gpu_idx := true]> (found_gids st);
         modified_count := modified_count st |}
  | Unmodified None =>
      {| fout := fout st ++ [line];
         found_gids := found_gids st;
         modified_count := modified_count st |}
  end.

(** The read loop.  Every successful [fgets] consumes at least one byte, so
    [fuel] above the length of the stream is never used up. *)
Fixpoint scan_loop (fuel : nat) (gpu_gids : list Z) (fin : list ascii) (st : scan_state)
  : option scan_state :=
  match fuel with
  | O => None
  | S fuel' =>
      match fgets LINE_SIZE fin with
      | None => Some st
      | Some (buf, fin') => scan_loop fuel' gpu_gids fin' (process_line gpu_gids (c_str buf) st)
      end
  end.

(** The record appended for a probed GID that no line carried. *)
Definition gpu_record (gid : Z) : list ascii :=
  s2l "gpu_" ++ fmt_d (to_int gid) ++ s2l ":x:" ++ fmt_d (to_int gid) ++ s2l ":root" ++ [NL].

(** The loop [for (i = 0; i < gid_count; i++) if (!found_gids[i]) ...]. *)
Fixpoint append_missing (gpu_gids : list Z) (found : list bool) (st : scan_state)
  : scan_state :=
  match gpu_gids, found with
  | g :: gs, f :: fs =>
      append_missing gs fs
        (if f then st
         else {| fout := fout st ++ [gpu_record g];
                 found_gids := found_gids st;
                 modified_count := S (modified_count st) |})
  | _, _ => st
  end.

(** Files by path, and the calls that replace or remove them. *)
Inductive syscall :=
| Rename (src dst : string)
| Unlink (path : string).

(** Failures the environment can inject. *)
Record faults := {
  fopen_read_fails : bool;
  fopen_write_fails : bool;
  calloc_fails : bool;
  rename_fails : bool
}.

Definition no_faults : faults :=
  {| fopen_read_fails := false; fopen_write_fails := false;
     calloc_fails := false; rename_fails := false |}.

Record outcome := {
  ret : Z;
  files : gmap string (list ascii);
  calls : list syscall
}.

Definition group_path : string := "/etc/group".
Definition tmp_path : string := "/etc/group.tmp".

Definition setup_gpu_groups (io : faults) (gpu_gids : list Z)
    (fs : gmap string (list ascii)) : outcome :=
  let gid_count := Z.of_nat (length gpu_gids) in
  if gid_count <=? 0 then {| ret := 0; files := fs; calls := [] |}
  else
    match fs !! group_path with
    | None => {| ret := 0; files := fs; calls := [] |}
    | Some content =>
        if fopen_read_fails io then {| ret := -1; files := fs; calls := [] |}
        else if fopen_write_fails io then {| ret := -1; files := fs; calls := [] |}
        else
          let fs1 := <[tmp_path := []]> fs in
          if calloc_fails io then {| ret := -1; files := fs1; calls := [] |}
          else
            let st0 := {| fout := [];
                          found_gids := replicate (length gpu_gids) false;
                          modified_count := 0 |} in
            match scan_loop (S (length content)) gpu_gids content st0 with
            | None => {| ret := -1; files := fs1; calls := [] |}
            | Some st1 =>
                let st2 := append_missing gpu_gids (found_gids st1) st1 in
                let fs2 := <[tmp_path := concat (fout st2)]> fs in
                if (0 <? modified_count st2)%nat then
                  if rename_fails io then
                    {| ret := -1; files := delete tmp_path fs2;
                       calls := [Rename tmp_path group_path; Unlink tmp_path] |}
                  else
                    {| ret := 0;
                       files := <[group_path := concat (fout st2)]> (delete tmp_path fs2);
                       calls := [Rename tmp_path group_path] |}
                else
                  {| ret := 0; files := delete tmp_path fs2; calls := [Unlink tmp_path] |}
            end
    end.

(** *** Vocabulary of the statements *)

(** The first line of a text with its newline, and what follows it. *)
Fixpoint take_line (s : list ascii) : list ascii * list ascii :=
  match s with
  | [] => ([], [])
  | c :: r =>
      if Ascii.eqb c NL then ([c], r)
      else let '(l, rest) := take_line r in (c :: l, rest)
  end.

(** The lines of a text, each with its newline; the last one may lack it. *)
Fixpoint text_lines (s : list ascii) : list (list ascii) :=
  match s with
  | [] => []
  | c :: r =>
      if Ascii.eqb c NL then [c] :: text_lines r
      else match text_lines r with
           | [] => [[c]]
           | l :: ls => (c :: l) :: ls
           end
  end.

(** A text the reader takes in whole lines: no NUL byte, and every line,
    newline included, fits [char line[2048]] with its terminating NUL. *)
Definition readable (s : list ascii) : Prop :=
  Forall (fun c => c <> NUL) s /\
  Forall (fun l => (length l < LINE_SIZE)%nat) (text_lines s).

(** The fields of [s] between occurrences of [sep]. *)
Fixpoint split_on (sep : ascii) (s : list ascii) : list (list ascii) :=
  match s with
  | [] => [[]]
  | c :: r =>
      if Ascii.eqb c sep then [] :: split_on sep r
      else match split_on sep r with
           | [] => [[c]]
           | f :: fs => (c :: f) :: fs
           end
  end.

(** A line without its newline. *)
Fixpoint chomp (l : list ascii) : list ascii :=
  match l with
  | [] => []
  | c :: r =>
      match r with
      | [] => if Ascii.eqb c NL then [] else [c]
      | _ :: _ => c :: chomp r
      end
  end.

(** The bytes of [s] before the first [sep], and what follows that [sep]. *)
Fixpoint before (sep : ascii) (s : list ascii) : list ascii :=
  match s with
  | [] => []
  | c :: r => if Ascii.eqb c sep then [] else c :: before sep r
  end.

Fixpoint after (sep : ascii) (s : list ascii) : option (list ascii) :=
  match s with
  | [] => None
  | c :: r => if Ascii.eqb c sep then Some r else after sep r
  end.

(** The name, password and GID fields of a line with at least three colons,
    and what follows its third colon. *)
Definition parse_record (body : list ascii)
  : option (list ascii * list ascii * list ascii * list ascii) :=
  match after COLON body with
  | Some p1 =>
      match after COLON p1 with
      | Some p2 =>
          match after COLON p2 with
          | Some p3 => Some (before COLON body, before COLON p1, before COLON p2, p3)
          | None => None
          end
      | None => None
      end
  | None => None
  end.

(** The third colon-delimited field of a line, when it has one. *)
Definition gid_field (l : list ascii) : option (list ascii) :=
  nth_error (split_on COLON (chomp l)) 2.

(** The GID a field denotes for the comparison with a probed GID. *)
Definition gid_of_field (f : list ascii) : Z := to_gid_t (atoi f).

(** [u] is a whole-word member of the comma-separated list [users]. *)
Definition member (u users : list ascii) : Prop := In u (split_on COMMA users).

(** A group record [name:pw:gid:users] with or without its newline. *)
Definition record_line (name pw gidf users eol : list ascii) : list ascii :=
  name ++ [COLON] ++ pw ++ [COLON] ++ gidf ++ [COLON] ++ users ++ eol.

Definition plain (sep : ascii) (f : list ascii) : Prop :=
  Forall (fun c => c <> sep /\ c <> NL) f.

(** The content of /etc/group after a run without injected failures. *)
Definition group_after (gpu_gids : list Z) (fs : gmap string (list ascii))
  : option (list ascii) :=
  files (setup_gpu_groups no_faults gpu_gids fs) !! group_path.

Definition renamed (gpu_gids : list Z) (fs : gmap string (list ascii)) : Prop :=
  In (Rename tmp_path group_path) (calls (setup_gpu_groups no_faults gpu_gids fs)).

(** The state the read loop starts from. *)
Definition scan_start (gpu_gids : list Z) : scan_state :=
  {| fout := []; found_gids := replicate (length gpu_gids) false; modified_count := 0 |}.

(** What a run writes to /etc/group.tmp, one entry per [fputs] or [fprintf]:
    the read loop's entries first, then the appended records. *)
Definition written (gpu_gids : list Z) (content : list ascii) : list (list ascii) :=
  match scan_loop (S (length content)) gpu_gids content (scan_start gpu_gids) with
  | Some st1 => fout (append_missing gpu_gids (found_gids st1) st1)
  | None => []
  end.

(** What the loop body prints for a line, the index it marks, whether it
    counts a modification. *)
Definition line_text (gpu_gids : list Z) (l : list ascii) : list ascii :=
  match line_action_of gpu_gids l with Modified _ t => t | Unmodified _ => l end.

Definition line_idx (gpu_gids : list Z) (l : list ascii) : option nat :=
  match line_action_of gpu_gids l with Modified i _ => Some i | Unmodified o => o end.

Definition line_modified (gpu_gids : list Z) (l : list ascii) : bool :=
  match line_action_of gpu_gids l with Modified _ _ => true | Unmodified _ => false end.

Definition mark (found : list bool) (o : option nat) : list bool :=
  match o with Some i => <[i := true]> found | None => found end.

(** The probed GIDs whose [found_gids] entry is still 0. *)
Fixpoint missing (gpu_gids : list Z) (found : list bool) : list Z :=
  match gpu_gids, found with
  | g :: gs, f :: fs => if f then missing gs fs else g :: missing gs fs
  | _, _ => []
  end.

(** The [found_gids] array after the read loop has seen the lines [ls]. *)
Definition found_after (gpu_gids : list Z) (ls : list (list ascii)) : list bool :=
  fold_left mark (map (line_idx gpu_gids) ls) (replicate (length gpu_gids) false).

(** The user list with root added, as the two [fprintf] formats build it. *)
Definition add_root (users : list ascii) : list ascii :=
  match users with
  | [] => ROOT
  | _ :: _ => users ++ COMMA :: ROOT
  end.

(** A decimal digit character. *)
Definition is_digit (c : ascii) : Prop := exists d, 0 <= d < 10 /\ c = digit_char d.

(** A line with its newline. *)
Definition complete (l : list ascii) : Prop :=
  exists body, l = body ++ [NL] /\ Forall (fun c => c <> NL) body.

(** A text that is empty or ends in a newline. *)
Definition terminated (s : list ascii) : Prop := s = [] \/ exists s', s = s' ++ [NL].

(** An /etc/group a run can rewrite and read again: no NUL byte, the last
    line terminated, every line short enough to take [,root] and still fit
    the reader's buffer. *)
Definition well_formed_group (s : list ascii) : Prop :=
  Forall (fun c => c <> NUL) s /\ terminated s /\
  Forall (fun l => (length l + 5 < LINE_SIZE)%nat) (text_lines s).

(** An entry a run leaves alone when it reads it as a line. *)
Definition settled (gids : list Z) (e : list ascii) : Prop :=
  line_modified gids e = false /\ complete e /\ (length e < LINE_SIZE)%nat /\
  Forall (fun c => c <> NUL) e.

(** The decimal digits of a GID, and its record as the spec writes it. *)
Definition decimal (n : Z) : list ascii := dec_digits 10 n [].
Definition group_record (g : Z) : list ascii :=
  s2l "gpu_" ++ decimal g ++ s2l ":x:" ++ decimal g ++ s2l ":root" ++ [NL].

(** The file a run leaves at /etc/group is the concatenation of the
    entries written. *)
Definition output_entries (gpu_gids : list Z) (fs : gmap string (list ascii))
    (content : list ascii) : Prop :=
  group_after gpu_gids fs = Some (concat (written gpu_gids content)).

(** The lines of the file a run leaves at /etc/group. *)
Definition lines_after (gpu_gids : list Z) (fs : gmap string (list ascii))
  : list (list ascii) :=
  match group_after gpu_gids fs with
  | Some out => text_lines out
  | None => []
  end.

(** The rewrite rule, the append rule and the rename rule of the Hardware
    Bridge, for the probed GIDs [gpu_gids] and an /etc/group holding
    [content]: line [i] of the input against line [i] of the output, and
    the lines of the output after the last input line.  A line falls under
    the rewrite rule when it has a third colon, and its GID is its third
    field as [atoi] reads it, converted to [gid_t]. *)
Definition rewrite_rule (gpu_gids : list Z) (fs : gmap string (list ascii))
    (content : list ascii) : Prop :=
  forall i g name pw gidf users eol,
    text_lines content !! i = Some (record_line name pw gidf users eol) ->
    plain COLON name -> plain COLON pw -> plain COLON gidf ->
    Forall (fun c => c <> NL) users -> eol = [] \/ eol = [NL] ->
    In g gpu_gids -> gid_of_field gidf = g -> ~ member ROOT users ->
    lines_after gpu_gids fs !! i = Some (record_line name pw gidf (add_root users) [NL]).

Definition append_for (gpu_gids : list Z) (fs : gmap string (list ascii))
    (content : list ascii) (g : Z) : Prop :=
  In g gpu_gids ->
  (forall l f, In l (text_lines content) -> gid_field l = Some f -> gid_of_field f <> g) ->
  In (group_record g) (drop (length (text_lines content)) (lines_after gpu_gids fs)).

Definition append_rule (gpu_gids : list Z) (fs : gmap string (list ascii))
    (content : list ascii) : Prop :=
  forall g, append_for gpu_gids fs content g.

Definition rename_rule (gpu_gids : list Z) (fs : gmap string (list ascii))
    (content : list ascii) : Prop :=
  renamed gpu_gids fs <->
  (exists i l, text_lines content !! i = Some l /\ lines_after gpu_gids fs !! i <> Some l) \/
  drop (length (text_lines content)) (lines_after gpu_gids fs) <> [].

Definition reconciliation (gpu_gids : list Z) (fs : gmap string (list ascii))
    (content : list ascii) : Prop :=
  rewrite_rule gpu_gids fs content /\ append_rule gpu_gids fs content /\
  rename_rule gpu_gids fs content.

(** The frame rule: a line that has no third field, or whose third field is
    no probed GID, is line [i] of the output as it is line [i] of the
    input; and a line of the output that differs from the input line of its
    place stands for a record of a probed GID that lacks root. *)
Definition frame_rule (gpu_gids : list Z) (fs : gmap string (list ascii))
    (content : list ascii) : Prop :=
  (forall i l,
      text_lines content !! i = Some l ->
      (gid_field l = None \/
       exists f, gid_field l = Some f /\ ~ In (gid_of_field f) gpu_gids) ->
      lines_after gpu_gids fs !! i = Some l) /\
  (forall i l,
      text_lines content !! i = Some l ->
      lines_after gpu_gids fs !! i <> Some l ->
      exists name pw gidf users eol,
        l = record_line name pw gidf users eol /\
        plain COLON name /\ plain COLON pw /\ plain COLON gidf /\
        In (gid_of_field gidf) gpu_gids /\ ~ member ROOT users).

(** Running twice: the second run leaves the files as the first did, and
    does not rename. *)
Definition second_run_idle (gpu_gids : list Z) (fs : gmap string (list ascii)) : Prop :=
  let fs1 := files (setup_gpu_groups no_faults gpu_gids fs) in
  files (setup_gpu_groups no_faults gpu_gids fs1) = fs1 /\
  ~ renamed gpu_gids fs1.

(** The shape of a line of a text: a body without newline, then the
    newline or the end of the text. *)
Definition line_shape (l : list ascii) : Prop :=
  exists body eol, l = body ++ eol /\ Forall (fun c => c <> NL) body /\
                   (eol = [] \/ eol = [NL]).

(** [at_start || prev_comma] in [has_user]. *)
Definition boundary (prev : option ascii) : bool :=
  match prev with None => true | Some d => Ascii.eqb d COMMA end.

(** Sample files: a record of 2052 bytes; a line of 2055 bytes whose bytes
    2048 to 2054 read [b:x:44:]; a small file; a file whose only line has no
    newline. *)
Definition long_record : list ascii :=
  record_line (s2l "video") (s2l "x") (s2l "44") (replicate 2040 "a"%char) [NL].
Definition long_other : list ascii :=
  s2l "x:y:1:" ++ replicate 2041 "a"%char ++ s2l "b:x:44:" ++ [NL].
Definition small_group : list ascii :=
  s2l "video:x:44:" ++ [NL] ++ s2l "audio:x:29:pulse" ++ [NL].
Definition unterminated_group : list ascii := s2l "a:x:1:".

(** Sample files with a NUL byte: a record whose user list has one, and a
    line without colons. *)
Definition nul_record : list ascii :=
  record_line (s2l "video") (s2l "x") (s2l "44") (s2l "al" ++ [NUL] ++ s2l "ice") [NL].
Definition nul_line : list ascii := s2l "ab" ++ [NUL] ++ s2l "cd" ++ [NL].

End Hardware.

(** ** android_seccomp.c: the syscall filter *)
Module Seccomp.

(** The classic-BPF instructions the program uses; [k] is the 32-bit
    immediate, [jt] and [jf] the forward jump offsets. *)
Inductive sock_filter :=
| LD_W_ABS (k : Z)                 (* BPF_STMT(BPF_LD | BPF_W | BPF_ABS, k) *)
| JEQ_K (k : Z) (jt jf : nat)      (* BPF_JUMP(BPF_JMP | BPF_JEQ | BPF_K, k, jt, jf) *)
| JSET_K (k : Z) (jt jf : nat)     (* BPF_JUMP(BPF_JMP | BPF_JSET | BPF_K, k, jt, jf) *)
| JA (k : nat)                     (* BPF_JUMP(BPF_JMP | BPF_JA, k, 0, 0) *)
| RET_K (k : Z).                   (* BPF_STMT(BPF_RET | BPF_K, k) *)

(** [struct seccomp_data]: [int nr; __u32 arch; __u64 instruction_pointer;
    __u64 args[6]]. *)
Record seccomp_data := {
  nr : Z;
  arch : Z;
  instruction_pointer : Z;
  args : list Z
}.

(** The fields are machine words. *)
Definition valid_data (d : seccomp_data) : Prop :=
  0 <= nr d < 2 ^ 32 /\ 0 <= arch d < 2 ^ 32 /\
  0 <= instruction_pointer d < 2 ^ 64 /\
  length (args d) = 6%nat /\ Forall (fun a => 0 <= a < 2 ^ 64) (args d).

Definition offsetof_nr : Z := 0.
Definition offsetof_arch : Z := 4.
Definition offsetof_args (i : Z) : Z := 16 + 8 * i.

Definition lo32 (x : Z) : Z := x mod 2 ^ 32.
Definition hi32 (x : Z) : Z := (x / 2 ^ 32) mod 2 ^ 32.

(** The 32-bit word at byte offset [off] of [seccomp_data] on a
    little-endian machine (all four compile-time architectures);
    [None] when the offset is unaligned or outside the structure. *)
Definition load_word (d : seccomp_data) (off : Z) : option Z :=
  if off =? 0 then Some (lo32 (nr d))
  else if off =? 4 then Some (lo32 (arch d))
  else if off =? 8 then Some (lo32 (instruction_pointer d))
  else if off =? 12 then Some (hi32 (instruction_pointer d))
  else if (16 <=? off) && (off <? 64) && (off mod 4 =? 0) then
    let a := nth (Z.to_nat ((off - 16) / 8)) (args d) 0 in
    Some (if (off - 16) mod 8 =? 0 then lo32 a else hi32 a)
  else None.

(** Running a program from instruction [pc] with accumulator [A].  Jumps
    only go forward, so [fuel] equal to the length of the program is enough.
    A load outside the structure makes the filter return 0. *)
Fixpoint bpf_run (fuel : nat) (prog : list sock_filter) (d : seccomp_data)
    (pc : nat) (A : Z) : option Z :=
  match fuel with
  | O => None
  | S fuel' =>
      match nth_error prog pc with
      | None => None
      | Some (LD_W_ABS k) =>
          match load_word d k with
          | Some w => bpf_run fuel' prog d (S pc) w
          | None => Some 0
          end
      | Some (JEQ_K k jt jf) =>
          bpf_run fuel' prog d (S pc + (if A =? k then jt else jf)) A
      | Some (JSET_K k jt jf) =>
          bpf_run fuel' prog d (S pc + (if Z.land A k =? 0 then jf else jt)) A
      | Some (JA k) => bpf_run fuel' prog d (S pc + k) A
      | Some (RET_K k) => Some k
      end
  end.

Definition seccomp_run (prog : list sock_filter) (d : seccomp_data) : option Z :=
  bpf_run (length prog) prog d 0 0.

(** Values of the kernel's seccomp and errno headers. *)
Definition SECCOMP_RET_ALLOW : Z := 0x7fff0000.
Definition SECCOMP_RET_TRAP : Z := 0x00030000.
Definition SECCOMP_RET_ERRNO : Z := 0x00050000.
Definition SECCOMP_RET_DATA : Z := 0x0000ffff.
Definition ENOSYS : Z := 38.
Definition EPERM : Z := 1.
Definition CLONE_NEWNS : Z := 0x00020000.

(** What the build fixes: the audit architecture selected by the [#if]
    chain and the syscall numbers of that architecture. *)
Record target := {
  AUDIT_ARCH : Z;
  NR_reboot : Z;
  NR_keyctl : Z;
  NR_add_key : Z;
  NR_request_key : Z;
  NR_unshare : Z;
  NR_clone : Z
}.

Definition aarch64 : target :=
  {| AUDIT_ARCH := 0xC00000B7; NR_reboot := 142; NR_keyctl := 219; NR_add_key := 217;
     NR_request_key := 218; NR_unshare := 97; NR_clone := 220 |}.
Definition x86_64 : target :=
  {| AUDIT_ARCH := 0xC000003E; NR_reboot := 169; NR_keyctl := 250; NR_add_key := 248;
     NR_request_key := 249; NR_unshare := 272; NR_clone := 56 |}.
Definition arm : target :=
  {| AUDIT_ARCH := 0x40000028; NR_reboot := 88; NR_keyctl := 311; NR_add_key := 309;
     NR_request_key := 310; NR_unshare := 337; NR_clone := 120 |}.
Definition i386 : target :=
  {| AUDIT_ARCH := 0x40000003; NR_reboot := 88; NR_keyctl := 288; NR_add_key := 286;
     NR_request_key := 287; NR_unshare := 310; NR_clone := 120 |}.

Definition ns_mask : Z := 0x7E020000.

(** The [filter[]] array for the values [is_systemd] and [major] have when
    it is built. *)
Definition filter (t : target) (is_systemd major : Z) : list sock_filter :=
  [ LD_W_ABS offsetof_arch;
    JEQ_K (AUDIT_ARCH t) 1 0;
    RET_K SECCOMP_RET_ALLOW;
    LD_W_ABS offsetof_nr;
    JEQ_K (NR_reboot t) 0 1;
    RET_K SECCOMP_RET_TRAP;
    JEQ_K (NR_keyctl t) 0 1;
    RET_K (Z.lor SECCOMP_RET_ERRNO (Z.land ENOSYS SECCOMP_RET_DATA));
    JEQ_K (NR_add_key t) 0 1;
    RET_K (Z.lor SECCOMP_RET_ERRNO (Z.land ENOSYS SECCOMP_RET_DATA));
    JEQ_K (NR_request_key t) 0 1;
    RET_K (Z.lor SECCOMP_RET_ERRNO (Z.land ENOSYS SECCOMP_RET_DATA));
    JA (if negb (is_systemd =? 0) && (major <? 5) then 0 else 5);
    JEQ_K (NR_unshare t) 1 0;
    JEQ_K (NR_clone t) 0 3;
    LD_W_ABS (offsetof_args 0);
    JSET_K ns_mask 0 1;
    RET_K (Z.lor SECCOMP_RET_ERRNO (Z.land EPERM SECCOMP_RET_DATA));
    RET_K SECCOMP_RET_ALLOW ].

(** Modelled from the spec: get_kernel_version is declared in droidspace.h
    and defined outside src/.  The spec has the kernel version "parsed from
    the kernel's release string"; [release] is the outcome of that parse.
    On success the function stores the version through its two pointers and
    returns 0; on failure it returns an error and stores nothing. *)
Definition get_kernel_version (release : option (Z * Z)) (major minor : Z)
  : Z * (Z * Z) :=
  match release with
  | Some (ma, mi) => (0, (ma, mi))
  | None => (-1, (major, minor))
  end.

(** [android_seccomp_setup]: the program handed to [prctl], and the return
    value ([prctl_fails] is the failure of that call). *)
Definition android_seccomp_setup (t : target) (release : option (Z * Z))
    (prctl_fails : bool) (is_systemd : Z) : Z * list sock_filter :=
  let major := 0 in
  let minor := 0 in
  let '(_, (major, minor)) := get_kernel_version release major minor in
  let prog := filter t is_systemd major in
  if prctl_fails then (-1, prog) else (0, prog).

(** The filter attached to the guest after a successful setup. *)
Definition installed_filter (t : target) (release : option (Z * Z)) (is_systemd : Z)
  : list sock_filter :=
  snd (android_seccomp_setup t release false is_systemd).

(** The classification in the words of the spec, first match first. *)
Definition classify (t : target) (is_systemd major : Z) (d : seccomp_data) : Z :=
  if negb (arch d =? AUDIT_ARCH t) then SECCOMP_RET_ALLOW
  else if nr d =? NR_reboot t then SECCOMP_RET_TRAP
  else if (nr d =? NR_keyctl t) || (nr d =? NR_add_key t) || (nr d =? NR_request_key t)
       then Z.lor SECCOMP_RET_ERRNO ENOSYS
  else if (negb (is_systemd =? 0) && (major <? 5))
          && ((nr d =? NR_unshare t) || (nr d =? NR_clone t))
          && negb (Z.land (nth 0 (args d) 0) ns_mask =? 0)
       then Z.lor SECCOMP_RET_ERRNO EPERM
  else SECCOMP_RET_ALLOW.

(** A call of syscall [n] with first argument [a0]. *)
Definition call (t : target) (n a0 : Z) : seccomp_data :=
  {| nr := n; arch := AUDIT_ARCH t; instruction_pointer := 0;
     args := [a0; 0; 0; 0; 0; 0] |}.

End Seccomp.

(** ** The configuration record *)
Module Config.

(** Modelled from the spec: struct ds_config is declared in droidspace.h,
    outside src/; these are the options the spec's Configuration Record
    lists.  C [int] flags are [Z], non-zero for true. *)
Record ds_config := {
  container_name : list ascii;
  rootfs_path : string;
  rootfs_image : list ascii;
  hostname : list ascii;
  tty_count : Z;
  is_systemd : Z;
  hw_access : Z;
  termux_x11 : Z;
  enable_ipv6 : Z
}.

End Config.

(** ** android.c and network.c: DNS discovery and the identity files *)
Module Network.
Import CLib Config.

Definition TAB : ascii := "009"%char.

(** What the code asks of the host. *)
Record host := {
  android_root_env : bool;      (* getenv("ANDROID_ROOT") != NULL *)
  app_process_exists : bool;    (* access("/system/bin/app_process", F_OK) == 0 *)
  getprop : string -> option (list ascii)
    (* what [popen("getprop <name>", "r")] yields to read: [None] when
       popen fails *)
}.

(** [is_android]; the cached result is the first one, and the host does not
    change. *)
Definition is_android (h : host) : bool :=
  android_root_env h || app_process_exists h.

Definition props : list string :=
  ["net.dns1"; "net.dns2"; "net.eth0.dns1"; "net.eth0.dns2";
   "net.wlan0.dns1"; "net.wlan0.dns2"].

Definition nonempty (s : list ascii) : bool :=
  match s with [] => false | _ :: _ => true end.

(** [popen], [fgets(buf, size, fp)], cut at the first newline, [pclose]:
    what [buf] holds afterwards. *)
Definition read_prop (h : host) (size : nat) (name : string) (buf : list ascii)
  : list ascii :=
  match getprop h name with
  | None => buf
  | Some out =>
      match fgets size out with
      | None => buf
      | Some (b, _) =>
          let s := c_str b in
          match strchr s NL with
          | Some nl => cut_at s nl
          | None => s
          end
      end
  end.

(** The loop [for (i = 0; props[i] && !dns1[0]; i += 2)]. *)
Fixpoint dns_scan (h : host) (size : nat) (ps : list string) (dns1 dns2 : list ascii)
  : list ascii * list ascii :=
  match ps with
  | [] => (dns1, dns2)
  | p1 :: rest =>
      if nonempty dns1 then (dns1, dns2)
      else
        let dns1' := read_prop h size p1 dns1 in
        match rest with
        | [] => (dns1', dns2)
        | p2 :: rest' =>
            let dns2' := if nonempty dns1' then read_prop h size p2 dns2 else dns2 in
            dns_scan h size rest' dns1' dns2'
        end
  end.

(** [android_fill_dns_from_props]: the return value and the two buffers. *)
Definition android_fill_dns_from_props (h : host) (dns1 dns2 : list ascii) (size : nat)
  : Z * (list ascii * list ascii) :=
  if negb (is_android h) then (-1, (dns1, dns2))
  else
    let '(d1, d2) := dns_scan h size props [] [] in
    (if nonempty d1 then 0 else -1, (d1, d2)).

Inductive event :=
| Sethostname (name : list ascii)
| WriteFile (path : string) (content : list ascii)
| AppendFile (path : string) (content : list ascii).

Record world := {
  files : gmap string (list ascii);
  trace : list event
}.

(** Modelled from the spec: write_file is declared in droidspace.h and
    defined outside src/; the spec has the Identity Writer "write" the given
    text to the file: the file is created or replaced and holds the text. *)
Definition write_file (path : string) (content : list ascii) (w : world) : world :=
  {| files := <[path := content]> (files w);
     trace := trace w ++ [WriteFile path content] |}.

Definition sethostname (name : list ascii) (w : world) : world :=
  {| files := files w; trace := trace w ++ [Sethostname name] |}.

(** [fopen(path, "a")], [fprintf], [fclose]. *)
Definition append_file (path : string) (content : list ascii) (w : world) : world :=
  {| files := <[path := default [] (files w !! path) ++ content]> (files w);
     trace := trace w ++ [AppendFile path content] |}.

Fixpoint contains (needle s : list ascii) : bool :=
  starts_with needle s ||
  match s with
  | [] => false
  | _ :: r => contains needle r
  end.

(** Modelled from the spec: grep_file is declared in droidspace.h and
    defined outside src/; the spec appends the network groups "if
    /etc/group lacks aid_inet": the file holds the pattern somewhere. *)
Definition grep_file (w : world) (path : string) (pattern : list ascii) : bool :=
  match files w !! path with
  | Some content => contains pattern content
  | None => false
  end.

Definition hosts_text (hostname : list ascii) : list ascii :=
  s2l "127.0.0.1" ++ [TAB] ++ s2l "localhost" ++ [NL] ++
  s2l "::1" ++ [TAB; TAB] ++ s2l "localhost ip6-localhost ip6-loopback" ++ [NL] ++
  s2l "127.0.1.1" ++ [TAB] ++ hostname ++ [NL].

Definition aid_groups : list ascii :=
  s2l "aid_inet:x:3003:" ++ [NL] ++ s2l "aid_net_raw:x:3004:" ++ [NL] ++
  s2l "aid_net_admin:x:3005:" ++ [NL].

Definition fix_networking_rootfs (cfg : ds_config) (h : host)
    (fs : gmap string (list ascii)) : Z * world :=
  let w := {| files := fs; trace := [] |} in
  (* 1. Hostname *)
  let w :=
    if nonempty (hostname cfg) then
      let w := sethostname (hostname cfg) w in
      let hn_buf := snprintf 128 (hostname cfg ++ [NL]) in
      write_file "/etc/hostname" hn_buf w
    else w in
  (* 2. /etc/hosts *)
  let hosts_content := snprintf 1024 (hosts_text (hostname cfg)) in
  let w := write_file "/etc/hosts" hosts_content w in
  (* 3. resolv.conf *)
  let dns1 := s2l "8.8.8.8" in
  let dns2 := s2l "8.8.4.4" in
  let '(dns1, dns2) :=
    if is_android h then snd (android_fill_dns_from_props h dns1 dns2 64)
    else (dns1, dns2) in
  let resolv_content :=
    if nonempty dns2
    then snprintf 256 (s2l "nameserver " ++ dns1 ++ [NL] ++ s2l "nameserver " ++ dns2 ++ [NL])
    else snprintf 256 (s2l "nameserver " ++ dns1 ++ [NL]) in
  let w := write_file "/etc/resolv.conf" resolv_content w in
  (* 4. Android network groups *)
  let w :=
    if is_android h then
      match files w !! "/etc/group" with
      | Some _ =>
          if negb (grep_file w "/etc/group" (s2l "aid_inet"))
          then append_file "/etc/group" aid_groups w
          else w
      | None => w
      end
    else w in
  (0, w).

(** *** Vocabulary of the statements *)

Definition identity_run (cfg : ds_config) (h : host) (fs : gmap string (list ascii))
  : world := snd (fix_networking_rootfs cfg h fs).

Definition resolv_conf (cfg : ds_config) (h : host) (fs : gmap string (list ascii))
  : option (list ascii) := files (identity_run cfg h fs) !! "/etc/resolv.conf".

(** The property is absent or empty: the command cannot be run, prints
    nothing, or prints an empty line. *)
Definition prop_empty (h : host) (name : string) : Prop :=
  getprop h name = None \/ getprop h name = Some [] \/ getprop h name = Some [NL].

(** The value the scan reads for a property: the first line of the output,
    at most 63 bytes of it. *)
Definition prop_value (h : host) (name : string) : list ascii :=
  read_prop h 64 name [].

(** The lines of a text, each with its newline. *)
Definition lines_of (s : list ascii) : list (list ascii) := Hardware.text_lines s.

(** With an empty hostname: no sethostname, /etc/hostname not written, and
    no line of the /etc/hosts written starts with 127.0.1.1. *)
Definition empty_hostname_skipped (cfg : ds_config) (h : host)
    (fs : gmap string (list ascii)) : Prop :=
  let t := trace (identity_run cfg h fs) in
  (forall n, ~ In (Sethostname n) t) /\
  (forall c, ~ In (WriteFile "/etc/hostname" c) t) /\
  (forall c l, In (WriteFile "/etc/hosts" c) t -> In l (lines_of c) ->
               starts_with (s2l "127.0.1.1") l = false).

(** A configuration with the given hostname and nothing else set. *)
Definition config_with_hostname (hn : list ascii) : ds_config :=
  {| container_name := s2l "box"; rootfs_path := "/rootfs"; rootfs_image := [];
     hostname := hn; tty_count := 0; is_systemd := 0; hw_access := 0;
     termux_x11 := 0; enable_ipv6 := 0 |}.

(** A generic Linux host, and an Android host on which every DNS property
    is unset ([getprop] prints an empty line). *)
Definition linux_host : host :=
  {| android_root_env := false; app_process_exists := false;
     getprop := fun _ => None |}.
Definition android_no_dns : host :=
  {| android_root_env := true; app_process_exists := true;
     getprop := fun _ => Some [NL] |}.

End Network.

(** ** mount.c: the tmpfs /dev *)
Module Mount.
Import CLib Config.

(** Values of sys/stat.h; modes are octal in the source. *)
Definition S_IFMT : Z := 61440.    (* 0170000 *)
Definition S_IFCHR : Z := 8192.    (* 0020000 *)
Definition S_IFREG : Z := 32768.   (* 0100000 *)
Definition S_ISREG (mode : Z) : bool := Z.land mode S_IFMT =? S_IFREG.

(** [makedev] for the small numbers of the roster. *)
Definition makedev (major minor : Z) : Z := Z.lor (Z.shiftl major 8) minor.

(** What a name in the guest's /dev can be. *)
Inductive node :=
| Node (mode dev : Z)        (* made by mknod *)
| EmptyFile                  (* made by write_file(path, "") *)
| Link (target : string)     (* made by symlink *)
| Bound (host_path : string) (* a bind mount of the host node *).


Inductive mount_result := MountOk | MountBusy | MountFail.

(** What the environment decides.  The guest's /dev is a map from the name
    under [<rootfs>/dev/] to its node. *)
Record dev_env := {
  dev_mount : mount_result;            (* the mount on <rootfs>/dev *)
  mknod_fails : string -> Z -> bool;   (* mknod fails, errno not EEXIST *)
  host_has : string -> bool;           (* stat("/dev/<name>") succeeds *)
  bind_fails : string -> bool          (* the bind mount on the name fails *)
}.

(** The [devices[]] table of [create_devices]. *)
Definition devices : list (string * Z * Z) :=
  [ ("null", Z.lor S_IFCHR 438, makedev 1 3);      (* 0666 *)
    ("zero", Z.lor S_IFCHR 438, makedev 1 5);
    ("full", Z.lor S_IFCHR 438, makedev 1 7);
    ("random", Z.lor S_IFCHR 438, makedev 1 8);
    ("urandom", Z.lor S_IFCHR 438, makedev 1 9);
    ("tty", Z.lor S_IFCHR 438, makedev 5 0);
    ("console", Z.lor S_IFCHR 384, makedev 5 1);   (* 0600 *)
    ("ptmx", Z.lor S_IFCHR 438, makedev 5 2);
    ("tty1", Z.lor S_IFREG 0, 0);
    ("tty2", Z.lor S_IFREG 0, 0);
    ("tty3", Z.lor S_IFREG 0, 0);
    ("tty4", Z.lor S_IFREG 0, 0) ]%string.

(** [bind_mount("/dev/<name>", "<rootfs>/dev/<name>")]: nothing when the
    host has no such node; otherwise an empty file is made for a missing
    target (the host node is no directory) and the host node is bound on
    it. *)
Definition bind_mount (e : dev_env) (name : string) (dev : gmap string node)
  : gmap string node :=
  if negb (host_has e name) then dev
  else
    let dev1 := match dev !! name with
                | None => <[name := EmptyFile]> dev
                | Some _ => dev
                end in
    if bind_fails e name then dev1 else <[name := Bound ("/dev/" +:+ name)]> dev1.

(** One round of the loop over [devices[]]. *)
Definition create_device (e : dev_env) (dev : gmap string node) (d : string * Z * Z)
  : gmap string node :=
  let '(name, mode, rdev) := d in
  match dev !! name with
  | Some _ => dev                                   (* EEXIST *)
  | None =>
      if mknod_fails e name mode then
        if S_ISREG mode then <[name := EmptyFile]> dev
        else bind_mount e name dev
      else <[name := Node mode rdev]> dev
  end.

(** [symlink(target, "<rootfs>/dev/<name>")], which fails on an existing
    name. *)
Definition symlink (target name : string) (dev : gmap string node) : gmap string node :=
  match dev !! name with
  | Some _ => dev
  | None => <[name := Link target]> dev
  end.

Definition create_devices (e : dev_env) (dev : gmap string node)
  : Z * gmap string node :=
  let dev := fold_left (create_device e) devices dev in
  let dev := symlink "/proc/self/fd" "fd" dev in
  let dev := symlink "/proc/self/fd/0" "stdin" dev in
  let dev := symlink "/proc/self/fd/1" "stdout" dev in
  let dev := symlink "/proc/self/fd/2" "stderr" dev in
  (0, dev).

(** [setup_dev] on a guest whose /dev holds [dev]; [host_dev] is the host's
    devtmpfs.  A fresh tmpfs is empty; EBUSY leaves what is mounted. *)
Definition setup_dev (e : dev_env) (host_dev : gmap string node) (hw_access : Z)
    (dev : gmap string node) : Z * gmap string node :=
  if negb (hw_access =? 0) then
    match dev_mount e with
    | MountOk => (0, host_dev)
    | MountBusy => (0, dev)
    | MountFail => (-1, dev)
    end
  else
    match dev_mount e with
    | MountOk => create_devices e ∅
    | MountBusy => create_devices e dev
    | MountFail => (-1, dev)
    end.

(** *** Vocabulary of the statements *)


(** [tty1] ... [tty<n>], as terminal.c names the bind-mount targets. *)
Definition tty_name (i : nat) : string := l2s (s2l "tty" ++ fmt_d (Z.of_nat i)).




Definition config_with_ttys (n : Z) : ds_config :=
  {| container_name := s2l "box"; rootfs_path := "/rootfs"; rootfs_image := [];
     hostname := s2l "box"; tty_count := n; is_systemd := 0; hw_access := 0;
     termux_x11 := 0; enable_ipv6 := 0 |}.


End Mount.

(** ** environment.c: the environment sealer *)
Module Environment.
Import CLib.

(** The process environment: the value of each variable that is set. *)
Abbreviation environ := (gmap string (list ascii)).

(** [setenv(name, value, overwrite)]; an empty name or one with [=] in it is
    refused. *)
Definition setenv (name : list ascii) (value : list ascii) (overwrite : bool)
    (env : environ) : environ :=
  if negb (Network.nonempty name) || existsb (Ascii.eqb "="%char) name then env
  else
    match env !! l2s name with
    | Some _ => if overwrite then <[l2s name := value]> env else env
    | None => <[l2s name := value]> env
    end.

Definition getenv (name : string) (env : environ) : option (list ascii) := env !! name.

Definition clearenv (env : environ) : environ := ∅.

Definition DEFAULT_PATH : list ascii :=
  s2l "/usr/local/sbin:/usr/local/bin:/usr/sbin:/usr/bin:/sbin:/bin".
Definition DEFAULT_TERM : list ascii := s2l "xterm-256color".

(** [set_container_defaults(term)]; [None] is the NULL pointer. *)
Definition set_container_defaults (term : option (list ascii)) (env : environ)
  : environ :=
  let env := setenv (s2l "PATH") DEFAULT_PATH true env in
  let env := setenv (s2l "TERM") (default DEFAULT_TERM term) true env in
  let env := setenv (s2l "HOME") (s2l "/root") true env in
  setenv (s2l "container") (s2l "droidspaces") true env.

(** [char term_buf[64] = "xterm-256color"], overwritten by the copy of TERM
    when TERM is set. *)
Definition term_buf (env : environ) : list ascii :=
  match getenv "TERM" env with
  | Some saved_term => safe_strncpy saved_term 64
  | None => DEFAULT_TERM
  end.

Definition setup_container_env (env : environ) : environ :=
  let term := term_buf env in
  let env := clearenv env in
  set_container_defaults (Some term) env.

Definition DQUOTE : ascii := "034"%char.
Definition SQUOTE : ascii := "039"%char.

(** One line of /etc/environment, as the loop body of
    [load_etc_environment] treats the buffer [fgets] filled. *)
Definition load_line (buf : list ascii) (env : environ) : environ :=
  let line0 := c_str buf in
  let line := match strchr line0 NL with
              | Some nl => cut_at line0 nl
              | None => line0
              end in
  match line with
  | [] => env
  | c :: _ =>
      if Ascii.eqb c "#" then env
      else
        match strchr line "="%char with
        | None => env
        | Some eq =>
            let key := cut_at line eq in
            let val := tl eq in
            let vlen := length val in
            let quoted :=
              (2 <=? vlen)%nat &&
              ((Ascii.eqb (hd NUL val) DQUOTE && Ascii.eqb (List.last val NUL) DQUOTE) ||
               (Ascii.eqb (hd NUL val) SQUOTE && Ascii.eqb (List.last val NUL) SQUOTE)) in
            let val := if quoted then tl (removelast val) else val in
            setenv key val true env
        end
  end.

Fixpoint load_lines (fuel : nat) (envf : list ascii) (env : environ) : option environ :=
  match fuel with
  | O => None
  | S fuel' =>
      match fgets 512 envf with
      | None => Some env
      | Some (buf, envf') => load_lines fuel' envf' (load_line buf env)
      end
  end.

(** [load_etc_environment]; [fs] holds the files that can be opened. *)
Definition load_etc_environment (fs : gmap string (list ascii)) (env : environ)
  : environ :=
  match fs !! "/etc/environment" with
  | None => env
  | Some content => default env (load_lines (S (length content)) content env)
  end.

(** The four variables of a sealed environment. *)
Definition sealed (term : list ascii) : environ :=
  {[ "PATH" := DEFAULT_PATH; "TERM" := term; "HOME" := s2l "/root";
     "container" := s2l "droidspaces" ]}.

(** The value of TERM a run starts with, xterm-256color when TERM is unset. *)
Definition captured (env : environ) : list ascii :=
  default DEFAULT_TERM (getenv "TERM" env).

(** A sample value of TERM of 70 bytes. *)
Definition long_term : list ascii := replicate 70 "x"%char.

End Environment.

(** ** hardware.c: the host GPU probe *)
Module Probe.

(** The [gpu_devices[]] table of [scan_host_gpu_gids]. *)
Definition gpu_devices : list string :=
  [ "/dev/dri/renderD128"; "/dev/dri/renderD129"; "/dev/dri/renderD130";
    "/dev/dri/card0"; "/dev/dri/card1"; "/dev/dri/card2";
    "/dev/nvidia0"; "/dev/nvidia1"; "/dev/nvidia2"; "/dev/nvidiactl";
    "/dev/nvidia-uvm"; "/dev/nvidia-uvm-tools"; "/dev/nvidia-modeset";
    "/dev/nvidia-caps/nvidia-cap1"; "/dev/nvidia-caps/nvidia-cap2";
    "/dev/mali0"; "/dev/mali"; "/dev/mali1";
    "/dev/kgsl-3d0"; "/dev/kgsl"; "/dev/genlock";
    "/dev/kfd";
    "/dev/pvr_sync";
    "/dev/nvhost-ctrl"; "/dev/nvhost-gpu"; "/dev/nvmap";
    "/dev/dma_heap/system"; "/dev/dma_heap/linux,cma";
    "/dev/dma_heap/reserved"; "/dev/dma_heap/qcom,system";
    "/dev/sw_sync" ]%string.

(** The inner loop [for (j = 0; j < count; j++) if (gids[j] == gid)];
    [gids] holds [gids[0]] ... [gids[count - 1]]. *)
Fixpoint duplicate (gids : list Z) (gid : Z) : bool :=
  match gids with
  | [] => false
  | g :: rest => if g =? gid then true else duplicate rest gid
  end.

(** One round of the loop over [gpu_devices[]].  [stat path] is the
    [st_gid] that [stat(path, &st)] reports on the host, [None] when the
    call fails. *)
Definition probe_device (stat : string -> option Z) (max_gids : Z)
    (gids : list Z) (path : string) : list Z :=
  match stat path with
  | None => gids
  | Some gid =>
      if gid =? 0 then gids
      else if negb (duplicate gids gid) && (Z.of_nat (length gids) <? max_gids)
      then gids ++ [gid]
      else gids
  end.

(** [scan_host_gpu_gids]: the return value [count] and the entries
    [gids[0]] ... [gids[count - 1]] it stored. *)
Definition scan_host_gpu_gids (stat : string -> option Z) (max_gids : Z)
  : Z * list Z :=
  let gids := fold_left (probe_device stat max_gids) gpu_devices [] in
  (Z.of_nat (length gids), gids).

(** *** Vocabulary of the statements *)

(** What the loop keeps true of the stored GIDs, over the devices [seen]
    so far. *)
Definition probed (stat : string -> option Z) (max_gids : Z)
    (seen : list string) (gids : list Z) : Prop :=
  NoDup gids /\ ~ In 0 gids /\
  Z.of_nat (length gids) <= Z.max 0 max_gids /\
  (length gids <= length seen)%nat /\
  (forall g, In g gids -> exists p, In p seen /\ stat p = Some g).

End Probe.

(** ** android.c: the memoised host class *)
Module Android.
Import Network.

(** [is_android] with its [static int cached_result], which starts at -1:
    the return value and the variable afterwards. *)
Definition is_android (h : host) (cached_result : Z) : Z * Z :=
  if negb (cached_result =? -1) then (cached_result, cached_result)
  else if android_root_env h || app_process_exists h then (1, 1)
  else (0, 0).

(** Successive calls, each seeing the host as it is at that moment. *)
Fixpoint is_android_calls (hs : list host) (cached_result : Z) : list Z :=
  match hs with
  | [] => []
  | h :: rest =>
      let '(r, c) := is_android h cached_result in
      r :: is_android_calls rest c
  end.

End Android.

(** ** terminal.c: TTY targets, raw mode, the TTY list *)
Module Terminal.
Import CLib.

(** Modelled from the spec: struct ds_tty_info is declared in droidspace.h,
    outside src/; the spec has the Terminal Provisioner allocate
    master/slave pairs, and terminal.c uses the two descriptors and the path
    name of the slave. *)
Record ds_tty_info := {
  master : Z;
  slave : Z;
  name : list ascii
}.

(** The [target] buffer of [ds_terminal_setup_ttys] in round [i]:
    [snprintf(target, sizeof(target), "/dev/tty%d", i + 1)]. *)
Definition tty_target (i : Z) : list ascii :=
  snprintf 32 (s2l "/dev/tty" ++ fmt_d (to_int (i + 1))).

(** The loop of [ds_terminal_setup_ttys] from round [i] on: the bind
    mounts it asks for, source and target.  A mount that fails is only
    warned about. *)
Fixpoint setup_ttys_loop (ttys : list ds_tty_info) (i : Z)
  : list (list ascii * list ascii) :=
  match ttys with
  | [] => []
  | t :: rest => (name t, tty_target i) :: setup_ttys_loop rest (i + 1)
  end.

(** [ds_terminal_setup_ttys(ttys, count)], the array holding at least
    [count] entries: the return value and the mounts asked for. *)
Definition ds_terminal_setup_ttys (ttys : list ds_tty_info) (count : Z)
  : Z * list (list ascii * list ascii) :=
  (0, setup_ttys_loop (firstn (Z.to_nat count) ttys) 0).

(** [strncat(dest, src, n)]: at most [n] bytes of [src] after [dest]. *)
Definition strncat (dest src : list ascii) (n : nat) : list ascii :=
  dest ++ firstn n src.

(** [size - strlen(buf) - 1] in [size_t] arithmetic (64 bits). *)
Definition room (size : Z) (buf : list ascii) : nat :=
  Z.to_nat ((size - Z.of_nat (length buf) - 1) mod 2 ^ 64).

(** The loop of [build_container_ttys_string] from round [i] on. *)
Fixpoint ttys_string_loop (ttys : list ds_tty_info) (i : nat) (size : Z)
    (buf : list ascii) : list ascii :=
  match ttys with
  | [] => buf
  | t :: rest =>
      let buf := if (0 <? i)%nat then strncat buf (s2l " ") (room size buf) else buf in
      let buf := strncat buf (name t) (room size buf) in
      ttys_string_loop rest (S i) size buf
  end.

(** [build_container_ttys_string(ttys, count, buf, size)], the array
    holding at least [count] entries and [size] being at least 1: what
    [buf] holds afterwards. *)
Definition build_container_ttys_string (ttys : list ds_tty_info) (count : Z) (size : Z)
  : list ascii :=
  ttys_string_loop (firstn (Z.to_nat count) ttys) 0 size [].

(** Values of the kernel's asm-generic/termbits.h (x86, arm, arm64); the
    header writes them in octal. *)
Definition IGNPAR : Z := 4.
Definition ISTRIP : Z := 32.
Definition INLCR : Z := 64.
Definition IGNCR : Z := 128.
Definition ICRNL : Z := 256.
Definition IUCLC : Z := 512.
Definition IXON : Z := 1024.
Definition IXANY : Z := 2048.
Definition IXOFF : Z := 4096.
Definition OPOST : Z := 1.
Definition ONLCR : Z := 4.
Definition ISIG : Z := 1.
Definition ICANON : Z := 2.
Definition ECHO : Z := 8.
Definition ECHOE : Z := 16.
Definition ECHOK : Z := 32.
Definition ECHONL : Z := 64.
Definition TOSTOP : Z := 256.
Definition IEXTEN : Z := 32768.
Definition VTIME : nat := 5.
Definition VMIN : nat := 6.

(** [struct termios]; the flag words are [tcflag_t], unsigned 32-bit. *)
Record termios := {
  c_iflag : Z;
  c_oflag : Z;
  c_cflag : Z;
  c_lflag : Z;
  c_cc : list Z
}.

(** [flags &= ~mask] and [flags |= mask] on a [tcflag_t]; [~mask] is an
    [int], converted to unsigned for the conjunction. *)
Definition clear_bits (flags mask : Z) : Z := Z.land flags (Z.lnot mask mod 2 ^ 32).
Definition set_bits (flags mask : Z) : Z := Z.lor flags mask.

(** What [ds_setup_tios] makes of [*old] before it calls [tcsetattr]. *)
Definition new_tios (old : termios) : termios :=
  let iflag := set_bits (c_iflag old) IGNPAR in
  let iflag :=
    clear_bits iflag
      (Z.lor ISTRIP (Z.lor INLCR (Z.lor IGNCR (Z.lor ICRNL (Z.lor IXON (Z.lor IXANY IXOFF)))))) in
  let iflag := clear_bits iflag IUCLC in
  let lflag :=
    clear_bits (c_lflag old)
      (Z.lor TOSTOP (Z.lor ISIG (Z.lor ICANON (Z.lor ECHO (Z.lor ECHOE (Z.lor ECHOK ECHONL)))))) in
  let lflag := clear_bits lflag IEXTEN in
  let oflag := clear_bits (c_oflag old) ONLCR in
  let oflag := set_bits oflag OPOST in
  {| c_iflag := iflag; c_oflag := oflag; c_cflag := c_cflag old; c_lflag := lflag;
     c_cc := <[VTIME := 0]> (<[VMIN := 1]> (c_cc old)) |}.

(** The terminal behind [fd]: whether it is one, its attributes, and
    whether [tcgetattr] and [tcsetattr] fail on it. *)
Record terminal := {
  isatty : bool;
  attrs : termios;
  tcgetattr_fails : bool;
  tcsetattr_fails : bool
}.

(** [ds_setup_tios(fd, old)]: the return value, what [*old] holds
    afterwards ([old] before the call when nothing was stored), the
    attributes of the terminal afterwards, and whether SIGTTIN and SIGTTOU
    were set to be ignored. *)
Record tios_outcome := {
  tios_ret : Z;
  saved : termios;
  attrs_after : termios;
  sigtt_ignored : bool
}.

Definition ds_setup_tios (fd : terminal) (old : termios) : tios_outcome :=
  if negb (isatty fd) then
    {| tios_ret := -1; saved := old; attrs_after := attrs fd; sigtt_ignored := false |}
  else if tcgetattr_fails fd then
    {| tios_ret := -1; saved := old; attrs_after := attrs fd; sigtt_ignored := false |}
  else
    let old := attrs fd in
    if tcsetattr_fails fd then
      {| tios_ret := -1; saved := old; attrs_after := attrs fd; sigtt_ignored := true |}
    else
      {| tios_ret := 0; saved := old; attrs_after := new_tios old; sigtt_ignored := true |}.

(** *** Vocabulary of the statements *)

(** The names joined with single spaces. *)
Fixpoint join_names (names : list (list ascii)) : list ascii :=
  match names with
  | [] => []
  | [n] => n
  | n :: rest => n ++ s2l " " ++ join_names rest
  end.

(** The bits [ds_setup_tios] clears in the input, local and output flags. *)
Definition input_cleared : list Z := [ISTRIP; INLCR; IGNCR; ICRNL; IXON; IXANY; IXOFF; IUCLC].
Definition local_cleared : list Z := [TOSTOP; ISIG; ICANON; ECHO; ECHOE; ECHOK; ECHONL; IEXTEN].

Definition tcflag (f : Z) : Prop := 0 <= f < 2 ^ 32.

(** The names after the first, each behind its space. *)
Definition spaced (ttys : list ds_tty_info) : list ascii :=
  concat (map (fun t => s2l " " ++ name t) ttys).

(** The bits of the three flag words after [new_tios]: bit [n] of the
    input flags is set for IGNPAR, clear for the eight cleared flags and
    kept otherwise, and likewise for the local and output flags. *)
Definition iflag_bit (f : Z) (n : Z) : bool :=
  (n =? 2) || (Z.testbit f n && negb (existsb (Z.eqb n) [5; 6; 7; 8; 9; 10; 11; 12])).
Definition lflag_bit (f : Z) (n : Z) : bool :=
  Z.testbit f n && negb (existsb (Z.eqb n) [0; 1; 3; 4; 5; 6; 8; 15]).
Definition oflag_bit (f : Z) (n : Z) : bool :=
  (n =? 0) || (Z.testbit f n && negb (n =? 2)).

End Terminal.

(** ** environment.c: the environment of a booting guest *)
Module Boot.
Import CLib Config Environment Terminal.

(** [ds_env_boot_setup(cfg)]; [ttys] is the array [cfg->ttys]. *)
Definition ds_env_boot_setup (cfg : ds_config) (ttys : list ds_tty_info)
    (env : environ) : environ :=
  let term := term_buf env in
  let env := clearenv env in
  let env := set_container_defaults (Some term) env in
  let env :=
    if 0 <? tty_count cfg then
      let ttys_str := build_container_ttys_string ttys (tty_count cfg) 256 in
      setenv (s2l "container_ttys") ttys_str true env
    else env in
  setenv (s2l "LANG") (s2l "en_US.UTF-8") false env.

End Boot.



(** ** android_seccomp.c: the namespace flags behind the mask *)
Module Namespaces.
Import Seccomp.

(** Values of the kernel's linux/sched.h, beside [CLONE_NEWNS]. *)
Definition CLONE_NEWTIME : Z := 0x00000080.
Definition CLONE_NEWCGROUP : Z := 0x02000000.
Definition CLONE_NEWUTS : Z := 0x04000000.
Definition CLONE_NEWIPC : Z := 0x08000000.
Definition CLONE_NEWUSER : Z := 0x10000000.
Definition CLONE_NEWPID : Z := 0x20000000.
Definition CLONE_NEWNET : Z := 0x40000000.

Definition namespace_flags : list Z :=
  [CLONE_NEWNS; CLONE_NEWCGROUP; CLONE_NEWUTS; CLONE_NEWIPC; CLONE_NEWUSER;
   CLONE_NEWPID; CLONE_NEWNET].

(** The call asks for one of the namespaces of [flags]. *)
Definition requests (flags : list Z) (a0 : Z) : bool :=
  existsb (fun f => negb (Z.land a0 f =? 0)) flags.

(** The three words of [seccomp_data] the program loads: [arch], [nr] and
    the low half of [args[0]]. *)
Definition words (d : seccomp_data) : seccomp_data :=
  {| nr := lo32 (nr d); arch := lo32 (arch d); instruction_pointer := 0;
     args := [lo32 (nth 0 (args d) 0)] |}.

End Namespaces.

(** ** mount.c: the mount point of a rootfs image *)
Module Image.
Import CLib Terminal.

Definition PATH_MAX : nat := 4096.

(** The part of the image path the mount point is named after: the text
    after the last [/], at most 127 bytes of it, cut at its last dot. *)
Definition image_name (img_path : list ascii) : list ascii :=
  let filename :=
    match strrchr img_path "/"%char with
    | Some p => tl p
    | None => img_path
    end in
  let name_only := safe_strncpy filename 128 in
  match strrchr name_only "."%char with
  | Some dot => cut_at name_only dot
  | None => name_only
  end.

Inductive img_call :=
| Mkdir (path : list ascii) (mode : Z)
| System (cmd : list ascii).

(** [mount_rootfs_img(img_path, mount_point, mp_size)] with [mp_size] at
    least 1: the return value, what [mount_point] holds, and the calls
    made.  [workspace] is what get_workspace_dir returns, a function
    defined outside src/; [system cmd] is the status of the shell command. *)
Definition mount_rootfs_img (workspace : list ascii) (system : list ascii -> Z)
    (img_path : list ascii) (mp_size : Z) : Z * list ascii * list img_call :=
  let mount_point := snprintf (Z.to_nat mp_size) (workspace ++ s2l "/mounts") in
  let base := mount_point in
  let mount_point := strncat mount_point (s2l "/") (room mp_size mount_point) in
  let mount_point := strncat mount_point (image_name img_path) (room mp_size mount_point) in
  let check :=
    snprintf (PATH_MAX + 64) (s2l "e2fsck -f -y " ++ img_path ++ s2l " >/dev/null 2>&1") in
  let loop :=
    snprintf (PATH_MAX + 64)
      (s2l "mount -v -o loop " ++ img_path ++ s2l " " ++ mount_point ++ s2l " 2>/dev/null") in
  let calls := [Mkdir base 493; Mkdir mount_point 493; System check; System loop] in
  if negb (system loop =? 0) then (-1, mount_point, calls) else (0, mount_point, calls).

End Image.

(** ** mount.c: the cgroup hierarchy *)
Module Cgroup.
Import Mount.

Definition MS_NOSUID : Z := 2.
Definition MS_NODEV : Z := 4.
Definition MS_NOEXEC : Z := 8.

Inductive cg_call :=
| Mkdir (path : string) (mode : Z)
| DoMount (src tgt fstype : string) (flags : Z) (data : option string).

(** What the host decides: the two signs of a unified hierarchy, and the
    outcome of each [mount] by its target. *)
Record cg_env := {
  has_cgroup_controllers : bool;   (* access("/sys/fs/cgroup/cgroup.controllers", F_OK) == 0 *)
  mounts_mention_cgroup2 : bool;   (* grep_file("/proc/mounts", "cgroup2") *)
  mount_on : string -> mount_result
}.

(** [domount]: EBUSY is no failure. *)
Definition domount (r : mount_result) : Z :=
  match r with
  | MountFail => -1
  | MountOk | MountBusy => 0
  end.

Definition subs : list string :=
  ["cpu"; "cpuacct"; "devices"; "memory"; "freezer"; "blkio"; "pids"; "systemd"]%string.

Definition cgroup_flags : Z := Z.lor MS_NOSUID (Z.lor MS_NODEV MS_NOEXEC).

(** One round of the loop over [subs[]]; the result of [domount] is not
    looked at. *)
Definition mount_sub (sub : string) : list cg_call :=
  let path := ("/sys/fs/cgroup/" +:+ sub)%string in
  [Mkdir path 493; DoMount "cgroup" path "cgroup" cgroup_flags (Some sub)].

(** [setup_cgroups]: the return value and the calls made. *)
Definition setup_cgroups (e : cg_env) : Z * list cg_call :=
  let root := "/sys/fs/cgroup"%string in
  let calls := [Mkdir root 493] in
  if has_cgroup_controllers e || mounts_mention_cgroup2 e then
    (domount (mount_on e root),
     calls ++ [DoMount "cgroup2" root "cgroup2" cgroup_flags None])
  else
    let calls := calls ++ [DoMount "none" root "tmpfs" cgroup_flags (Some "mode=755"%string)] in
    if domount (mount_on e root) <? 0 then (-1, calls)
    else (0, calls ++ flat_map mount_sub subs).

(** The file-system types mounted, in order. *)
Definition mounted_types (calls : list cg_call) : list (string * option string) :=
  flat_map (fun c => match c with
                     | DoMount _ _ fstype _ data => [(fstype, data)]
                     | Mkdir _ _ => []
                     end) calls.

End Cgroup.

(** ** android.c and network.c: vocabulary for the values and the files *)
Module Identity.
Import CLib Network.

(** A value fits its buffer and holds neither a newline nor a NUL byte. *)
Definition dns_value (size : nat) (v : list ascii) : Prop :=
  (length v < size)%nat /\ Forall (fun c => c <> NL /\ c <> NUL) v.

(** The servers step 3 writes. *)
Definition servers (h : host) : list ascii * list ascii :=
  if is_android h
  then snd (android_fill_dns_from_props h (s2l "8.8.8.8") (s2l "8.8.4.4") 64)
  else (s2l "8.8.8.8", s2l "8.8.4.4").

(** The text of step 3. *)
Definition resolv_text (h : host) : list ascii :=
  let '(dns1, dns2) :=
    if is_android h
    then snd (android_fill_dns_from_props h (s2l "8.8.8.8") (s2l "8.8.4.4") 64)
    else (s2l "8.8.8.8", s2l "8.8.4.4") in
  if nonempty dns2
  then snprintf 256 (s2l "nameserver " ++ dns1 ++ [NL] ++ s2l "nameserver " ++ dns2 ++ [NL])
  else snprintf 256 (s2l "nameserver " ++ dns1 ++ [NL]).

(** What step 4 makes of /etc/group. *)
Definition group_step (android : bool) (o : option (list ascii)) : option (list ascii) :=
  match o with
  | Some g =>
      if android && negb (contains (s2l "aid_inet") g) then Some (g ++ aid_groups)
      else Some g
  | None => None
  end.

End Identity.

(** ** mount.c: vocabulary for the device loop *)
Module Devices.
Import Mount.


End Devices.

(** * Properties *)

(** ** hardware.c *)
Module HardwareFacts.
Import CLib Hardware.

#[local] Opaque LINE_SIZE.
#[local] Arguments line_action_of : simpl never.

Lemma c_str_plain buf : Forall (fun c => c <> NUL) buf -> c_str buf = buf.
Proof.
  induction 1 as [|c r Hc _ IH]; simpl; [reflexivity|].
  destruct (Ascii.eqb_spec c NUL); [contradiction|]. now rewrite IH.
Qed.

Lemma take_line_app s : fst (take_line s) ++ snd (take_line s) = s.
Proof.
  induction s as [|c r IH]; simpl; [reflexivity|].
  destruct (Ascii.eqb c NL); simpl; [reflexivity|].
  destruct (take_line r) as [l rest]; simpl in *. now rewrite IH.
Qed.

Lemma text_lines_take c r :
  text_lines (c :: r) = fst (take_line (c :: r)) :: text_lines (snd (take_line (c :: r))).
Proof.
  revert c. induction r as [|d r IH]; intros c; simpl.
  - destruct (Ascii.eqb c NL); reflexivity.
  - destruct (Ascii.eqb c NL) eqn:Ec; [reflexivity|].
    specialize (IH d). simpl in IH. rewrite IH.
    destruct (Ascii.eqb d NL); simpl; [reflexivity|].
    destruct (take_line r) as [l rest]; reflexivity.
Qed.

Lemma LINE_SIZE_pos : (1 < LINE_SIZE)%nat.
Proof. apply Nat.ltb_lt. vm_compute. reflexivity. Qed.

Lemma fgets_cons size c r :
  fgets size (c :: r) = Some (fgets_read (size - 1) (c :: r)).
Proof. reflexivity. Qed.

Lemma fold_left_cons {A B} (f : A -> B -> A) x l a :
  fold_left f (x :: l) a = fold_left f l (f a x).
Proof. reflexivity. Qed.

Lemma scan_loop_S fuel gids fin st :
  scan_loop (S fuel) gids fin st =
  match fgets LINE_SIZE fin with
  | None => Some st
  | Some (buf, fin') => scan_loop fuel gids fin' (process_line gids (c_str buf) st)
  end.
Proof. reflexivity. Qed.

Lemma fgets_read_take room s :
  (length (fst (take_line s)) <= room)%nat -> fgets_read room s = take_line s.
Proof.
  revert room. induction s as [|c r IH]; intros room H; simpl in *.
  - destruct room; reflexivity.
  - destruct (Ascii.eqb c NL) eqn:Ec; simpl in *.
    + destruct room; [lia|]. simpl. rewrite Ec. reflexivity.
    + destruct (take_line r) as [l rest] eqn:Et; simpl in *.
      destruct room; [lia|]. simpl. rewrite Ec, IH by lia. reflexivity.
Qed.

Lemma take_line_fst_pos c r : (1 <= length (fst (take_line (c :: r))))%nat.
Proof.
  simpl. destruct (Ascii.eqb c NL); simpl; [lia|].
  destruct (take_line r); simpl; lia.
Qed.

Lemma take_line_rest_length c r :
  (length (snd (take_line (c :: r))) <= length r)%nat.
Proof.
  pose proof (take_line_app (c :: r)) as H.
  apply (f_equal (@length ascii)) in H. rewrite length_app in H.
  pose proof (take_line_fst_pos c r).
  cbn [length] in H. lia.
Qed.

(** The loop over a readable text runs the body once per line. *)
Lemma scan_loop_lines gids fuel s st :
  (length s < fuel)%nat -> readable s ->
  scan_loop fuel gids s st =
  Some (fold_left (fun st l => process_line gids l st) (text_lines s) st).
Proof.
  revert s st. induction fuel as [|fuel IH]; intros s st Hf [Hn Hl]; [lia|].
  destruct s as [|c r]; [reflexivity|].
  rewrite text_lines_take in Hl |- *. apply Forall_cons in Hl as [H1 H2].
  rewrite scan_loop_S, fgets_cons.
  rewrite fgets_read_take by lia.
  pose proof (take_line_app (c :: r)) as Happ.
  pose proof (take_line_rest_length c r) as Hlen.
  destruct (take_line (c :: r)) as [l rest]; cbn [fst snd] in *.
  rewrite <- Happ in Hn. apply Forall_app in Hn as [Hn1 Hn2].
  rewrite c_str_plain by exact Hn1. rewrite fold_left_cons.
  apply IH; [cbn [length] in Hf; lia | split; assumption].
Qed.

(** The loop always terminates within its fuel. *)
Lemma fgets_read_rest_length room c r :
  (length (snd (fgets_read (S room) (c :: r))) <= length r)%nat.
Proof.
  revert c room. induction r as [|d r IH]; intros c room; simpl.
  - destruct (Ascii.eqb c NL); simpl; [lia|]. destruct room; simpl; lia.
  - destruct (Ascii.eqb c NL); simpl; [lia|].
    destruct room as [|room]; simpl; [lia|].
    specialize (IH d room). simpl in IH.
    destruct (Ascii.eqb d NL); simpl in *; [lia|].
    destruct (fgets_read room r); simpl in *; lia.
Qed.

Lemma scan_loop_total gids fuel s st :
  (length s < fuel)%nat -> exists st', scan_loop fuel gids s st = Some st'.
Proof.
  revert s st. induction fuel as [|fuel IH]; intros s st Hf; [lia|].
  destruct s as [|c r]; [eexists; reflexivity|].
  rewrite scan_loop_S, fgets_cons.
  pose proof LINE_SIZE_pos as Hpos.
  pose proof (fgets_read_rest_length (LINE_SIZE - 2) c r) as Hlen.
  replace (S (LINE_SIZE - 2)) with (LINE_SIZE - 1)%nat in Hlen by lia.
  destruct (fgets_read (LINE_SIZE - 1) (c :: r)) as [l rest]; cbn [snd] in Hlen.
  apply IH. cbn [length] in Hf. lia.
Qed.

Lemma process_line_eq gids l st :
  process_line gids l st =
  {| fout := fout st ++ [line_text gids l];
     found_gids := mark (found_gids st) (line_idx gids l);
     modified_count := modified_count st + (if line_modified gids l then 1 else 0) |}.
Proof.
  unfold process_line, line_text, line_idx, line_modified, mark.
  destruct (line_action_of gids l) as [[i|]|i t]; f_equal; lia.
Qed.

Lemma filter_length_cons {A} (p : A -> bool) x l :
  length (List.filter p (x :: l)) =
  ((if p x then 1 else 0) + length (List.filter p l))%nat.
Proof. simpl. destruct (p x); reflexivity. Qed.

Lemma fold_process gids ls st :
  fold_left (fun st l => process_line gids l st) ls st =
  {| fout := fout st ++ map (line_text gids) ls;
     found_gids := fold_left mark (map (line_idx gids) ls) (found_gids st);
     modified_count := modified_count st + length (List.filter (line_modified gids) ls) |}.
Proof.
  revert st. induction ls as [|l ls IH]; intros st.
  - destruct st; cbn [fold_left map List.filter length fout found_gids modified_count].
    rewrite app_nil_r. f_equal. lia.
  - rewrite filter_length_cons, !map_cons, !fold_left_cons. rewrite IH, process_line_eq.
    cbn [fout found_gids modified_count]. rewrite <- app_assoc.
    f_equal. lia.
Qed.

Lemma append_missing_eq gids found st :
  append_missing gids found st =
  {| fout := fout st ++ map gpu_record (missing gids found);
     found_gids := found_gids st;
     modified_count := modified_count st + length (missing gids found) |}.
Proof.
  revert found st. induction gids as [|g gs IH]; intros found st; simpl.
  - destruct st; simpl. rewrite app_nil_r. f_equal. lia.
  - destruct found as [|f fs]; simpl.
    + destruct st; simpl. rewrite app_nil_r. f_equal. lia.
    + rewrite IH. destruct f; simpl; [reflexivity|].
      rewrite <- app_assoc. simpl. f_equal. lia.
Qed.

Lemma written_readable gids s :
  readable s ->
  written gids s =
  map (line_text gids) (text_lines s) ++
  map gpu_record (missing gids (found_after gids (text_lines s))).
Proof.
  intros Hr. unfold written.
  rewrite scan_loop_lines by (auto; lia).
  rewrite fold_process, append_missing_eq. reflexivity.
Qed.


(** *** Fields *)

Lemma before_after sep s p :
  after sep s = Some p -> s = before sep s ++ sep :: p.
Proof.
  revert p. induction s as [|c r IH]; intros p H; simpl in *; [discriminate|].
  destruct (Ascii.eqb_spec c sep).
  - injection H as <-. now subst.
  - simpl. f_equal. now apply IH.
Qed.

Lemma before_free sep s : Forall (fun c => c <> sep) (before sep s).
Proof.
  induction s as [|c r IH]; simpl; [constructor|].
  destruct (Ascii.eqb_spec c sep); [constructor|]. now constructor.
Qed.

Lemma before_app sep f r :
  Forall (fun c => c <> sep) f -> before sep (f ++ sep :: r) = f.
Proof.
  induction 1 as [|c f Hc _ IH]; simpl.
  - now rewrite Ascii.eqb_refl.
  - destruct (Ascii.eqb_spec c sep); [contradiction|]. now rewrite IH.
Qed.

Lemma after_app sep f r :
  Forall (fun c => c <> sep) f -> after sep (f ++ sep :: r) = Some r.
Proof.
  induction 1 as [|c f Hc _ IH]; simpl.
  - now rewrite Ascii.eqb_refl.
  - destruct (Ascii.eqb_spec c sep); [contradiction|]. exact IH.
Qed.

Lemma after_None sep s :
  after sep s = None -> before sep s = s.
Proof.
  induction s as [|c r IH]; simpl; [reflexivity|].
  destruct (Ascii.eqb c sep); [discriminate|]. intros H. now rewrite IH.
Qed.

Lemma split_on_unfold sep s :
  split_on sep s =
  before sep s :: match after sep s with Some p => split_on sep p | None => [] end.
Proof.
  induction s as [|c r IH]; simpl; [reflexivity|].
  destruct (Ascii.eqb c sep); [reflexivity|]. now rewrite IH.
Qed.

Lemma colon_scan_2 s g : colon_scan s 2 g = (g, after COLON s).
Proof.
  induction s as [|c r IH]; simpl; [reflexivity|].
  destruct (Ascii.eqb c COLON); [reflexivity | exact IH].
Qed.

Lemma colon_scan_1 s g :
  colon_scan s 1 g =
  match after COLON s with
  | Some p => (Some p, after COLON p)
  | None => (g, None)
  end.
Proof.
  induction s as [|c r IH]; simpl; [reflexivity|].
  destruct (Ascii.eqb c COLON); [apply colon_scan_2 | exact IH].
Qed.

Lemma colon_scan_0 s :
  colon_scan s 0 None =
  match after COLON s with
  | Some p1 =>
      match after COLON p1 with
      | Some p2 => (Some p2, after COLON p2)
      | None => (None, None)
      end
  | None => (None, None)
  end.
Proof.
  induction s as [|c r IH]; simpl; [reflexivity|].
  destruct (Ascii.eqb c COLON); [apply colon_scan_1 | exact IH].
Qed.

Lemma parse_record_Some body name pw gidf users :
  parse_record body = Some (name, pw, gidf, users) ->
  body = name ++ [COLON] ++ pw ++ [COLON] ++ gidf ++ [COLON] ++ users /\
  Forall (fun c => c <> COLON) name /\ Forall (fun c => c <> COLON) pw /\
  Forall (fun c => c <> COLON) gidf.
Proof.
  unfold parse_record.
  destruct (after COLON body) as [p1|] eqn:E1; [|discriminate].
  destruct (after COLON p1) as [p2|] eqn:E2; [|discriminate].
  destruct (after COLON p2) as [p3|] eqn:E3; [|discriminate].
  intros H; injection H as <- <- <- <-.
  apply before_after in E1, E2, E3.
  repeat split; try apply before_free.
  simpl. rewrite <- E3, <- E2. exact E1.
Qed.

Lemma parse_record_app name pw gidf users :
  Forall (fun c => c <> COLON) name -> Forall (fun c => c <> COLON) pw ->
  Forall (fun c => c <> COLON) gidf ->
  parse_record (name ++ [COLON] ++ pw ++ [COLON] ++ gidf ++ [COLON] ++ users) =
  Some (name, pw, gidf, users).
Proof.
  intros Hn Hp Hg. unfold parse_record. simpl.
  rewrite (after_app COLON name) by assumption.
  rewrite (after_app COLON pw) by assumption.
  rewrite (after_app COLON gidf) by assumption.
  rewrite (before_app COLON name), (before_app COLON pw), (before_app COLON gidf) by assumption.
  reflexivity.
Qed.

(** The third field of a line, from its parse. *)
Lemma third_field body :
  nth_error (split_on COLON body) 2 =
  match after COLON body with
  | Some p1 =>
      match after COLON p1 with
      | Some p2 => Some (before COLON p2)
      | None => None
      end
  | None => None
  end.
Proof.
  rewrite (split_on_unfold COLON body).
  destruct (after COLON body) as [p1|]; [|reflexivity].
  rewrite (split_on_unfold COLON p1).
  destruct (after COLON p1) as [p2|]; [|reflexivity].
  rewrite (split_on_unfold COLON p2). reflexivity.
Qed.

(** *** Lines *)

Lemma text_lines_shape s : Forall line_shape (text_lines s).
Proof.
  induction s as [|c r IH]; simpl; [constructor|].
  destruct (Ascii.eqb_spec c NL) as [->|Hc].
  - constructor; [|exact IH]. exists [], [NL]. repeat split; auto.
  - destruct (text_lines r) as [|l ls].
    + constructor; [|constructor]. exists [c], []. repeat split; auto.
    + apply Forall_cons in IH as [(body & eol & -> & Hb & He) Hls].
      constructor; [|exact Hls]. exists (c :: body), eol. repeat split; auto.
Qed.

Lemma strrchr_none s c : Forall (fun d => d <> c) s -> strrchr s c = None.
Proof.
  induction 1 as [|d s Hd _ IH]; simpl; [reflexivity|].
  rewrite IH. destruct (Ascii.eqb_spec d c); [contradiction|reflexivity].
Qed.

Lemma strrchr_last s c :
  Forall (fun d => d <> c) s -> strrchr (s ++ [c]) c = Some [c].
Proof.
  induction 1 as [|d s Hd _ IH]; simpl.
  - now rewrite Ascii.eqb_refl.
  - now rewrite IH.
Qed.

Lemma chomp_shape body eol :
  Forall (fun c => c <> NL) body -> eol = [] \/ eol = [NL] -> chomp (body ++ eol) = body.
Proof.
  intros Hb He. induction Hb as [|c body Hc Hb IH].
  - destruct He as [->| ->]; reflexivity.
  - change ((c :: body) ++ eol) with (c :: (body ++ eol)).
    cbn [chomp]. destruct (body ++ eol) as [|d r] eqn:E.
    + apply app_eq_nil in E as [-> ->]. cbn.
      destruct (Ascii.eqb_spec c NL); [contradiction|reflexivity].
    + rewrite IH. reflexivity.
Qed.

Lemma firstn_prefix_len (h q : list ascii) n :
  (n + length q = length (h ++ q))%nat -> firstn n (h ++ q) = h.
Proof.
  rewrite length_app. intros H.
  replace n with (length h) by lia.
  now rewrite firstn_app, Nat.sub_diag, firstn_all, app_nil_r.
Qed.

(** The copy of a line the loop body parses is the line without its
    newline. *)
Lemma line_copy_shape body eol :
  Forall (fun c => c <> NL) body -> eol = [] \/ eol = [NL] ->
  (length (body ++ eol) < LINE_SIZE)%nat ->
  match strrchr (safe_strncpy (body ++ eol) LINE_SIZE) NL with
  | Some nl => cut_at (safe_strncpy (body ++ eol) LINE_SIZE) nl
  | None => safe_strncpy (body ++ eol) LINE_SIZE
  end = body.
Proof.
  intros Hb He Hlen. unfold safe_strncpy.
  rewrite firstn_all2 by lia.
  destruct He as [-> | ->].
  - rewrite app_nil_r, strrchr_none by exact Hb. reflexivity.
  - rewrite strrchr_last by exact Hb. unfold cut_at.
    rewrite length_app. simpl.
    replace (length body + 1 - 1)%nat with (length body) by lia.
    now rewrite firstn_app, Nat.sub_diag, firstn_all, app_nil_r.
Qed.

(** What the loop body decides for a line, from the parse of the line. *)
Lemma line_action_shape gids body eol :
  Forall (fun c => c <> NL) body -> eol = [] \/ eol = [NL] ->
  (length (body ++ eol) < LINE_SIZE)%nat ->
  line_action_of gids (body ++ eol) =
  match parse_record body with
  | Some (name, pw, gidf, users) =>
      match find_gid gids (gid_of_field gidf) with
      | Some i =>
          if has_user users ROOT then Unmodified (Some i)
          else Modified i (record_line name pw gidf (add_root users) [NL])
      | None => Unmodified None
      end
  | None => Unmodified None
  end.
Proof.
  intros Hb He Hlen. unfold line_action_of.
  rewrite line_copy_shape by assumption.
  rewrite colon_scan_0.
  destruct (parse_record body) as [[[[name pw] gidf] users]|] eqn:Ep.
  - pose proof Ep as Ep'. apply parse_record_Some in Ep' as (E & Hn & Hp & Hg).
    unfold parse_record in Ep.
    destruct (after COLON body) as [p1|] eqn:E1; [|discriminate].
    destruct (after COLON p1) as [p2|] eqn:E2; [|discriminate].
    destruct (after COLON p2) as [p3|] eqn:E3; [|discriminate].
    injection Ep as <- <- <- <-.
    assert (Hcut : cut_at p2 (COLON :: p3) = before COLON p2).
    { unfold cut_at. rewrite (before_after _ _ _ E3) at 1 2.
      apply firstn_prefix_len. rewrite !length_app. simpl. lia. }
    rewrite Hcut. fold (gid_of_field (before COLON p2)).
    destruct (find_gid gids (gid_of_field (before COLON p2))); [|reflexivity].
    destruct (has_user p3 ROOT); simpl; [reflexivity|].
    f_equal.
    set (a := before COLON body) in *. set (b := before COLON p1) in *.
    set (c := before COLON p2) in *.
    assert (Hhead : firstn (length body - length p3 - 1) body =
                    a ++ [COLON] ++ b ++ [COLON] ++ c).
    { assert (E' : body = (a ++ [COLON] ++ b ++ [COLON] ++ c) ++ COLON :: p3).
      { rewrite E at 1. rewrite <- !app_assoc. reflexivity. }
      rewrite E' at 1 2. apply firstn_prefix_len. rewrite !length_app. simpl. lia. }
    rewrite Hhead. unfold record_line, add_root.
    destruct p3 as [|u us]; simpl; rewrite <- !app_assoc; simpl;
      rewrite <- ?app_assoc; simpl; rewrite <- ?app_assoc; reflexivity.
  - unfold parse_record in Ep.
    destruct (after COLON body) as [p1|] eqn:E1; [|reflexivity].
    destruct (after COLON p1) as [p2|] eqn:E2; [|reflexivity].
    destruct (after COLON p2) as [p3|] eqn:E3; [discriminate|reflexivity].
Qed.


(** *** Whole-word membership *)

Lemma before_eq_starts sep u p :
  Forall (fun c => c <> sep) u ->
  before sep p = u <->
  starts_with u p = true /\
  match skipn (length u) p with [] => True | d :: _ => d = sep end.
Proof.
  intros Hu. revert p. induction Hu as [|a u Ha _ IH]; intros p.
  - simpl. destruct p as [|c r]; simpl; [tauto|].
    destruct (Ascii.eqb_spec c sep); split; intros H;
      try tauto; try discriminate; destruct H; contradiction.
  - destruct p as [|b r]; simpl.
    + split; [discriminate | intros [H _]; discriminate].
    + destruct (Ascii.eqb_spec b sep) as [->|Hb].
      * split; [discriminate|]. intros [H _].
        destruct (Ascii.eqb_spec a sep); [contradiction | discriminate].
      * rewrite andb_true_iff. specialize (IH r).
        destruct (Ascii.eqb_spec a b) as [->|Hab]; split.
        -- intros H; injection H as H. apply IH in H. tauto.
        -- intros [[_ H1] H2]. f_equal. apply IH. tauto.
        -- intros H; injection H as -> _. contradiction.
        -- intros [[H _] _]. discriminate.
Qed.

Lemma root_plain : Forall (fun c => c <> COMMA) ROOT.
Proof. repeat constructor; discriminate. Qed.

Lemma has_user_from_member p prev :
  has_user_from ROOT p prev = true <->
  if boundary prev then In ROOT (split_on COMMA p)
  else In ROOT (tl (split_on COMMA p)).
Proof.
  revert prev. induction p as [|c p' IH]; intros prev.
  - simpl. destruct (boundary prev); simpl; split; try tauto; try discriminate.
    intros [H|[]]. discriminate.
  - specialize (IH (Some c)). cbn [boundary] in IH.
    pose proof (before_eq_starts COMMA ROOT (c :: p') root_plain) as Hb.
    pose proof (split_on_unfold COMMA (c :: p')) as Hs.
    cbn [has_user_from].
    assert (Hbd : (match prev with None => true | Some _ => false end
                   || match prev with Some d => Ascii.eqb d COMMA | None => false end)
                  = boundary prev) by (destruct prev; reflexivity).
    rewrite Hbd. clear Hbd.
    assert (Hnext : match skipn (length ROOT) (c :: p') with
                    | [] => true | d :: _ => Ascii.eqb d COMMA end = true <->
                    match skipn (length ROOT) (c :: p') with
                    | [] => True | d :: _ => d = COMMA end).
    { destruct (skipn (length ROOT) (c :: p')) as [|d q]; [tauto|].
      apply Ascii.eqb_eq. }
    rewrite Hs. cbn [after before] in *.
    destruct (Ascii.eqb_spec c COMMA) as [->|Hc].
    + (* a comma: no match starts here, and the next position is a boundary *)
      change (starts_with ROOT (COMMA :: p')) with false. cbn iota.
      rewrite IH. destruct (boundary prev); simpl; [|tauto].
      split; [auto|]. intros [H|H]; [discriminate|exact H].
    + rewrite (split_on_unfold COMMA p') in IH. cbn [tl] in IH.
      destruct (starts_with ROOT (c :: p')) eqn:Est.
      * destruct (boundary prev) eqn:Ebd; cbn [andb].
        -- destruct (match skipn (length ROOT) (c :: p') with
                     | [] => true | d :: _ => Ascii.eqb d COMMA end) eqn:En.
           ++ split; [intros _|reflexivity]. left.
              apply Hb. split; [reflexivity|]. now apply Hnext.
           ++ rewrite IH. cbn [tl In]. split; [auto|].
              intros [H|H]; [|exact H].
              apply Hb in H as [_ H]. apply Hnext in H. congruence.
        -- rewrite IH. reflexivity.
      * rewrite IH. destruct (boundary prev); cbn [tl In]; [|reflexivity].
        split; [auto|]. intros [H|H]; [|exact H].
        apply Hb in H as [H _]. discriminate.
Qed.

(** [has_user] decides whole-word membership of root. *)
Lemma has_user_member users :
  has_user users ROOT = true <-> member ROOT users.
Proof. unfold has_user, member. apply (has_user_from_member users None). Qed.

(** *** The found array and the appended records *)

Lemma fold_mark_keeps idxs (found : list bool) j :
  found !! j = Some false -> ~ In (Some j) idxs ->
  fold_left mark idxs found !! j = Some false.
Proof.
  revert found. induction idxs as [|o idxs IH]; intros found Hf Hn; simpl; [exact Hf|].
  apply IH; [|intros H; apply Hn; now right].
  destruct o as [i|]; simpl; [|exact Hf].
  rewrite list_lookup_insert_ne; [exact Hf|].
  intros ->. apply Hn. now left.
Qed.

Lemma missing_In gids (found : list bool) j g :
  gids !! j = Some g -> found !! j = Some false -> In g (missing gids found).
Proof.
  revert found j. induction gids as [|g0 gs IH]; intros found j Hg Hf; [discriminate|].
  destruct found as [|f fs]; [discriminate|].
  destruct j as [|j]; simpl in *.
  - injection Hg as ->. injection Hf as ->. now left.
  - destruct f; [|right]; eapply IH; eauto.
Qed.

Lemma find_gid_Some gids x j : find_gid gids x = Some j -> gids !! j = Some x.
Proof.
  revert j. induction gids as [|g gs IH]; intros j; simpl; [discriminate|].
  destruct (Z.eqb_spec g x) as [->|Hne].
  - intros H; injection H as <-. reflexivity.
  - destruct (find_gid gs x) as [i|]; [|discriminate].
    intros H; injection H as <-. simpl. now apply IH.
Qed.

Lemma find_gid_None gids x : find_gid gids x = None <-> ~ In x gids.
Proof.
  induction gids as [|g gs IH]; simpl; [tauto|].
  destruct (Z.eqb_spec g x) as [->|Hne].
  - split; [discriminate|]. intros H; exfalso; apply H; now left.
  - destruct (find_gid gs x) as [i|].
    + split; [discriminate|]. intros H. exfalso.
      assert (Some i = None) as Hd by (apply IH; tauto). discriminate.
    + split; [|reflexivity]. intros _ [H|H]; [contradiction|].
      now apply IH in H.
Qed.


(** *** The run as a whole *)

Lemma lookup_map {A B} (f : A -> B) (l : list A) i :
  map f l !! i = option_map f (l !! i).
Proof.
  revert i. induction l as [|x l IH]; intros [|i]; simpl; auto.
Qed.

Lemma setup_gpu_groups_run gids fs content :
  gids <> [] -> fs !! group_path = Some content ->
  exists st1,
    scan_loop (S (length content)) gids content (scan_start gids) = Some st1 /\
    let st2 := append_missing gids (found_gids st1) st1 in
    setup_gpu_groups no_faults gids fs =
    {| ret := 0;
       files := if (0 <? modified_count st2)%nat
                then <[group_path := concat (fout st2)]>
                       (delete tmp_path (<[tmp_path := concat (fout st2)]> fs))
                else delete tmp_path (<[tmp_path := concat (fout st2)]> fs);
       calls := if (0 <? modified_count st2)%nat
                then [Rename tmp_path group_path] else [Unlink tmp_path] |}.
Proof.
  intros Hg Hf.
  destruct (scan_loop_total gids (S (length content)) content (scan_start gids))
    as [st1 Hst1]; [lia|].
  exists st1. split; [exact Hst1|].
  unfold setup_gpu_groups. rewrite Hf.
  destruct gids as [|g gs]; [contradiction|].
  replace (Z.of_nat (length (g :: gs)) <=? 0) with false
    by (symmetry; apply Z.leb_gt; simpl length; lia).
  cbn [fopen_read_fails fopen_write_fails calloc_fails rename_fails no_faults].
  fold (scan_start (g :: gs)). rewrite Hst1. cbv zeta.
  destruct (0 <? modified_count (append_missing (g :: gs) (found_gids st1) st1))%nat;
    reflexivity.
Qed.

(** On a readable file the output is one entry per line, then the records
    of the GIDs no line carried. *)
Lemma written_lookup_line gids s i l :
  readable s -> text_lines s !! i = Some l ->
  written gids s !! i = Some (line_text gids l).
Proof.
  intros Hr Hl. rewrite written_readable by exact Hr.
  rewrite lookup_app_l.
  - rewrite lookup_map, Hl. reflexivity.
  - rewrite length_map. eapply lookup_lt_Some; eauto.
Qed.

Lemma written_drop gids s :
  readable s ->
  drop (length (text_lines s)) (written gids s) =
  map gpu_record (missing gids (found_after gids (text_lines s))).
Proof.
  intros Hr. rewrite written_readable by exact Hr.
  rewrite <- (length_map (line_text gids)) at 1. apply drop_app_length.
Qed.

Lemma readable_line s i l :
  readable s -> text_lines s !! i = Some l ->
  exists body eol, l = body ++ eol /\ Forall (fun c => c <> NL) body /\
                   (eol = [] \/ eol = [NL]) /\ (length (body ++ eol) < LINE_SIZE)%nat.
Proof.
  intros [_ Hr] Hl.
  pose proof (text_lines_shape s) as Hs.
  rewrite Forall_lookup in Hs, Hr.
  destruct (Hs _ _ Hl) as (body & eol & -> & Hb & He).
  exists body, eol. repeat split; auto. exact (Hr _ _ Hl).
Qed.

Lemma record_line_body name pw gidf users eol :
  record_line name pw gidf users eol =
  (name ++ [COLON] ++ pw ++ [COLON] ++ gidf ++ [COLON] ++ users) ++ eol.
Proof. unfold record_line. now rewrite <- !app_assoc. Qed.

Lemma plain_sep sep f : plain sep f -> Forall (fun c => c <> sep) f.
Proof. unfold plain. intros H. eapply Forall_impl; [exact H|]. simpl. tauto. Qed.

Lemma plain_nl sep f : plain sep f -> Forall (fun c => c <> NL) f.
Proof. unfold plain. intros H. eapply Forall_impl; [exact H|]. simpl. tauto. Qed.

Lemma record_body_nl name pw gidf users :
  plain COLON name -> plain COLON pw -> plain COLON gidf ->
  Forall (fun c => c <> NL) users ->
  Forall (fun c => c <> NL) (name ++ [COLON] ++ pw ++ [COLON] ++ gidf ++ [COLON] ++ users).
Proof.
  intros Hn Hp Hg Hu.
  assert (Hc : Forall (fun c => c <> NL) [COLON]) by (repeat constructor; discriminate).
  repeat (apply Forall_app; split); eauto using plain_nl.
Qed.

Lemma gid_field_shape body eol :
  Forall (fun c => c <> NL) body -> eol = [] \/ eol = [NL] ->
  gid_field (body ++ eol) =
  match after COLON body with
  | Some p1 =>
      match after COLON p1 with
      | Some p2 => Some (before COLON p2)
      | None => None
      end
  | None => None
  end.
Proof.
  intros Hb He. unfold gid_field. rewrite chomp_shape by assumption.
  apply third_field.
Qed.

Lemma gid_field_parse body eol name pw gidf users :
  Forall (fun c => c <> NL) body -> eol = [] \/ eol = [NL] ->
  parse_record body = Some (name, pw, gidf, users) ->
  gid_field (body ++ eol) = Some gidf.
Proof.
  intros Hb He Hp. rewrite gid_field_shape by assumption.
  unfold parse_record in Hp.
  destruct (after COLON body) as [p1|]; [|discriminate].
  destruct (after COLON p1) as [p2|]; [|discriminate].
  destruct (after COLON p2) as [p3|]; [|discriminate].
  now injection Hp as <- <- <- <-.
Qed.

(** A line that marks index [j] carries the GID [gpu_gids[j]]. *)
Lemma line_idx_gid gids s i l j :
  readable s -> text_lines s !! i = Some l -> line_idx gids l = Some j ->
  exists f, gid_field l = Some f /\ gids !! j = Some (gid_of_field f).
Proof.
  intros Hr Hl Hj.
  destruct (readable_line _ _ _ Hr Hl) as (body & eol & -> & Hb & He & Hlen).
  unfold line_idx in Hj. rewrite line_action_shape in Hj by assumption.
  destruct (parse_record body) as [[[[name pw] gidf] users]|] eqn:Ep; [|discriminate].
  exists gidf. split; [eapply gid_field_parse; eauto|].
  destruct (find_gid gids (gid_of_field gidf)) as [k|] eqn:Ef; [|discriminate].
  apply find_gid_Some in Ef.
  destruct (has_user users ROOT); injection Hj as <-; exact Ef.
Qed.

Lemma record_line_length name pw gidf users eol :
  length (record_line name pw gidf users eol) =
  (length name + length pw + length gidf + length users + length eol + 3)%nat.
Proof. unfold record_line. rewrite !length_app. simpl. lia. Qed.

Lemma add_root_length users : (length users + 4 <= length (add_root users))%nat.
Proof.
  destruct users; simpl; [lia|]. rewrite length_app. simpl. lia.
Qed.

(** A rewritten line is longer than the line it replaces. *)
Lemma line_modified_text gids s i l :
  readable s -> text_lines s !! i = Some l ->
  (line_modified gids l = true <-> line_text gids l <> l).
Proof.
  intros Hr Hl.
  destruct (readable_line _ _ _ Hr Hl) as (body & eol & -> & Hb & He & Hlen).
  unfold line_modified, line_text. rewrite line_action_shape by assumption.
  destruct (parse_record body) as [[[[name pw] gidf] users]|] eqn:Ep;
    [|split; [discriminate | congruence]].
  destruct (find_gid gids (gid_of_field gidf)) as [k|];
    [|split; [discriminate | congruence]].
  destruct (has_user users ROOT); [split; [discriminate | congruence]|].
  split; [intros _ | reflexivity].
  apply parse_record_Some in Ep as (-> & _).
  rewrite <- record_line_body.
  intros H. apply (f_equal (@length ascii)) in H.
  rewrite !record_line_length in H.
  pose proof (add_root_length users).
  destruct He as [-> | ->]; simpl in H; lia.
Qed.


Lemma line_text_no_gids l : line_text [] l = l.
Proof.
  unfold line_text, line_action_of.
  destruct (colon_scan _ 0 None) as [[g|] [u|]]; reflexivity.
Qed.

Lemma filter_pos {A} (p : A -> bool) (l : list A) :
  (0 < length (List.filter p l))%nat <-> exists x, In x l /\ p x = true.
Proof.
  split.
  - destruct (List.filter p l) as [|x r] eqn:E; simpl; [lia|]. intros _.
    exists x. apply filter_In. rewrite E. now left.
  - intros (x & Hx). apply filter_In in Hx.
    destruct (List.filter p l); [destruct Hx | simpl; lia].
Qed.

Lemma concat_text_lines s : concat (text_lines s) = s.
Proof.
  induction s as [|c r IH]; [reflexivity|].
  cbn [text_lines]. destruct (Ascii.eqb c NL).
  - cbn [concat app]. now rewrite IH.
  - destruct (text_lines r) as [|l ls]; cbn [concat app] in *; now rewrite <- IH.
Qed.

Lemma line_text_unmodified gids ls :
  List.filter (line_modified gids) ls = [] -> map (line_text gids) ls = ls.
Proof.
  induction ls as [|l ls IH]; [reflexivity|].
  cbn [List.filter map]. unfold line_modified at 1, line_text at 1.
  destruct (line_action_of gids l); [|discriminate].
  intros H. now rewrite IH.
Qed.

Lemma output_entries_readable gids fs content :
  fs !! group_path = Some content -> readable content ->
  output_entries gids fs content.
Proof.
  intros Hf Hr. unfold output_entries, group_after.
  destruct (decide (gids = [])) as [-> | Hg].
  - change (setup_gpu_groups no_faults [] fs)
      with {| ret := 0; files := fs; calls := ([] : list syscall) |}.
    cbn [files]. rewrite Hf, (written_readable _ _ Hr). cbn [missing map].
    rewrite app_nil_r. f_equal.
    assert (E : map (line_text []) (text_lines content) = text_lines content).
    { clear. induction (text_lines content) as [|l ls IH]; [reflexivity|].
      cbn [map]. now rewrite line_text_no_gids, IH. }
    rewrite E. symmetry. apply concat_text_lines.
  - destruct (setup_gpu_groups_run gids fs content Hg Hf) as (st1 & Hs & Hrun).
    rewrite Hrun. clear Hrun. unfold written. rewrite Hs.
    rewrite scan_loop_lines in Hs by (auto; lia). injection Hs as <-.
    rewrite fold_process, append_missing_eq.
    cbn [fout found_gids modified_count scan_start files].
    fold (found_after gids (text_lines content)).
    set (M := List.filter (line_modified gids) (text_lines content)).
    set (ms := missing gids (found_after gids (text_lines content))).
    destruct (Nat.ltb_spec 0 (0 + length M + length ms)) as [Hpos|Hzero].
    + now rewrite lookup_insert_eq.
    + rewrite lookup_delete_ne, lookup_insert_ne, Hf by discriminate. f_equal.
      destruct M eqn:EM; [|simpl in Hzero; lia].
      destruct ms; [|simpl in Hzero; lia].
      cbn [map app]. rewrite app_nil_r, (line_text_unmodified _ _ EM).
      symmetry. apply concat_text_lines.
Qed.

Lemma renamed_readable gids fs content :
  fs !! group_path = Some content -> readable content ->
  renamed gids fs <->
  (exists i l, text_lines content !! i = Some l /\ written gids content !! i <> Some l) \/
  drop (length (text_lines content)) (written gids content) <> [].
Proof.
  intros Hf Hr. rewrite (written_drop _ _ Hr).
  assert (Hmod : (exists i l, text_lines content !! i = Some l /\
                              written gids content !! i <> Some l) <->
                 exists l, In l (text_lines content) /\ line_modified gids l = true).
  { split.
    - intros (i & l & Hl & Hw). exists l. split.
      + apply list_elem_of_In. eapply list_elem_of_lookup_2; eauto.
      + apply (line_modified_text gids _ _ _ Hr Hl).
        intros E. apply Hw. rewrite (written_lookup_line _ _ _ _ Hr Hl). now f_equal.
    - intros (l & Hin & Hm). apply list_elem_of_In, list_elem_of_lookup_1 in Hin as [i Hl].
      exists i, l. split; [exact Hl|].
      rewrite (written_lookup_line _ _ _ _ Hr Hl). intros E. injection E as E.
      now apply (line_modified_text gids _ _ _ Hr Hl) in Hm. }
  rewrite Hmod. clear Hmod. unfold renamed.
  destruct (decide (gids = [])) as [-> | Hg].
  - unfold setup_gpu_groups. simpl. split; [intros []|].
    intros [(l & _ & Hm) | H]; [|now apply H].
    unfold line_modified, line_action_of in Hm.
    destruct (colon_scan _ 0 None) as [[g|] [u|]]; discriminate.
  - destruct (setup_gpu_groups_run gids fs content Hg Hf) as (st1 & Hs & Hrun).
    rewrite scan_loop_lines in Hs by (auto; lia). injection Hs as <-.
    rewrite Hrun. clear Hrun. rewrite fold_process, append_missing_eq.
    cbn [fout found_gids modified_count scan_start calls].
    fold (found_after gids (text_lines content)).
    set (M := length (List.filter (line_modified gids) (text_lines content))).
    set (ms := missing gids (found_after gids (text_lines content))).
    rewrite <- filter_pos. fold M.
    destruct (Nat.ltb_spec 0 (0 + M + length ms)) as [Hpos|Hzero].
    + split; [intros _ | intros _; now left].
      destruct (Nat.eq_dec M 0%nat) as [HM|HM]; [right | left; lia].
      destruct ms; [simpl in Hpos; lia | discriminate].
    + split; [intros [H|[]]; discriminate|].
      intros [H | H]; [lia|]. destruct ms; [now elim H | simpl in Hzero; lia].
Qed.

Lemma gpu_record_decimal g : 0 <= g < 2 ^ 31 -> gpu_record g = group_record g.
Proof.
  intros Hg. unfold gpu_record, group_record, decimal, fmt_d, to_int.
  rewrite Z.mod_small by lia.
  replace (g + 2 ^ 31 - 2 ^ 31) with g by lia.
  destruct (Z.ltb_spec g 0); [lia | reflexivity].
Qed.

(** *** Decimal digits *)

Lemma digit_cases d : 0 <= d < 10 ->
  d = 0 \/ d = 1 \/ d = 2 \/ d = 3 \/ d = 4 \/ d = 5 \/ d = 6 \/ d = 7 \/ d = 8 \/ d = 9.
Proof. lia. Qed.

Lemma digit_val_char d : 0 <= d < 10 -> digit_val (digit_char d) = Some d.
Proof.
  intros H. apply digit_cases in H.
  repeat (destruct H as [-> | H]; [reflexivity|]). subst. reflexivity.
Qed.

Lemma digit_not c x :
  is_digit c -> digit_val x = None -> c <> x.
Proof.
  intros (d & Hd & ->) Hx E. rewrite <- E, digit_val_char in Hx by exact Hd. discriminate.
Qed.

Lemma dec_digits_S fuel n acc :
  dec_digits (S fuel) n acc =
  if n / 10 =? 0 then digit_char (n mod 10) :: acc
  else dec_digits fuel (n / 10) (digit_char (n mod 10) :: acc).
Proof. reflexivity. Qed.

Lemma dec_digits_Forall (P : ascii -> Prop) fuel n acc :
  (forall c, is_digit c -> P c) -> 0 <= n -> Forall P acc ->
  Forall P (dec_digits fuel n acc).
Proof.
  intros HP. revert n acc. induction fuel as [|fuel IH]; intros n acc Hn Hacc; [exact Hacc|].
  rewrite dec_digits_S.
  assert (Hd : P (digit_char (n mod 10))).
  { apply HP. exists (n mod 10). split; [|reflexivity]. apply Z.mod_pos_bound. lia. }
  destruct (n / 10 =? 0).
  - now constructor.
  - apply IH; [apply Z.div_pos; lia | now constructor].
Qed.

Lemma dec_digits_length fuel n acc :
  (length (dec_digits fuel n acc) <= fuel + length acc)%nat.
Proof.
  revert n acc. induction fuel as [|fuel IH]; intros n acc; [simpl; lia|].
  rewrite dec_digits_S. destruct (n / 10 =? 0); [simpl; lia|].
  specialize (IH (n / 10) (digit_char (n mod 10) :: acc)). simpl in IH. lia.
Qed.

Lemma dec_digits_head fuel n acc :
  0 <= n -> exists c rest, is_digit c /\ dec_digits (S fuel) n acc = c :: rest.
Proof.
  revert n acc. induction fuel as [|fuel IH]; intros n acc Hn.
  - rewrite dec_digits_S. exists (digit_char (n mod 10)).
    destruct (n / 10 =? 0); eexists; (split; [|reflexivity]);
      exists (n mod 10); (split; [apply Z.mod_pos_bound; lia | reflexivity]).
  - rewrite dec_digits_S. destruct (n / 10 =? 0).
    + exists (digit_char (n mod 10)). eexists. split; [|reflexivity].
      exists (n mod 10). split; [apply Z.mod_pos_bound; lia | reflexivity].
    + apply IH. apply Z.div_pos; lia.
Qed.

(** Reading back the digits that were printed. *)
Lemma strtol_dec_digits fuel n acc a :
  0 <= n < 10 ^ Z.of_nat fuel ->
  exists k, 0 <= k /\
    strtol_digits a (dec_digits fuel n acc) = strtol_digits (a * 10 ^ k + n) acc.
Proof.
  revert n acc a. induction fuel as [|fuel IH]; intros n acc a Hn.
  - exists 0. split; [lia|]. simpl in *. f_equal. lia.
  - rewrite dec_digits_S.
    assert (Hm : 0 <= n mod 10 < 10) by (apply Z.mod_pos_bound; lia).
    pose proof (Z.div_mod n 10 ltac:(lia)) as Hdm.
    destruct (Z.eqb_spec (n / 10) 0) as [Hz|Hz].
    + exists 1. split; [lia|]. cbn [strtol_digits]. rewrite digit_val_char by exact Hm.
      f_equal. lia.
    + destruct (IH (n / 10) (digit_char (n mod 10) :: acc) a) as (k & Hk & E).
      { split; [apply Z.div_pos; lia|].
        apply Z.div_lt_upper_bound; [lia|].
        rewrite Nat2Z.inj_succ, Z.pow_succ_r in Hn by lia. lia. }
      exists (k + 1). split; [lia|]. rewrite E. cbn [strtol_digits].
      rewrite digit_val_char by exact Hm. f_equal.
      rewrite Z.pow_add_r by lia. lia.
Qed.

Lemma strtol_dec_digits_0 n :
  0 <= n < 10 ^ 10 -> strtol_digits 0 (dec_digits 10 n []) = n.
Proof.
  intros Hn. destruct (strtol_dec_digits 10 n [] 0) as (k & _ & E); [exact Hn|].
  rewrite E. simpl. reflexivity.
Qed.

Lemma digit_plain c : is_digit c ->
  isspace c = false /\ Ascii.eqb c "-" = false /\ Ascii.eqb c "+" = false /\
  c <> COLON /\ c <> NL /\ c <> NUL /\ c <> COMMA.
Proof.
  intros (d & Hd & ->). apply digit_cases in Hd.
  repeat (destruct Hd as [-> | Hd]; [repeat split; (reflexivity || discriminate)|]).
  subst. repeat split; (reflexivity || discriminate).
Qed.

(** [atoi] reads back what [%d] printed. *)
Lemma atoi_fmt_d v : - 2 ^ 31 <= v < 2 ^ 31 -> atoi (fmt_d v) = v.
Proof.
  intros Hv. unfold atoi, fmt_d.
  assert (Hint : forall x, - 2 ^ 31 <= x < 2 ^ 31 ->
                           to_int (Z.max LONG_MIN (Z.min LONG_MAX x)) = x).
  { intros x Hx. unfold LONG_MIN, LONG_MAX, to_int.
    rewrite Z.min_r, Z.max_r by lia.
    rewrite Z.mod_small by lia. lia. }
  destruct (Z.ltb_spec v 0) as [Hneg|Hpos].
  - unfold strtol. cbn [skip_space]. change (isspace "-") with false. cbn iota.
    change (Ascii.eqb "-" "-") with true. cbn iota.
    rewrite strtol_dec_digits_0 by lia. rewrite Z.opp_involutive. now apply Hint.
  - destruct (dec_digits_head 9 v [] Hpos) as (c & rest & Hc & E).
    pose proof (strtol_dec_digits_0 v ltac:(lia)) as Hd.
    rewrite E in Hd |- *. destruct (digit_plain c Hc) as (H1 & H2 & H3 & _).
    unfold strtol. cbn [skip_space]. rewrite H1, H2, H3, Hd. now apply Hint.
Qed.

Lemma to_int_range g : - 2 ^ 31 <= to_int g < 2 ^ 31.
Proof.
  unfold to_int. pose proof (Z.mod_pos_bound (g + 2 ^ 31) (2 ^ 32) ltac:(lia)). lia.
Qed.

Lemma to_gid_t_to_int g : 0 <= g < 2 ^ 32 -> to_gid_t (to_int g) = g.
Proof.
  intros Hg. unfold to_gid_t, to_int.
  destruct (Z.lt_ge_cases g (2 ^ 31)).
  - rewrite (Z.mod_small (g + 2 ^ 31)) by lia.
    replace (g + 2 ^ 31 - 2 ^ 31) with g by lia. apply Z.mod_small. lia.
  - replace (g + 2 ^ 31) with (g - 2 ^ 31 + 1 * 2 ^ 32) by lia.
    rewrite Z.mod_add by lia. rewrite (Z.mod_small (g - 2 ^ 31)) by lia.
    replace (g - 2 ^ 31 - 2 ^ 31) with (g + (-1) * 2 ^ 32) by lia.
    rewrite Z.mod_add by lia. apply Z.mod_small. lia.
Qed.

Lemma fmt_d_Forall (P : ascii -> Prop) v :
  (forall c, is_digit c -> P c) -> P "-"%char -> Forall P (fmt_d v).
Proof.
  intros HP Hm. unfold fmt_d. destruct (Z.ltb_spec v 0).
  - constructor; [exact Hm|]. apply dec_digits_Forall; [exact HP | lia | constructor].
  - apply dec_digits_Forall; [exact HP | lia | constructor].
Qed.

Lemma fmt_d_length v : (length (fmt_d v) <= 11)%nat.
Proof.
  unfold fmt_d. destruct (v <? 0).
  - pose proof (dec_digits_length 10 (- v) []). simpl in *. lia.
  - pose proof (dec_digits_length 10 v []). simpl in *. lia.
Qed.


(** *** Complete lines *)

Lemma terminated_tail c d r : terminated (c :: d :: r) -> terminated (d :: r).
Proof.
  intros [H | [s' H]]; [discriminate|]. right.
  destruct s' as [|x s']; [discriminate|]. injection H as -> H. now exists s'.
Qed.

Lemma text_lines_complete s : terminated s -> Forall complete (text_lines s).
Proof.
  induction s as [|c r IH]; intros Ht; [constructor|].
  cbn [text_lines]. destruct (Ascii.eqb_spec c NL) as [->|Hc].
  - constructor.
    + exists []. split; [reflexivity | constructor].
    + destruct r; [constructor | apply IH; eapply terminated_tail; eauto].
  - destruct r as [|d r].
    + destruct Ht as [H | [s' H]]; [discriminate|].
      destruct s' as [|x [|y s']]; try discriminate.
      injection H as ->. contradiction.
    + specialize (IH (terminated_tail _ _ _ Ht)).
      destruct (text_lines (d :: r)) as [|l ls] eqn:E.
      * rewrite text_lines_take in E. discriminate.
      * apply Forall_cons in IH as [(body & -> & Hb) Hls].
        constructor; [|exact Hls]. exists (c :: body). split; [reflexivity|].
        now constructor.
Qed.

Lemma text_lines_app_complete body rest :
  Forall (fun c => c <> NL) body ->
  text_lines (body ++ NL :: rest) = (body ++ [NL]) :: text_lines rest.
Proof.
  induction 1 as [|c body Hc _ IH].
  - cbn [app text_lines]. now rewrite Ascii.eqb_refl.
  - cbn [app text_lines]. destruct (Ascii.eqb_spec c NL); [contradiction|].
    now rewrite IH.
Qed.

Lemma text_lines_concat ws : Forall complete ws -> text_lines (concat ws) = ws.
Proof.
  induction 1 as [|w ws (body & -> & Hb) _ IH]; [reflexivity|].
  cbn [concat]. rewrite <- app_assoc. cbn [app].
  rewrite text_lines_app_complete by exact Hb. now rewrite IH.
Qed.

(** *** The entries of a first run, read by a second run *)

Lemma split_on_app sep a b :
  split_on sep (a ++ sep :: b) = split_on sep a ++ split_on sep b.
Proof.
  induction a as [|c a IH]; cbn [app split_on].
  - now rewrite Ascii.eqb_refl.
  - destruct (Ascii.eqb c sep); [now rewrite IH|].
    rewrite IH. rewrite (split_on_unfold sep a). reflexivity.
Qed.

Lemma member_add_root users : member ROOT (add_root users).
Proof.
  unfold member, add_root. destruct users as [|u us].
  - now left.
  - rewrite split_on_app. apply in_or_app. right. now left.
Qed.

Lemma add_root_length_le users : (length (add_root users) <= length users + 5)%nat.
Proof. destruct users; simpl; [lia|]. rewrite length_app. simpl. lia. Qed.

Lemma add_root_Forall (P : ascii -> Prop) users :
  Forall P users -> Forall P (COMMA :: ROOT) -> Forall P (add_root users).
Proof.
  intros Hu Hr. unfold add_root. destruct users; [now apply Forall_cons in Hr|].
  apply Forall_app. split; assumption.
Qed.

Lemma body_length name pw gidf x :
  length (name ++ [COLON] ++ pw ++ [COLON] ++ gidf ++ [COLON] ++ x) =
  (length name + length pw + length gidf + length x + 3)%nat.
Proof. repeat (rewrite length_app || cbn [length]). lia. Qed.

(** What a second run decides for an entry that a first run wrote for a
    line: nothing to modify, and the same index to mark. *)
Lemma line_text_settled gids body :
  Forall (fun c => c <> NL) body -> Forall (fun c => c <> NUL) body ->
  (length (body ++ [NL]) + 5 < LINE_SIZE)%nat ->
  let e := line_text gids (body ++ [NL]) in
  line_modified gids e = false /\ line_idx gids e = line_idx gids (body ++ [NL]) /\
  complete e /\ (length e < LINE_SIZE)%nat /\ Forall (fun c => c <> NUL) e.
Proof.
  intros Hb Hn Hlen. cbv zeta.
  assert (Hl : (length (body ++ [NL]) < LINE_SIZE)%nat) by lia.
  assert (Hself : complete (body ++ [NL]) /\ (length (body ++ [NL]) < LINE_SIZE)%nat /\
                  Forall (fun c => c <> NUL) (body ++ [NL])).
  { split; [now exists body|]. split; [exact Hl|].
    apply Forall_app. split; [exact Hn|]. repeat constructor. discriminate. }
  unfold line_text at 1 2 3 4 5, line_idx at 2, line_modified, line_idx.
  rewrite (line_action_shape gids body [NL]) by auto.
  destruct (parse_record body) as [[[[name pw] gidf] users]|] eqn:Ep.
  2:{ rewrite (line_action_shape gids body [NL]), Ep by auto. tauto. }
  destruct (find_gid gids (gid_of_field gidf)) as [j|] eqn:Ef.
  2:{ rewrite (line_action_shape gids body [NL]), Ep, Ef by auto. tauto. }
  destruct (has_user users ROOT) eqn:Eh.
  { rewrite (line_action_shape gids body [NL]), Ep, Ef, Eh by auto. tauto. }
  apply parse_record_Some in Ep as (-> & Hcn & Hcp & Hcg).
  rewrite !Forall_app in Hb, Hn.
  destruct Hb as (Hbn & _ & Hbp & _ & Hbg & _ & Hbu).
  destruct Hn as (Hnn & _ & Hnp & _ & Hng & _ & Hnu).
  rewrite length_app, body_length in Hlen. cbn [length] in Hlen.
  pose proof (add_root_length_le users) as Hal.
  assert (Hbody : forall P : ascii -> Prop,
             P COLON -> Forall P name -> Forall P pw -> Forall P gidf ->
             Forall P (add_root users) ->
             Forall P (name ++ [COLON] ++ pw ++ [COLON] ++ gidf ++ [COLON] ++ add_root users)).
  { intros P Hc H1 H2 H3 H4. repeat (apply Forall_app; split); auto. }
  assert (Hnl : Forall (fun c => c <> NL) (add_root users))
    by (apply add_root_Forall; [exact Hbu | repeat constructor; discriminate]).
  assert (Hnul : Forall (fun c => c <> NUL) (add_root users))
    by (apply add_root_Forall; [exact Hnu | repeat constructor; discriminate]).
  rewrite record_line_body.
  rewrite (line_action_shape gids _ [NL]).
  - rewrite parse_record_app, Ef by assumption.
    assert (Hm : has_user (add_root users) ROOT = true)
      by (apply has_user_member, member_add_root).
    rewrite Hm. repeat split.
    + eexists. split; [reflexivity|]. apply Hbody; auto; discriminate.
    + rewrite length_app, body_length. cbn [length]. lia.
    + apply Forall_app. split; [|repeat constructor; discriminate].
      apply Hbody; auto; discriminate.
  - apply Hbody; auto; discriminate.
  - now right.
  - rewrite length_app, body_length. cbn [length]. lia.
Qed.


Lemma LINE_SIZE_records : (40 < LINE_SIZE)%nat.
Proof. apply Nat.ltb_lt. vm_compute. reflexivity. Qed.

Lemma gpu_record_line g :
  gpu_record g =
  record_line (s2l "gpu_" ++ fmt_d (to_int g)) (s2l "x") (fmt_d (to_int g)) ROOT [NL].
Proof. unfold gpu_record, record_line. rewrite <- !app_assoc. reflexivity. Qed.

(** What a second run decides for a record a first run appended. *)
Lemma gpu_record_settled gids g :
  In g gids -> 0 <= g < 2 ^ 32 ->
  let e := gpu_record g in
  line_modified gids e = false /\ line_idx gids e = find_gid gids g /\
  complete e /\ (length e < LINE_SIZE)%nat /\ Forall (fun c => c <> NUL) e.
Proof.
  intros Hin Hg. cbv zeta. rewrite gpu_record_line, record_line_body.
  set (D := fmt_d (to_int g)).
  assert (HD : forall P : ascii -> Prop,
             (forall c, is_digit c -> P c) -> P "-"%char -> Forall P D)
    by (intros P; apply fmt_d_Forall).
  assert (Hbody : forall P : ascii -> Prop,
             (forall c, is_digit c -> P c) -> P "-"%char ->
             Forall P (s2l "gpu_:xroot") ->
             Forall P ((s2l "gpu_" ++ D) ++ [COLON] ++ s2l "x" ++ [COLON] ++ D ++ [COLON] ++ ROOT)).
  { intros P Hd Hm Hs.
    repeat (apply Forall_cons in Hs as [? Hs]).
    repeat (apply Forall_app; split); auto; repeat constructor; auto. }
  assert (Hnl : Forall (fun c => c <> NL)
                  ((s2l "gpu_" ++ D) ++ [COLON] ++ s2l "x" ++ [COLON] ++ D ++ [COLON] ++ ROOT)).
  { apply Hbody; [intros c Hc; apply (digit_plain c Hc) | discriminate |].
    repeat constructor; discriminate. }
  assert (Hnul : Forall (fun c => c <> NUL)
                  ((s2l "gpu_" ++ D) ++ [COLON] ++ s2l "x" ++ [COLON] ++ D ++ [COLON] ++ ROOT)).
  { apply Hbody; [intros c Hc; apply (digit_plain c Hc) | discriminate |].
    repeat constructor; discriminate. }
  assert (Hlen : (length (((s2l "gpu_" ++ D) ++ [COLON] ++ s2l "x" ++ [COLON] ++ D ++
                            [COLON] ++ ROOT) ++ [NL]) < LINE_SIZE)%nat).
  { rewrite length_app, body_length, length_app. cbn [length s2l list_ascii_of_string ROOT].
    pose proof (fmt_d_length (to_int g)). fold D in H.
    pose proof LINE_SIZE_records. lia. }
  unfold line_modified, line_idx.
  rewrite (line_action_shape gids _ [NL]) by auto.
  rewrite parse_record_app.
  2:{ apply Forall_app. split; [repeat constructor; discriminate|].
      apply HD; [intros c Hc; apply (digit_plain c Hc) | discriminate]. }
  2:{ repeat constructor; discriminate. }
  2:{ apply HD; [intros c Hc; apply (digit_plain c Hc) | discriminate]. }
  assert (Hgid : gid_of_field D = g).
  { unfold gid_of_field, D. rewrite atoi_fmt_d by apply to_int_range.
    now apply to_gid_t_to_int. }
  rewrite Hgid.
  destruct (find_gid gids g) as [j|] eqn:Ef.
  2:{ apply find_gid_None in Ef. contradiction. }
  change (has_user ROOT ROOT) with true. cbn iota.
  repeat split; auto.
  - eexists. split; [reflexivity | exact Hnl].
  - apply Forall_app. split; [exact Hnul | repeat constructor; discriminate].
Qed.

(** *** The found array of the second run *)

Lemma fold_mark_length idxs (found : list bool) :
  length (fold_left mark idxs found) = length found.
Proof.
  revert found. induction idxs as [|o idxs IH]; intros found; [reflexivity|].
  cbn [fold_left]. rewrite IH. destruct o; cbn [mark]; [apply length_insert | reflexivity].
Qed.

Lemma fold_mark_mono idxs (found : list bool) j :
  found !! j = Some true -> fold_left mark idxs found !! j = Some true.
Proof.
  revert found. induction idxs as [|o idxs IH]; intros found Hf; [exact Hf|].
  cbn [fold_left]. apply IH. destruct o as [i|]; cbn [mark]; [|exact Hf].
  destruct (decide (i = j)) as [->|Hne].
  - apply list_lookup_insert_eq. eapply lookup_lt_Some; eauto.
  - now rewrite list_lookup_insert_ne.
Qed.

Lemma fold_mark_sets idxs (found : list bool) j :
  In (Some j) idxs -> (j < length found)%nat ->
  fold_left mark idxs found !! j = Some true.
Proof.
  revert found. induction idxs as [|o idxs IH]; intros found Hin Hj; [destruct Hin|].
  cbn [fold_left]. destruct Hin as [-> | Hin].
  - apply fold_mark_mono. cbn [mark]. now apply list_lookup_insert_eq.
  - apply IH; [exact Hin|]. destruct o; cbn [mark]; [now rewrite length_insert | exact Hj].
Qed.

Lemma missing_nil gids (found : list bool) :
  (forall j, (j < length gids)%nat -> found !! j = Some true) ->
  missing gids found = [].
Proof.
  revert found. induction gids as [|g gs IH]; intros found H; [reflexivity|].
  destruct found as [|f fs].
  - specialize (H 0%nat ltac:(simpl; lia)). discriminate.
  - pose proof (H 0%nat ltac:(simpl; lia)) as H0. injection H0 as ->.
    cbn [missing]. apply IH. intros j Hj. apply (H (S j)). simpl. lia.
Qed.

Lemma find_gid_NoDup gids j g :
  NoDup gids -> gids !! j = Some g -> find_gid gids g = Some j.
Proof.
  intros Hnd. revert j. induction Hnd as [|g0 gs Hg0 Hnd IH]; intros j Hj; [discriminate|].
  destruct j as [|j]; cbn in Hj |- *.
  - injection Hj as ->. now rewrite Z.eqb_refl.
  - destruct (Z.eqb_spec g0 g) as [->|Hne].
    + exfalso. apply Hg0. eapply list_elem_of_lookup_2; eauto.
    + now rewrite (IH _ Hj).
Qed.

Lemma missing_In_inv gids (found : list bool) g :
  In g (missing gids found) -> In g gids.
Proof.
  revert found. induction gids as [|g0 gs IH]; intros found H; [destruct H|].
  destruct found as [|f fs]; [destruct H|]. cbn [missing] in H.
  destruct f; [right; eauto|]. destruct H as [-> | H]; [now left | right; eauto].
Qed.


(** *** Two runs *)

Lemma setup_gpu_groups_readable gids fs content :
  gids <> [] -> fs !! group_path = Some content -> readable content ->
  setup_gpu_groups no_faults gids fs =
  let w := written gids content in
  let m := (0 <? length (List.filter (line_modified gids) (text_lines content)) +
                 length (missing gids (found_after gids (text_lines content))))%nat in
  {| ret := 0;
     files := if m then <[group_path := concat w]>
                          (delete tmp_path (<[tmp_path := concat w]> fs))
              else delete tmp_path (<[tmp_path := concat w]> fs);
     calls := if m then [Rename tmp_path group_path] else [Unlink tmp_path] |}.
Proof.
  intros Hg Hf Hr.
  destruct (setup_gpu_groups_run gids fs content Hg Hf) as (st1 & Hs & Hrun).
  rewrite Hrun. clear Hrun. cbv zeta. unfold written. rewrite Hs.
  rewrite scan_loop_lines in Hs by (auto; lia). injection Hs as <-.
  rewrite fold_process, append_missing_eq.
  cbn [fout found_gids modified_count scan_start].
  fold (found_after gids (text_lines content)).
  rewrite Nat.add_0_l. reflexivity.
Qed.

Lemma filter_none {A} (p : A -> bool) l :
  Forall (fun x => p x = false) l -> List.filter p l = [].
Proof.
  induction 1 as [|x l Hx _ IH]; [reflexivity|]. cbn [List.filter]. now rewrite Hx.
Qed.

Lemma well_formed_lines content :
  well_formed_group content ->
  Forall (fun l => exists body,
              l = body ++ [NL] /\ Forall (fun c => c <> NL) body /\
              Forall (fun c => c <> NUL) body /\
              (length (body ++ [NL]) + 5 < LINE_SIZE)%nat) (text_lines content).
Proof.
  intros (Hn & Ht & Hl).
  pose proof (text_lines_complete content Ht) as Hc.
  rewrite <- (concat_text_lines content) in Hn. rewrite Forall_concat in Hn.
  rewrite Forall_forall in *. intros l Hin.
  destruct (Hc l Hin) as (body & -> & Hb). exists body.
  specialize (Hn _ Hin). apply Forall_app in Hn as [Hn _].
  repeat split; auto.
Qed.

Lemma well_formed_readable content : well_formed_group content -> readable content.
Proof.
  intros (Hn & _ & Hl). split; [exact Hn|].
  eapply Forall_impl; [exact Hl|]. cbv beta. intros l H. lia.
Qed.

(** The entries of a first run are lines a second run leaves alone, and
    they carry every probed GID. *)
Lemma entries_settled gids content :
  NoDup gids -> Forall (fun g => 0 <= g < 2 ^ 32) gids -> well_formed_group content ->
  let w := written gids content in
  Forall (settled gids) w /\ missing gids (found_after gids w) = [].
Proof.
  intros Hnd Hrange Hwf. cbv zeta.
  pose proof (well_formed_readable _ Hwf) as Hr.
  pose proof (well_formed_lines _ Hwf) as Hlines.
  rewrite (written_readable _ _ Hr).
  set (lines := text_lines content) in *.
  set (ms := missing gids (found_after gids lines)).
  assert (Hms : forall g, In g ms -> In g gids /\ 0 <= g < 2 ^ 32).
  { intros g Hg. apply missing_In_inv in Hg. split; [exact Hg|].
    rewrite Forall_forall in Hrange. apply Hrange. now apply list_elem_of_In. }
  split.
  - apply Forall_app. split.
    + apply Forall_forall. intros e He. apply list_elem_of_In, in_map_iff in He as (l & <- & Hl).
      rewrite Forall_forall in Hlines.
      destruct (Hlines l (proj2 (list_elem_of_In _ _) Hl)) as (body & -> & Hb & Hn & Hlen).
      destruct (line_text_settled gids body Hb Hn Hlen) as (H1 & _ & H3 & H4 & H5).
      repeat split; assumption.
    + apply Forall_forall. intros e He. apply list_elem_of_In, in_map_iff in He as (g & <- & Hg).
      destruct (Hms g Hg) as [Hin Hg32].
      destruct (gpu_record_settled gids g Hin Hg32) as (H1 & _ & H3 & H4 & H5).
      repeat split; assumption.
  - apply missing_nil. intros j Hj.
    destruct (lookup_lt_is_Some_2 gids j Hj) as [g Hgj].
    unfold found_after at 1. apply fold_mark_sets; [|now rewrite length_replicate].
    rewrite map_app. apply in_or_app.
    destruct (decide (Some j ∈ map (line_idx gids) lines)) as [Hyes|Hno].
    + left. apply list_elem_of_In, in_map_iff in Hyes as (l & Hidx & Hl).
      rewrite map_map. apply in_map_iff. exists l. split; [|exact Hl].
      rewrite Forall_forall in Hlines.
      destruct (Hlines l (proj2 (list_elem_of_In _ _) Hl)) as (body & -> & Hb & Hn & Hlen).
      destruct (line_text_settled gids body Hb Hn Hlen) as (_ & H2 & _).
      now rewrite H2.
    + right. rewrite map_map. apply in_map_iff. exists g.
      assert (Hg : In g ms).
      { eapply missing_In; [exact Hgj|]. unfold found_after.
        apply fold_mark_keeps; [now apply lookup_replicate_2|].
        intros H. apply Hno. now apply list_elem_of_In. }
      split; [|exact Hg]. destruct (Hms g Hg) as [Hin Hg32].
      destruct (gpu_record_settled gids g Hin Hg32) as (_ & H2 & _).
      rewrite H2. now apply find_gid_NoDup.
Qed.

(** X5.  On a well-formed /etc/group (no NUL byte, empty or ending in a newline,
    every line short enough to take [,root] and still fit the buffer) and
    for distinct probed GIDs, a second run leaves the files as the first run
    did and does not rename. *)
Theorem gpu_groups_idempotent gids fs content :
  fs !! group_path = Some content ->
  NoDup gids -> Forall (fun g => 0 <= g < 2 ^ 32) gids ->
  well_formed_group content ->
  second_run_idle gids fs.
Proof.
  intros Hf Hnd Hrange Hwf. unfold second_run_idle, renamed. cbv zeta.
  destruct (decide (gids = [])) as [-> | Hg].
  { change (setup_gpu_groups no_faults [] fs)
      with {| ret := 0; files := fs; calls := ([] : list syscall) |}.
    cbn [files].
    change (setup_gpu_groups no_faults [] fs)
      with {| ret := 0; files := fs; calls := ([] : list syscall) |}.
    split; [reflexivity | intros []]. }
  pose proof (well_formed_readable _ Hwf) as Hr.
  destruct (entries_settled gids content Hnd Hrange Hwf) as [Hset Hmiss].
  assert (Hidle : forall fs1 content1,
             fs1 !! group_path = Some content1 -> fs1 !! tmp_path = None ->
             readable content1 ->
             List.filter (line_modified gids) (text_lines content1) = [] ->
             missing gids (found_after gids (text_lines content1)) = [] ->
             files (setup_gpu_groups no_faults gids fs1) = fs1 /\
             ~ In (Rename tmp_path group_path) (calls (setup_gpu_groups no_faults gids fs1))).
  { intros fs1 content1 H1 H2 H3 H4 H5.
    rewrite (setup_gpu_groups_readable gids fs1 content1 Hg H1 H3). cbv zeta.
    rewrite H4, H5. cbn [length Nat.add Nat.ltb Nat.leb files calls]. split.
    - rewrite delete_insert_eq. now apply delete_id.
    - intros [H|[]]. discriminate. }
  rewrite (setup_gpu_groups_readable gids fs content Hg Hf Hr). cbv zeta.
  set (w := written gids content) in *.
  destruct (0 <? _)%nat eqn:Em; cbn [files].
  - (* the first run renamed: the second reads its entries *)
    assert (Hc : Forall complete w).
    { eapply Forall_impl; [exact Hset|]. intros e (_ & H & _). exact H. }
    apply (Hidle _ (concat w)).
    + apply lookup_insert_eq.
    + rewrite lookup_insert_ne by discriminate. apply lookup_delete_eq.
    + split.
      * apply Forall_concat. eapply Forall_impl; [exact Hset|].
        intros e (_ & _ & _ & H). exact H.
      * rewrite (text_lines_concat _ Hc). eapply Forall_impl; [exact Hset|].
        intros e (_ & _ & H & _). exact H.
    + rewrite (text_lines_concat _ Hc). apply filter_none.
      eapply Forall_impl; [exact Hset|]. intros e (H & _). exact H.
    + rewrite (text_lines_concat _ Hc). exact Hmiss.
  - (* the first run changed nothing: the second reads the same file *)
    apply Nat.ltb_ge in Em.
    apply (Hidle _ content).
    + now rewrite lookup_delete_ne, lookup_insert_ne by discriminate.
    + apply lookup_delete_eq.
    + exact Hr.
    + destruct (List.filter (line_modified gids) (text_lines content));
        [reflexivity | simpl in Em; lia].
    + destruct (missing gids (found_after gids (text_lines content)));
        [reflexivity|]. simpl in Em. lia.
Qed.

Lemma small_group_well_formed : well_formed_group small_group.
Proof.
  split; [|split].
  - repeat (constructor; [discriminate|]). constructor.
  - right. exists (s2l "video:x:44:" ++ [NL] ++ s2l "audio:x:29:pulse").
    vm_compute. reflexivity.
  - repeat (constructor; [apply Nat.ltb_lt; vm_compute; reflexivity|]). constructor.
Defined.

Lemma gpu_groups_idempotent_witness :
  second_run_idle [44; 240] {[ group_path := small_group ]}.
Proof.
  apply (gpu_groups_idempotent [44; 240] _ small_group).
  - reflexivity.
  - apply (bool_decide_unpack _). vm_compute. reflexivity.
  - repeat (constructor; [lia|]). constructor.
  - exact small_group_well_formed.
Defined.


(** *** The lines of the output *)

Lemma line_text_complete gids body :
  Forall (fun c => c <> NL) body -> (length (body ++ [NL]) < LINE_SIZE)%nat ->
  complete (line_text gids (body ++ [NL])).
Proof.
  intros Hb Hlen. unfold line_text.
  rewrite (line_action_shape gids body [NL]) by auto.
  destruct (parse_record body) as [[[[name pw] gidf] users]|] eqn:Ep; [|now exists body].
  destruct (find_gid gids (gid_of_field gidf)); [|now exists body].
  destruct (has_user users ROOT); [now exists body|].
  apply parse_record_Some in Ep as (-> & _).
  rewrite record_line_body. eexists. split; [reflexivity|].
  rewrite !Forall_app in Hb |- *.
  destruct Hb as (Hbn & Hc1 & Hbp & Hc2 & Hbg & Hc3 & Hbu).
  repeat split; auto.
  apply add_root_Forall; [exact Hbu | repeat constructor; discriminate].
Qed.

Lemma gpu_record_complete g : complete (gpu_record g).
Proof.
  rewrite gpu_record_line, record_line_body. eexists. split; [reflexivity|].
  assert (HD : Forall (fun c => c <> NL) (fmt_d (to_int g))).
  { apply fmt_d_Forall; [intros c Hc; apply (digit_plain c Hc) | discriminate]. }
  repeat (apply Forall_app; split); auto; repeat constructor; discriminate.
Qed.

(** On a readable file that ends in a newline every entry written is one
    line, so the lines of the output are the entries. *)
Lemma written_complete gids s :
  readable s -> terminated s -> Forall complete (written gids s).
Proof.
  intros Hr Ht. rewrite (written_readable _ _ Hr). apply Forall_app. split.
  - apply Forall_forall. intros e He.
    apply list_elem_of_In, in_map_iff in He as (l & <- & Hl).
    pose proof (text_lines_complete s Ht) as Hc.
    destruct Hr as [_ Hlen]. rewrite Forall_forall in Hc, Hlen.
    apply list_elem_of_In in Hl.
    destruct (Hc l Hl) as (body & -> & Hb).
    apply line_text_complete; [exact Hb | exact (Hlen _ Hl)].
  - apply Forall_forall. intros e He.
    apply list_elem_of_In, in_map_iff in He as (g & <- & _).
    apply gpu_record_complete.
Qed.

Lemma lines_after_written gids fs content :
  fs !! group_path = Some content -> readable content -> terminated content ->
  lines_after gids fs = written gids content.
Proof.
  intros Hf Hr Ht. unfold lines_after.
  rewrite (output_entries_readable gids fs content Hf Hr).
  apply text_lines_concat. now apply written_complete.
Qed.

(** C1, as amended.  On a readable /etc/group (no NUL byte, every line of at
    most 2047 bytes with its newline) that is empty or ends in a newline,
    and for every list of probed GIDs: a line [name:pw:gid:users] (so with a
    third colon) whose GID field, as [atoi] reads it and converted to
    [gid_t], is a probed GID and whose user list lacks root as a whole word
    is, at its place in the file left at /etc/group, the line
    [name:pw:gid:users,root] ([name:pw:gid:root] when the list is empty); a
    probed GID below 2^31 that no line carries in its third field has its
    record [gpu_<g>:x:<g>:root] among the lines after those of the input;
    and the temporary file is renamed onto /etc/group exactly when some
    line was rewritten or some record appended. *)
Theorem gpu_groups_reconciliation gids fs content :
  fs !! group_path = Some content -> readable content -> terminated content ->
  rewrite_rule gids fs content /\
  (forall g, 0 <= g < 2 ^ 31 -> append_for gids fs content g) /\
  rename_rule gids fs content.
Proof.
  intros Hf Hr Ht.
  pose proof (lines_after_written gids fs content Hf Hr Ht) as Hlines.
  split; [|split].
  - intros i g name pw gidf users eol Hl Hn Hp Hg Hu He Hin Hgid Hmem.
    rewrite Hlines, (written_lookup_line _ _ _ _ Hr Hl). f_equal.
    destruct Hr as [_ Hlen]. rewrite Forall_lookup in Hlen.
    specialize (Hlen _ _ Hl). cbv beta in Hlen.
    unfold line_text. rewrite record_line_body in Hlen |- *.
    rewrite line_action_shape by (auto using record_body_nl).
    rewrite parse_record_app by (auto using plain_sep).
    destruct (find_gid gids (gid_of_field gidf)) as [j|] eqn:Ef.
    + destruct (has_user users ROOT) eqn:Eh; [|reflexivity].
      apply has_user_member in Eh. contradiction.
    + apply find_gid_None in Ef. subst g. contradiction.
  - intros g Hsmall Hin Hno. rewrite Hlines, (written_drop _ _ Hr).
    rewrite <- gpu_record_decimal by exact Hsmall.
    apply in_map.
    apply list_elem_of_In, list_elem_of_lookup_1 in Hin as [j Hj].
    eapply missing_In; [exact Hj|]. unfold found_after.
    apply fold_mark_keeps.
    + apply lookup_replicate_2. eapply lookup_lt_Some; eauto.
    + intros Hi. apply in_map_iff in Hi as (l & Hidx & Hl).
      apply list_elem_of_In, list_elem_of_lookup_1 in Hl as [i Hl].
      destruct (line_idx_gid _ _ _ _ _ Hr Hl Hidx) as (f & Hfield & Hgj).
      rewrite Hj in Hgj. injection Hgj as ->.
      eapply Hno; eauto. apply list_elem_of_In. eapply list_elem_of_lookup_2; eauto.
  - unfold rename_rule. rewrite Hlines. now apply renamed_readable.
Qed.

(** C9, as amended.  On a readable /etc/group that is empty or ends in a
    newline, a line without a third colon-separated field, or whose third
    field, as [atoi] reads it and converted to [gid_t], is no probed GID, is
    line [i] of the file left at /etc/group, byte for byte, where it was
    line [i] of the input; and a line of that file that differs from the
    input line of its place replaces a record of a probed GID whose user
    list lacks root. *)
Theorem gpu_groups_frame gids fs content :
  fs !! group_path = Some content -> readable content -> terminated content ->
  frame_rule gids fs content.
Proof.
  intros Hf Hr Ht.
  pose proof (lines_after_written gids fs content Hf Hr Ht) as Hlines.
  split.
  - intros i l Hl Hcond.
    rewrite Hlines, (written_lookup_line _ _ _ _ Hr Hl). f_equal.
    destruct (readable_line _ _ _ Hr Hl) as (body & eol & -> & Hb & He & Hlen).
    unfold line_text. rewrite line_action_shape by assumption.
    destruct (parse_record body) as [[[[name pw] gidf] users]|] eqn:Ep; [|reflexivity].
    rewrite (gid_field_parse _ _ _ _ _ _ Hb He Ep) in Hcond.
    destruct Hcond as [Hnone | (f & Hsome & Hnot)]; [discriminate|].
    injection Hsome as <-. apply find_gid_None in Hnot. now rewrite Hnot.
  - intros i l Hl Hw.
    rewrite Hlines, (written_lookup_line _ _ _ _ Hr Hl) in Hw.
    destruct (readable_line _ _ _ Hr Hl) as (body & eol & -> & Hb & He & Hlen).
    unfold line_text in Hw. rewrite line_action_shape in Hw by assumption.
    destruct (parse_record body) as [[[[name pw] gidf] users]|] eqn:Ep; [|congruence].
    destruct (find_gid gids (gid_of_field gidf)) as [j|] eqn:Ef; [|congruence].
    destruct (has_user users ROOT) eqn:Eh; [congruence|].
    apply parse_record_Some in Ep as (-> & Hn & Hp & Hg).
    exists name, pw, gidf, users, eol.
    rewrite record_line_body. split; [reflexivity|].
    rewrite !Forall_app in Hb. destruct Hb as (Hbn & _ & Hbp & _ & Hbg & _).
    assert (Hpl : forall f, Forall (fun c => c <> COLON) f ->
                            Forall (fun c => c <> NL) f -> plain COLON f).
    { intros f H1 H2. unfold plain. rewrite Forall_forall in *. intros c Hc.
      split; [apply H1 | apply H2]; exact Hc. }
    repeat split; auto.
    + apply find_gid_Some in Ef. apply list_elem_of_In.
      eapply list_elem_of_lookup_2; eauto.
    + intros Hm. apply has_user_member in Hm. congruence.
Qed.

Lemma small_group_readable : readable small_group.
Proof.
  split.
  - vm_compute. repeat (constructor; [discriminate|]). constructor.
  - vm_compute. repeat (constructor; [lia|]). constructor.
Defined.

Lemma small_group_terminated : terminated small_group.
Proof.
  right. exists (s2l "video:x:44:" ++ [NL] ++ s2l "audio:x:29:pulse"). reflexivity.
Defined.

Lemma gpu_groups_reconciliation_witness :
  let fs : gmap string (list ascii) := {[ group_path := small_group ]} in
  fs !! group_path = Some small_group /\
  readable small_group /\ terminated small_group /\
  rewrite_rule [44; 4294967294] fs small_group /\
  (forall g, 0 <= g < 2 ^ 31 -> append_for [44; 4294967294] fs small_group g) /\
  rename_rule [44; 4294967294] fs small_group.
Proof.
  cbv zeta.
  split; [reflexivity|]. split; [exact small_group_readable|].
  split; [exact small_group_terminated|].
  apply gpu_groups_reconciliation;
    [reflexivity | exact small_group_readable | exact small_group_terminated].
Defined.

Lemma gpu_groups_frame_witness :
  ({[ group_path := small_group ]} : gmap string (list ascii)) !! group_path = Some small_group /\
  readable small_group /\ terminated small_group /\
  frame_rule [44; 240] {[ group_path := small_group ]} small_group.
Proof.
  split; [reflexivity|]. split; [exact small_group_readable|].
  split; [exact small_group_terminated|].
  apply gpu_groups_frame;
    [reflexivity | exact small_group_readable | exact small_group_terminated].
Defined.

(* Without these conditions the rules fail: on a record of 2052 bytes, which
   [fgets] hands over in two pieces: root is added after the first 2047
   bytes; on a record with a NUL byte in its user list, written back only
   up to that byte; for GID 4294967294, whose record is printed with [%d]
   of [(int)gid] as [gpu_-2:x:-2:root]; and on the file [a:x:1:] without a
   newline for GID 240, where the record is written straight after the last
   line, so that no line of the output is the record. *)
Lemma gpu_groups_long_record :
  ~ reconciliation [44] {[ group_path := long_record ]} long_record /\
  ~ reconciliation [44] {[ group_path := nul_record ]} nul_record /\
  ~ reconciliation [4294967294] {[ group_path := small_group ]} small_group /\
  ~ reconciliation [240] {[ group_path := unterminated_group ]} unterminated_group.
Proof.
  split; [|split; [|split]].
  - intros (Hrw & _).
    specialize (Hrw 0%nat 44 (s2l "video") (s2l "x") (s2l "44") (replicate 2040 "a"%char) [NL]).
    assert (Hw : lines_after [44] {[ group_path := long_record ]} !! 0%nat =
                 Some (record_line (s2l "video") (s2l "x") (s2l "44")
                         (add_root (replicate 2040 "a"%char)) [NL])).
    { apply Hrw.
      - vm_compute. reflexivity.
      - repeat (constructor; [split; discriminate|]). constructor.
      - repeat (constructor; [split; discriminate|]). constructor.
      - repeat (constructor; [split; discriminate|]). constructor.
      - apply Forall_replicate. discriminate.
      - now right.
      - now left.
      - vm_compute. reflexivity.
      - intros Hm. apply has_user_member in Hm. vm_compute in Hm. discriminate. }
    apply (f_equal (option_map (@length ascii))) in Hw. vm_compute in Hw. discriminate.
  - intros (Hrw & _).
    specialize (Hrw 0%nat 44 (s2l "video") (s2l "x") (s2l "44")
                  (s2l "al" ++ [NUL] ++ s2l "ice") [NL]).
    assert (Hw : lines_after [44] {[ group_path := nul_record ]} !! 0%nat =
                 Some (record_line (s2l "video") (s2l "x") (s2l "44")
                         (add_root (s2l "al" ++ [NUL] ++ s2l "ice")) [NL])).
    { apply Hrw.
      - vm_compute. reflexivity.
      - repeat (constructor; [split; discriminate|]). constructor.
      - repeat (constructor; [split; discriminate|]). constructor.
      - repeat (constructor; [split; discriminate|]). constructor.
      - repeat (constructor; [discriminate|]). constructor.
      - now right.
      - now left.
      - vm_compute. reflexivity.
      - intros Hm. apply has_user_member in Hm. vm_compute in Hm. discriminate. }
    apply (f_equal (option_map (@length ascii))) in Hw. vm_compute in Hw. discriminate.
  - intros (_ & Hap & _).
    specialize (Hap 4294967294 ltac:(now left)).
    assert (Hin : In (group_record 4294967294)
                    (drop (length (text_lines small_group))
                       (lines_after [4294967294] {[ group_path := small_group ]}))).
    { apply Hap. intros l f Hl Hf.
      vm_compute in Hl. destruct Hl as [<- | [<- | []]];
        vm_compute in Hf; injection Hf as <-; vm_compute; discriminate. }
    vm_compute in Hin. destruct Hin as [Hin | []]. discriminate.
  - intros (_ & Hap & _).
    specialize (Hap 240 ltac:(now left)).
    assert (Hin : In (group_record 240)
                    (drop (length (text_lines unterminated_group))
                       (lines_after [240] {[ group_path := unterminated_group ]}))).
    { apply Hap. intros l f Hl Hf.
      vm_compute in Hl. destruct Hl as [<- | []].
      vm_compute in Hf. injection Hf as <-. vm_compute. discriminate. }
    vm_compute in Hin. exact Hin.
Qed.

(* Without these conditions the frame fails: on a line of 2055 bytes of
   GID 1, whose second piece [b:x:44:] is read as a record of GID 44 and
   gets root; on a line with a NUL byte, written back only up to that byte;
   and on the file [a:x:1:] without a newline for GID 240, where line 0 of
   the output is [a:x:1:gpu_240:x:240:root]. *)
Lemma gpu_groups_frame_long_line :
  ~ frame_rule [44] {[ group_path := long_other ]} long_other /\
  ~ frame_rule [44] {[ group_path := nul_line ]} nul_line /\
  ~ frame_rule [240] {[ group_path := unterminated_group ]} unterminated_group.
Proof.
  split; [|split].
  - intros (Hfr & _). specialize (Hfr 0%nat long_other).
    assert (Hw : lines_after [44] {[ group_path := long_other ]} !! 0%nat = Some long_other).
    { apply Hfr.
      - vm_compute. reflexivity.
      - right. exists (s2l "1"). split; [vm_compute; reflexivity|].
        vm_compute. intros [H|[]]. discriminate. }
    apply (f_equal (option_map (@length ascii))) in Hw. vm_compute in Hw. discriminate.
  - intros (Hfr & _). specialize (Hfr 0%nat nul_line).
    assert (Hw : lines_after [44] {[ group_path := nul_line ]} !! 0%nat = Some nul_line).
    { apply Hfr.
      - vm_compute. reflexivity.
      - left. vm_compute. reflexivity. }
    apply (f_equal (option_map (@length ascii))) in Hw. vm_compute in Hw. discriminate.
  - intros (Hfr & _). specialize (Hfr 0%nat unterminated_group).
    assert (Hw : lines_after [240] {[ group_path := unterminated_group ]} !! 0%nat =
                 Some unterminated_group).
    { apply Hfr.
      - vm_compute. reflexivity.
      - right. exists (s2l "1"). split; [vm_compute; reflexivity|].
        vm_compute. intros [H|[]]. discriminate. }
    apply (f_equal (option_map (@length ascii))) in Hw. vm_compute in Hw. discriminate.
Qed.

(** Scenario 2 of the spec: the probe found 240 and 44, /etc/group holds
    only [video:x:44:]. *)
Example android_gpu_scenario :
  group_after [240; 44] {[ group_path := s2l "video:x:44:" ++ [NL] ]} =
  Some (s2l "video:x:44:root" ++ [NL] ++ s2l "gpu_240:x:240:root" ++ [NL]).
Proof. vm_compute. reflexivity. Qed.

Example has_user_whole_word :
  has_user (s2l "alice,root") ROOT = true /\
  has_user (s2l "alice,rooty,xroot") ROOT = false /\
  has_user (s2l "") ROOT = false.
Proof. vm_compute. repeat split; reflexivity. Qed.

(** The empty user name is found at the terminating NUL. *)
Example has_user_empty_name :
  has_user [] [] = true /\ has_user (s2l "a,") [] = true.
Proof. vm_compute. split; reflexivity. Qed.

(** C3.  /etc/group holds the single line [a:x:1:] without a newline and
    the probe found GID 240.  The first run writes the record of 240 straight
    after the unterminated line; the second run reads one line of GID 1,
    finds no line of GID 240, appends the record again and renames again. *)
Theorem gpu_groups_second_run_appends :
  let fs := {[ group_path := unterminated_group ]} in
  let fs1 := files (setup_gpu_groups no_faults [240] fs) in
  let fs2 := files (setup_gpu_groups no_faults [240] fs1) in
  fs1 !! group_path = Some (s2l "a:x:1:gpu_240:x:240:root" ++ [NL]) /\
  fs2 !! group_path =
    Some (s2l "a:x:1:gpu_240:x:240:root" ++ [NL] ++ s2l "gpu_240:x:240:root" ++ [NL]) /\
  renamed [240] fs1 /\
  ~ second_run_idle [240] fs.
Proof.
  cbv zeta. split; [|split; [|split]].
  - vm_compute. reflexivity.
  - vm_compute. reflexivity.
  - vm_compute. now left.
  - intros [_ H]. apply H. vm_compute. now left.
Qed.

End HardwareFacts.

(** ** android_seccomp.c *)
Module SeccompFacts.
Import Seccomp.

Lemma bpf_run_S fuel prog d pc A :
  bpf_run (S fuel) prog d pc A =
  match nth_error prog pc with
  | None => None
  | Some (LD_W_ABS k) =>
      match load_word d k with
      | Some w => bpf_run fuel prog d (S pc) w
      | None => Some 0
      end
  | Some (JEQ_K k jt jf) => bpf_run fuel prog d (S pc + (if A =? k then jt else jf)) A
  | Some (JSET_K k jt jf) =>
      bpf_run fuel prog d (S pc + (if Z.land A k =? 0 then jf else jt)) A
  | Some (JA k) => bpf_run fuel prog d (S pc + k) A
  | Some (RET_K k) => Some k
  end.
Proof. reflexivity. Qed.

Lemma lo32_small x : 0 <= x < 2 ^ 32 -> lo32 x = x.
Proof. intros H. unfold lo32. now apply Z.mod_small. Qed.

Lemma land_lo32 a m : 0 <= m < 2 ^ 32 -> Z.land (lo32 a) m = Z.land a m.
Proof.
  intros Hm. unfold lo32. rewrite <- Z.land_ones by lia.
  rewrite <- Z.land_assoc. f_equal.
  rewrite Z.land_comm, Z.land_ones by lia. now apply Z.mod_small.
Qed.

Lemma load_arch d : load_word d offsetof_arch = Some (lo32 (arch d)).
Proof. reflexivity. Qed.

Lemma load_nr d : load_word d offsetof_nr = Some (lo32 (nr d)).
Proof. reflexivity. Qed.

Lemma load_arg0 d : load_word d (offsetof_args 0) = Some (lo32 (nth 0 (args d) 0)).
Proof. reflexivity. Qed.

Ltac bpf_step :=
  rewrite bpf_run_S; cbn [nth_error filter Nat.add];
  rewrite ?load_arch, ?load_nr, ?load_arg0.

(** The program for given [is_systemd] and [major] classifies as the spec
    lists. *)
Lemma filter_classifies t is_systemd major d :
  valid_data d ->
  seccomp_run (filter t is_systemd major) d = Some (classify t is_systemd major d).
Proof.
  intros (Hnr & Harch & _).
  unfold seccomp_run, classify. cbn [length filter].
  bpf_step. rewrite (lo32_small _ Harch). bpf_step.
  destruct (Z.eqb_spec (arch d) (AUDIT_ARCH t)) as [Ea|Ea]; cbn [negb];
    [|bpf_step; reflexivity].
  bpf_step. rewrite (lo32_small _ Hnr). bpf_step.
  destruct (nr d =? NR_reboot t); [bpf_step; reflexivity|].
  bpf_step.
  destruct (nr d =? NR_keyctl t); [bpf_step; reflexivity|].
  bpf_step.
  destruct (nr d =? NR_add_key t); [bpf_step; reflexivity|].
  bpf_step.
  destruct (nr d =? NR_request_key t); [bpf_step; reflexivity|].
  cbn [orb]. bpf_step.
  destruct (negb (is_systemd =? 0) && (major <? 5)); cbn [andb Nat.add];
    [|bpf_step; reflexivity].
  bpf_step.
  assert (Hmask : Z.land (lo32 (nth 0 (args d) 0)) ns_mask =
                  Z.land (nth 0 (args d) 0) ns_mask)
    by (apply land_lo32; unfold ns_mask; lia).
  destruct (nr d =? NR_unshare t); cbn [orb andb Nat.add].
  - bpf_step. bpf_step. rewrite Hmask.
    destruct (Z.land (nth 0 (args d) 0) ns_mask =? 0); cbn [negb];
      bpf_step; reflexivity.
  - bpf_step.
    destruct (nr d =? NR_clone t); cbn [orb andb Nat.add].
    + bpf_step. bpf_step. rewrite Hmask.
      destruct (Z.land (nth 0 (args d) 0) ns_mask =? 0); cbn [negb];
        bpf_step; reflexivity.
    + bpf_step. reflexivity.
Qed.

(** C2.  After a probe that parsed the release as [major.minor], the
    installed filter returns, first match winning: ALLOW for a foreign
    architecture; TRAP for reboot; ERRNO(ENOSYS) for keyctl, add_key and
    request_key; ERRNO(EPERM) for unshare and clone whose first argument
    meets 0x7E020000, exactly when [is_systemd] is set and [major < 5];
    ALLOW otherwise. *)
Theorem seccomp_classification t major minor is_systemd d :
  valid_data d ->
  seccomp_run (installed_filter t (Some (major, minor)) is_systemd) d =
  Some (classify t is_systemd major d).
Proof.
  intros Hd.
  change (installed_filter t (Some (major, minor)) is_systemd) with (filter t is_systemd major).
  now apply filter_classifies.
Qed.

Lemma valid_call t n a0 :
  0 <= n < 2 ^ 32 -> 0 <= AUDIT_ARCH t < 2 ^ 32 -> 0 <= a0 < 2 ^ 64 ->
  valid_data (call t n a0).
Proof.
  intros Hn Ha H0. unfold valid_data, call. cbn.
  repeat split; try lia. repeat constructor; lia.
Qed.

Lemma seccomp_classification_witness :
  valid_data (call aarch64 (NR_unshare aarch64) CLONE_NEWNS) /\
  seccomp_run (installed_filter aarch64 (Some (4, 14)) 1)
    (call aarch64 (NR_unshare aarch64) CLONE_NEWNS) =
  Some (classify aarch64 1 4 (call aarch64 (NR_unshare aarch64) CLONE_NEWNS)).
Proof.
  assert (H : valid_data (call aarch64 (NR_unshare aarch64) CLONE_NEWNS)).
  { apply valid_call; cbn; unfold CLONE_NEWNS; lia. }
  split; [exact H|]. apply (seccomp_classification aarch64 4 14 1 _ H).
Defined.

(** Scenario 3 of the spec on a 4.14 kernel with a systemd guest. *)
Example legacy_systemd_scenario :
  let run n a0 := seccomp_run (installed_filter aarch64 (Some (4, 14)) 1) (call aarch64 n a0) in
  run (NR_unshare aarch64) CLONE_NEWNS = Some (Z.lor SECCOMP_RET_ERRNO EPERM) /\
  run (NR_unshare aarch64) 0 = Some SECCOMP_RET_ALLOW /\
  run (NR_reboot aarch64) 0 = Some SECCOMP_RET_TRAP /\
  run (NR_keyctl aarch64) 0 = Some (Z.lor SECCOMP_RET_ERRNO ENOSYS).
Proof. vm_compute. repeat split; reflexivity. Qed.



End SeccompFacts.

(** ** android.c and network.c *)
Module NetworkFacts.
Import CLib Config Network.

Lemma read_prop_empty h name :
  prop_empty h name -> read_prop h 64 name [] = [].
Proof.
  unfold prop_empty, read_prop. intros [-> | [-> | ->]]; reflexivity.
Qed.

Lemma nonempty_false s : nonempty s = false -> s = [].
Proof. destruct s; [reflexivity | discriminate]. Qed.

(** The scan takes the first pair whose first property has a value. *)
Theorem dns_discovery_order h :
  dns_scan h 64 props [] [] =
  if nonempty (prop_value h "net.dns1")
  then (prop_value h "net.dns1", prop_value h "net.dns2")
  else if nonempty (prop_value h "net.eth0.dns1")
  then (prop_value h "net.eth0.dns1", prop_value h "net.eth0.dns2")
  else if nonempty (prop_value h "net.wlan0.dns1")
  then (prop_value h "net.wlan0.dns1", prop_value h "net.wlan0.dns2")
  else ([], []).
Proof.
  unfold props, prop_value. cbn [dns_scan nonempty].
  destruct (nonempty (read_prop h 64 "net.dns1" [])) eqn:E1.
  { destruct (read_prop h 64 "net.dns1" []); [discriminate | reflexivity]. }
  rewrite (nonempty_false _ E1). cbn [dns_scan nonempty].
  destruct (nonempty (read_prop h 64 "net.eth0.dns1" [])) eqn:E2.
  { destruct (read_prop h 64 "net.eth0.dns1" []); [discriminate | reflexivity]. }
  rewrite (nonempty_false _ E2). cbn [dns_scan nonempty].
  destruct (nonempty (read_prop h 64 "net.wlan0.dns1" [])) eqn:E3.
  { reflexivity. }
  rewrite (nonempty_false _ E3). reflexivity.
Qed.

Lemma dns_scan_no_props h :
  (forall p, In p props -> prop_empty h p) -> dns_scan h 64 props [] [] = ([], []).
Proof.
  intros H. rewrite dns_discovery_order. unfold prop_value.
  rewrite !read_prop_empty by (apply H; unfold props; simpl; tauto).
  reflexivity.
Qed.

(** The file the run leaves at /etc/resolv.conf is the text of step 3. *)
Lemma resolv_conf_written cfg h fs :
  exists w text, 
    identity_run cfg h fs = w /\
    files w !! "/etc/resolv.conf" = Some text /\
    text =
    let '(dns1, dns2) :=
      if is_android h
      then snd (android_fill_dns_from_props h (s2l "8.8.8.8") (s2l "8.8.4.4") 64)
      else (s2l "8.8.8.8", s2l "8.8.4.4") in
    if nonempty dns2
    then snprintf 256 (s2l "nameserver " ++ dns1 ++ [NL] ++ s2l "nameserver " ++ dns2 ++ [NL])
    else snprintf 256 (s2l "nameserver " ++ dns1 ++ [NL]).
Proof.
  eexists. eexists. split; [reflexivity|]. split; [|reflexivity].
  unfold identity_run, fix_networking_rootfs.
  destruct (if is_android h then _ else _) as [dns1 dns2]. cbn [snd].
  set (w3 := write_file "/etc/resolv.conf" _ _).
  assert (H3 : files w3 !! "/etc/resolv.conf" =
               Some (if nonempty dns2
                     then snprintf 256 (s2l "nameserver " ++ dns1 ++ [NL] ++ s2l "nameserver " ++ dns2 ++ [NL])
                     else snprintf 256 (s2l "nameserver " ++ dns1 ++ [NL]))).
  { unfold w3, write_file. cbn [files]. apply lookup_insert_eq. }
  destruct (is_android h); [|exact H3].
  destruct (files w3 !! "/etc/group"); [|exact H3].
  destruct (negb (grep_file w3 "/etc/group" (s2l "aid_inet"))); [|exact H3].
  unfold append_file. cbn [files]. rewrite lookup_insert_ne by discriminate. exact H3.
Qed.

(** C4.  On an Android host where each of the six properties is absent or
    empty, the scan clears both buffers and finds nothing, its error return
    is ignored, and /etc/resolv.conf is written as the single line
    [nameserver ] with no address: the defaults 8.8.8.8 and 8.8.4.4 are
    lost. *)
Theorem android_without_dns_props cfg h fs :
  is_android h = true ->
  (forall p, In p props -> prop_empty h p) ->
  android_fill_dns_from_props h (s2l "8.8.8.8") (s2l "8.8.4.4") 64 = (-1, ([], [])) /\
  resolv_conf cfg h fs = Some (s2l "nameserver " ++ [NL]).
Proof.
  intros Ha Hp.
  assert (Hfill : android_fill_dns_from_props h (s2l "8.8.8.8") (s2l "8.8.4.4") 64
                  = (-1, ([], []))).
  { unfold android_fill_dns_from_props. rewrite Ha. cbn [negb].
    rewrite (dns_scan_no_props h Hp). reflexivity. }
  split; [exact Hfill|].
  destruct (resolv_conf_written cfg h fs) as (w & text & Hw & Hl & Ht).
  unfold resolv_conf. rewrite Hw, Hl. f_equal. rewrite Ht, Ha, Hfill. reflexivity.
Qed.

Lemma android_no_dns_props_empty p : In p props -> prop_empty android_no_dns p.
Proof. intros _. right. right. reflexivity. Defined.

Lemma android_without_dns_props_witness :
  is_android android_no_dns = true /\
  (forall p, In p props -> prop_empty android_no_dns p) /\
  resolv_conf (config_with_hostname (s2l "box")) android_no_dns ∅ =
  Some (s2l "nameserver " ++ [NL]).
Proof.
  split; [reflexivity|]. split; [exact android_no_dns_props_empty|].
  exact (proj2 (android_without_dns_props (config_with_hostname (s2l "box"))
                  android_no_dns ∅ eq_refl android_no_dns_props_empty)).
Defined.

(** On a generic Linux host the defaults are written (scenario 1). *)
Example linux_resolv_conf :
  resolv_conf (config_with_hostname (s2l "box")) linux_host ∅ =
  Some (s2l "nameserver 8.8.8.8" ++ [NL] ++ s2l "nameserver 8.8.4.4" ++ [NL]).
Proof. vm_compute. reflexivity. Qed.

(** The events of a run. *)
Lemma identity_trace cfg h fs :
  exists resolv tail,
    trace (identity_run cfg h fs) =
    (if nonempty (hostname cfg)
     then [Sethostname (hostname cfg);
           WriteFile "/etc/hostname" (snprintf 128 (hostname cfg ++ [NL]))]
     else []) ++
    [WriteFile "/etc/hosts" (snprintf 1024 (hosts_text (hostname cfg)));
     WriteFile "/etc/resolv.conf" resolv] ++ tail /\
    (tail = [] \/ tail = [AppendFile "/etc/group" aid_groups]).
Proof.
  unfold identity_run, fix_networking_rootfs.
  destruct (if is_android h then _ else _) as [dns1 dns2]. cbn [snd].
  set (w3 := write_file "/etc/resolv.conf" _ _).
  assert (H3 : exists resolv,
             trace w3 =
             (if nonempty (hostname cfg)
              then [Sethostname (hostname cfg);
                    WriteFile "/etc/hostname" (snprintf 128 (hostname cfg ++ [NL]))]
              else []) ++
             [WriteFile "/etc/hosts" (snprintf 1024 (hosts_text (hostname cfg)));
              WriteFile "/etc/resolv.conf" resolv]).
  { eexists. unfold w3, write_file, sethostname. cbn [trace files].
    destruct (nonempty (hostname cfg)); cbn [trace files app]; reflexivity. }
  destruct H3 as [resolv H3]. exists resolv.
  destruct (is_android h); [|exists []; rewrite app_nil_r; auto].
  destruct (files w3 !! "/etc/group"); [|exists []; rewrite app_nil_r; auto].
  destruct (negb (grep_file w3 "/etc/group" (s2l "aid_inet")));
    [|exists []; rewrite app_nil_r; auto].
  exists [AppendFile "/etc/group" aid_groups]. split; [|auto].
  unfold append_file. cbn [trace]. rewrite H3.
  rewrite <- !app_assoc. reflexivity.
Qed.

(** C5, as amended.  With an empty hostname the Identity Writer makes no
    sethostname call and does not write /etc/hostname; the /etc/hosts it
    writes is the same three lines as ever, the third one being
    [127.0.1.1<TAB>] with nothing after the tab. *)
Theorem empty_hostname_identity cfg h fs :
  hostname cfg = [] ->
  let t := trace (identity_run cfg h fs) in
  (forall n, ~ In (Sethostname n) t) /\
  (forall c, ~ In (WriteFile "/etc/hostname" c) t) /\
  In (WriteFile "/etc/hosts" (hosts_text [])) t /\
  (forall c, In (WriteFile "/etc/hosts" c) t -> c = hosts_text []) /\
  lines_of (hosts_text []) =
    [s2l "127.0.0.1" ++ [TAB] ++ s2l "localhost" ++ [NL];
     s2l "::1" ++ [TAB; TAB] ++ s2l "localhost ip6-localhost ip6-loopback" ++ [NL];
     s2l "127.0.1.1" ++ [TAB; NL]].
Proof.
  intros Hh. cbv zeta.
  destruct (identity_trace cfg h fs) as (resolv & tail & Ht & Htail).
  rewrite Ht, Hh. cbn [nonempty app].
  change (snprintf 1024 (hosts_text [])) with (hosts_text []).
  repeat split.
  - intros n [H|[H|H]]; try discriminate.
    destruct Htail as [-> | ->]; simpl in H; intuition discriminate.
  - intros c [H|[H|H]]; try discriminate.
    destruct Htail as [-> | ->]; simpl in H; intuition discriminate.
  - now left.
  - intros c [H|[H|H]]; [now injection H | discriminate |].
    destruct Htail as [-> | ->]; simpl in H; intuition discriminate.
Qed.

Lemma empty_hostname_identity_witness :
  hostname (config_with_hostname []) = [] /\
  In (WriteFile "/etc/hosts" (hosts_text []))
     (trace (identity_run (config_with_hostname []) linux_host ∅)).
Proof.
  split; [reflexivity|].
  exact (proj1 (proj2 (proj2 (empty_hostname_identity (config_with_hostname [])
                                linux_host ∅ eq_refl)))).
Defined.

Lemma empty_hostname_hosts_line :
  ~ empty_hostname_skipped (config_with_hostname []) linux_host ∅.
Proof.
  intros (_ & _ & H).
  specialize (H (hosts_text []) (s2l "127.0.1.1" ++ [TAB; NL])).
  assert (E : starts_with (s2l "127.0.1.1") (s2l "127.0.1.1" ++ [TAB; NL]) = false).
  { apply H.
    - vm_compute. now left.
    - vm_compute. right. right. now left. }
  vm_compute in E. discriminate.
Qed.

End NetworkFacts.

(** ** mount.c *)
Module MountFacts.
Import CLib Config Mount.











End MountFacts.

(** ** environment.c *)
Module EnvironmentFacts.
Import CLib Environment.

Lemma setenv_set name value (env : environ) :
  Network.nonempty name = true -> existsb (Ascii.eqb "="%char) name = false ->
  setenv name value true env = <[l2s name := value]> env.
Proof.
  intros H1 H2. unfold setenv. rewrite H1, H2. cbn [negb orb].
  destruct (env !! l2s name); reflexivity.
Qed.

Lemma set_container_defaults_empty term :
  set_container_defaults (Some term) ∅ = sealed term.
Proof.
  unfold set_container_defaults, sealed. cbn [default].
  rewrite !setenv_set by reflexivity.
  change (l2s (s2l "PATH")) with "PATH"%string.
  change (l2s (s2l "TERM")) with "TERM"%string.
  change (l2s (s2l "HOME")) with "HOME"%string.
  change (l2s (s2l "container")) with "container"%string.
  apply map_eq. intros k.
  destruct (decide (k = "PATH"%string)) as [->|H1]; [now simplify_map_eq|].
  destruct (decide (k = "TERM"%string)) as [->|H2]; [now simplify_map_eq|].
  destruct (decide (k = "HOME"%string)) as [->|H3]; [now simplify_map_eq|].
  destruct (decide (k = "container"%string)) as [->|H4]; [now simplify_map_eq|].
  now simplify_map_eq.
Qed.

Lemma setup_container_env_sealed env :
  setup_container_env env = sealed (term_buf env).
Proof. unfold setup_container_env, clearenv. apply set_container_defaults_empty. Qed.

Lemma sealed_term term : getenv "TERM" (sealed term) = Some term.
Proof.
  unfold getenv, sealed.
  rewrite lookup_insert_ne by discriminate. apply lookup_insert_eq.
Qed.

Lemma term_buf_fits env : (length (term_buf env) < 64)%nat.
Proof.
  unfold term_buf. destruct (getenv "TERM" env) as [v|].
  - unfold safe_strncpy. rewrite length_firstn.
    change (64 - 1)%nat with 63%nat. lia.
  - apply Nat.ltb_lt. reflexivity.
Qed.

(** C8, as amended.  Scrub-and-default leaves exactly PATH, TERM, HOME and
    container, TERM being the first 63 bytes of the value it had at the
    start ([term_buf] has 64 bytes) and xterm-256color when it was unset;
    applied to its own result it leaves the same environment. *)
Theorem setup_container_env_twice env :
  (forall v, getenv "TERM" env = Some v ->
             setup_container_env env = sealed (firstn 63 v)) /\
  (getenv "TERM" env = None -> setup_container_env env = sealed DEFAULT_TERM) /\
  setup_container_env (setup_container_env env) = setup_container_env env.
Proof.
  split; [|split].
  - intros v Hv. rewrite setup_container_env_sealed.
    unfold term_buf. now rewrite Hv.
  - intros Hn. rewrite setup_container_env_sealed.
    unfold term_buf. now rewrite Hn.
  - rewrite !setup_container_env_sealed. f_equal.
    unfold term_buf at 1. rewrite sealed_term.
    unfold safe_strncpy. apply firstn_all2.
    pose proof (term_buf_fits env). change (64 - 1)%nat with 63%nat. lia.
Qed.

Lemma setup_container_env_twice_witness :
  let env : environ := {[ "TERM" := long_term; "SECRET" := s2l "x" ]}%string in
  getenv "TERM" env = Some long_term /\
  setup_container_env env = sealed (firstn 63 long_term) /\
  setup_container_env (setup_container_env env) = setup_container_env env.
Proof.
  cbv zeta.
  pose proof (setup_container_env_twice
                ({[ "TERM" := long_term; "SECRET" := s2l "x" ]}%string)) as (H1 & _ & H3).
  split; [reflexivity|]. split; [|exact H3].
  apply (H1 long_term). reflexivity.
Defined.

(* With a TERM of 70 bytes the sealed TERM is not the captured value: it
   is its first 63 bytes. *)
Lemma setup_container_env_long_term :
  let env : environ := {[ "TERM" := long_term ]}%string in
  captured env = long_term /\
  getenv "TERM" (setup_container_env env) = Some (replicate 63 "x"%char) /\
  setup_container_env env <> sealed (captured env).
Proof.
  cbv zeta. split; [reflexivity|]. split; [vm_compute; reflexivity|].
  intros H. apply (f_equal (getenv "TERM")) in H. vm_compute in H. discriminate.
Qed.

(** C10.  When /etc/environment cannot be opened, the merge step returns
    with the environment as it was. *)
Theorem load_etc_environment_unopened (fs : gmap string (list ascii)) (env : environ) :
  fs !! "/etc/environment"%string = None -> load_etc_environment fs env = env.
Proof. intros H. unfold load_etc_environment. now rewrite H. Qed.

Lemma load_etc_environment_unopened_witness :
  (∅ : gmap string (list ascii)) !! "/etc/environment"%string = None /\
  load_etc_environment ∅ (sealed DEFAULT_TERM) = sealed DEFAULT_TERM.
Proof.
  split; [reflexivity|].
  apply load_etc_environment_unopened. reflexivity.
Defined.

(** The merge step on a file that opens: comments and blank lines are
    skipped, matching quotes are stripped. *)
Example load_etc_environment_sample :
  load_etc_environment
    {[ "/etc/environment"%string :=
         s2l "# locale" ++ [NL] ++ [NL] ++ s2l "LANG='C.UTF-8'" ++ [NL] ++ s2l "EDITOR=vi" ]}
    ∅ !! "LANG"%string = Some (s2l "C.UTF-8").
Proof. vm_compute. reflexivity. Qed.

End EnvironmentFacts.

(** ** The host GPU probe *)
Module ProbeFacts.
Import Probe.

Lemma duplicate_In gids g : duplicate gids g = true <-> In g gids.
Proof.
  induction gids as [|x r IH]; simpl; [split; [discriminate | tauto]|].
  destruct (Z.eqb_spec x g) as [-> | Hne]; [tauto|].
  rewrite IH. split; [auto | intros [H|H]; [contradiction | exact H]].
Qed.

(** A round keeps what is stored and stores at most one more GID. *)
Lemma probe_device_grows stat max_gids gids p :
  probe_device stat max_gids gids p = gids \/
  exists g, probe_device stat max_gids gids p = gids ++ [g] /\
            stat p = Some g /\ g <> 0 /\ ~ In g gids /\
            Z.of_nat (length gids) < max_gids.
Proof.
  unfold probe_device. destruct (stat p) as [g|]; [|now left].
  destruct (Z.eqb_spec g 0) as [-> | Hg]; [now left|].
  destruct (duplicate gids g) eqn:Ed; cbn [negb andb]; [now left|].
  destruct (Z.ltb_spec (Z.of_nat (length gids)) max_gids) as [Hlt | Hge]; [|now left].
  right. exists g. repeat split; auto.
  intros Hin. apply duplicate_In in Hin. congruence.
Qed.

Lemma probe_device_probed stat max_gids seen gids p :
  probed stat max_gids seen gids ->
  probed stat max_gids (seen ++ [p]) (probe_device stat max_gids gids p).
Proof.
  intros (Hnd & H0 & Hlen & Hseen & Hsrc).
  destruct (probe_device_grows stat max_gids gids p) as [-> | (g & -> & Hs & Hg & Hnew & Hroom)].
  - repeat split; auto.
    + rewrite length_app. simpl. lia.
    + intros g Hg. destruct (Hsrc g Hg) as (q & Hq & Hsq).
      exists q. split; [apply in_or_app; now left | exact Hsq].
  - repeat split.
    + apply NoDup_app. repeat split; auto.
      * intros x Hx Hx'. apply list_elem_of_In in Hx, Hx'.
        destruct Hx' as [<- | []]. contradiction.
      * apply NoDup_singleton.
    + intros Hin. apply in_app_or in Hin as [Hin | [Hin | []]]; [contradiction | congruence].
    + rewrite length_app. simpl. lia.
    + rewrite !length_app. simpl. lia.
    + intros x Hx. apply in_app_or in Hx as [Hx | [<- | []]].
      * destruct (Hsrc x Hx) as (q & Hq & Hsq).
        exists q. split; [apply in_or_app; now left | exact Hsq].
      * exists p. split; [apply in_or_app; right; now left | exact Hs].
Qed.

Lemma probe_loop_probed stat max_gids ds seen gids :
  probed stat max_gids seen gids ->
  probed stat max_gids (seen ++ ds) (fold_left (probe_device stat max_gids) ds gids).
Proof.
  revert seen gids. induction ds as [|p ds IH]; intros seen gids H.
  - now rewrite app_nil_r.
  - simpl. replace (seen ++ p :: ds) with ((seen ++ [p]) ++ ds)
      by (now rewrite <- app_assoc).
    apply IH. now apply probe_device_probed.
Qed.

(** The loop only appends. *)
Lemma probe_loop_extends stat max_gids ds gids :
  exists more, fold_left (probe_device stat max_gids) ds gids = gids ++ more.
Proof.
  revert gids. induction ds as [|p ds IH]; intros gids.
  - exists []. now rewrite app_nil_r.
  - simpl. destruct (IH (probe_device stat max_gids gids p)) as [more Hm].
    rewrite Hm.
    destruct (probe_device_grows stat max_gids gids p) as [-> | (g & -> & _)].
    + now exists more.
    + exists (g :: more). now rewrite <- app_assoc.
Qed.

(** While the array has room, the GID of every device that exists is
    stored. *)
Lemma probe_loop_complete stat max_gids ds gids p g :
  Z.of_nat (length (fold_left (probe_device stat max_gids) ds gids)) < max_gids ->
  In p ds -> stat p = Some g -> g <> 0 ->
  In g (fold_left (probe_device stat max_gids) ds gids).
Proof.
  revert gids. induction ds as [|q ds IH]; intros gids Hroom Hin Hs Hg; [destruct Hin|].
  simpl in *. destruct Hin as [-> | Hin]; [|now apply IH].
  destruct (probe_loop_extends stat max_gids ds (probe_device stat max_gids gids p))
    as [more Hm].
  rewrite Hm in *. apply in_or_app. left.
  rewrite length_app in Hroom.
  unfold probe_device in *. rewrite Hs in *.
  destruct (Z.eqb_spec g 0) as [-> | _]; [contradiction|].
  destruct (duplicate gids g) eqn:Ed; cbn [negb andb] in *.
  - now apply duplicate_In.
  - destruct (Z.ltb_spec (Z.of_nat (length gids)) max_gids) as [Hlt | Hge].
    + apply in_or_app. right. now left.
    + lia.
Qed.

(** X2.  The probe returns the number of GIDs it stored; they are distinct,
    none is the root group, each is the group of a device of the table
    that exists on the host, and their number is at most [max_gids] and at
    most the 31 devices of the table.  When the array was not filled, the
    group of every existing device of the table that is not the root group
    is among them. *)
Theorem scan_host_gpu_gids_distinct stat max_gids :
  let count := fst (scan_host_gpu_gids stat max_gids) in
  let gids := snd (scan_host_gpu_gids stat max_gids) in
  count = Z.of_nat (length gids) /\
  0 <= count <= Z.max 0 max_gids /\ count <= 31 /\
  NoDup gids /\ ~ In 0 gids /\
  (forall g, In g gids -> exists p, In p gpu_devices /\ stat p = Some g) /\
  (count < max_gids ->
   forall p g, In p gpu_devices -> stat p = Some g -> g <> 0 -> In g gids).
Proof.
  cbv zeta. unfold scan_host_gpu_gids. cbn [fst snd].
  assert (H0 : probed stat max_gids [] []).
  { repeat split; [constructor | intros [] | simpl; lia | simpl; lia | intros g []]. }
  apply (probe_loop_probed stat max_gids gpu_devices) in H0.
  rewrite app_nil_l in H0. destruct H0 as (Hnd & Hz & Hlen & Hseen & Hsrc).
  change (length gpu_devices) with 31%nat in Hseen.
  repeat split; auto; try lia.
  intros Hroom p g Hp Hs Hg. now apply (probe_loop_complete stat max_gids _ [] p g).
Qed.

(** A host with two render nodes of group 44 and a KGSL node of group
    1003; a second host where the array has room for one GID only. *)
Example probe_sample :
  let stat := fun p : string =>
    if String.eqb p "/dev/dri/renderD128" then Some 44
    else if String.eqb p "/dev/dri/card0" then Some 44
    else if String.eqb p "/dev/kgsl-3d0" then Some 1003
    else if String.eqb p "/dev/nvmap" then Some 0
    else None in
  scan_host_gpu_gids stat 32 = (2, [44; 1003]) /\
  scan_host_gpu_gids stat 1 = (1, [44]) /\
  scan_host_gpu_gids stat (-3) = (0, []).
Proof. vm_compute. repeat split; reflexivity. Qed.

End ProbeFacts.

(** ** hardware.c: membership, faults, the purpose of a run *)
Module GroupFacts.
Import CLib Hardware HardwareFacts.

Section WholeWord.
Variable u : list ascii.
Hypothesis u_nonempty : u <> [].
Hypothesis u_plain : Forall (fun c => c <> COMMA) u.

Lemma starts_with_comma p : starts_with u (COMMA :: p) = false.
Proof.
  destruct u as [|a r]; [contradiction|].
  apply Forall_cons in u_plain as [Ha _]. simpl.
  destruct (Ascii.eqb_spec a COMMA); [contradiction | reflexivity].
Qed.

Lemma has_user_from_fields p prev :
  has_user_from u p prev = true <->
  if boundary prev then In u (split_on COMMA p)
  else In u (tl (split_on COMMA p)).
Proof.
  revert prev. induction p as [|c p' IH]; intros prev.
  - assert (E : starts_with u [] = false) by (destruct u; [contradiction | reflexivity]).
    cbn [has_user_from]. rewrite E.
    simpl. destruct (boundary prev); simpl; split; try tauto; try discriminate.
    intros [H|[]]. now symmetry in H.
  - specialize (IH (Some c)). cbn [boundary] in IH.
    pose proof (before_eq_starts COMMA u (c :: p') u_plain) as Hb.
    pose proof (split_on_unfold COMMA (c :: p')) as Hs.
    cbn [has_user_from].
    assert (Hbd : (match prev with None => true | Some _ => false end
                   || match prev with Some d => Ascii.eqb d COMMA | None => false end)
                  = boundary prev) by (destruct prev; reflexivity).
    rewrite Hbd. clear Hbd.
    assert (Hnext : match skipn (length u) (c :: p') with
                    | [] => true | d :: _ => Ascii.eqb d COMMA end = true <->
                    match skipn (length u) (c :: p') with
                    | [] => True | d :: _ => d = COMMA end).
    { destruct (skipn (length u) (c :: p')) as [|d q]; [tauto|].
      apply Ascii.eqb_eq. }
    rewrite Hs. cbn [after before] in *.
    destruct (Ascii.eqb_spec c COMMA) as [->|Hc].
    + rewrite starts_with_comma.
      rewrite IH. destruct (boundary prev); simpl; [|tauto].
      split; [auto|]. intros [H|H]; [now symmetry in H | exact H].
    + rewrite (split_on_unfold COMMA p') in IH. cbn [tl] in IH.
      destruct (starts_with u (c :: p')) eqn:Est.
      * destruct (boundary prev) eqn:Ebd; cbn [andb].
        -- destruct (match skipn (length u) (c :: p') with
                     | [] => true | d :: _ => Ascii.eqb d COMMA end) eqn:En.
           ++ split; [intros _|reflexivity]. left.
              apply Hb. split; [reflexivity|]. now apply Hnext.
           ++ rewrite IH. cbn [tl In]. split; [auto|].
              intros [H|H]; [|exact H].
              apply Hb in H as [_ H]. apply Hnext in H. congruence.
        -- rewrite IH. reflexivity.
      * rewrite IH. destruct (boundary prev); cbn [tl In]; [|reflexivity].
        split; [auto|]. intros [H|H]; [|exact H].
        apply Hb in H as [H _]. discriminate.
Qed.

End WholeWord.

(** X1.  For a user name that is not empty and holds no comma, [has_user]
    answers 1 exactly when the name is one of the comma-separated entries
    of the list: a name that is only part of an entry does not count. *)
Theorem has_user_whole_entries users u :
  u <> [] -> Forall (fun c => c <> COMMA) u ->
  (has_user users u = true <-> member u users).
Proof.
  intros Hne Hp. unfold has_user, member.
  apply (has_user_from_fields u Hne Hp users None).
Qed.

Lemma has_user_whole_entries_witness :
  (has_user (s2l "alice,bob") (s2l "bob") = true <->
   member (s2l "bob") (s2l "alice,bob")) /\
  has_user (s2l "alice,bobby") (s2l "bob") = false.
Proof.
  split.
  - apply has_user_whole_entries; [discriminate | repeat constructor; discriminate].
  - vm_compute. reflexivity.
Defined.


(** *** Faults *)

(** The outcomes of a run under any failure: nothing done; an early
    error; the temporary file left empty when the allocation fails; and,
    after the scan, a failed rename, a rename, or nothing to rename. *)
Lemma setup_gpu_groups_cases io gids (fs : gmap string (list ascii)) :
  let o := setup_gpu_groups io gids fs in
  o = {| ret := 0; files := fs; calls := [] |} \/
  o = {| ret := -1; files := fs; calls := [] |} \/
  (calloc_fails io = true /\
   o = {| ret := -1; files := <[tmp_path := []]> fs; calls := [] |}) \/
  exists content,
    fs !! group_path = Some content /\
    let w := concat (written gids content) in
    let fs2 := delete tmp_path (<[tmp_path := w]> fs) in
    (o = {| ret := -1; files := fs2;
            calls := [Rename tmp_path group_path; Unlink tmp_path] |} \/
     o = {| ret := 0; files := <[group_path := w]> fs2;
            calls := [Rename tmp_path group_path] |} \/
     o = {| ret := 0; files := fs2; calls := [Unlink tmp_path] |}).
Proof.
  cbv zeta. unfold setup_gpu_groups.
  destruct (Z.of_nat (length gids) <=? 0); [now left|].
  destruct (fs !! group_path) as [content|] eqn:Ef; [|now left].
  destruct (fopen_read_fails io); [right; now left|].
  destruct (fopen_write_fails io); [right; now left|].
  destruct (calloc_fails io); [right; right; left; now split|].
  destruct (scan_loop_total gids (S (length content)) content (scan_start gids))
    as [st1 Hst1]; [lia|].
  fold (scan_start gids). rewrite Hst1.
  assert (Hw : fout (append_missing gids (found_gids st1) st1) = written gids content)
    by (unfold written; now rewrite Hst1).
  cbv zeta. rewrite Hw. clear Hw Hst1.
  right. right. right. exists content. split; [reflexivity|].
  destruct (0 <? modified_count _)%nat; [destruct (rename_fails io)|]; auto.
Qed.

(** What a run does to /etc/group and to the other files. *)
Lemma setup_gpu_groups_group_file io gids (fs : gmap string (list ascii)) :
  let o := setup_gpu_groups io gids fs in
  (forall p, p <> group_path -> p <> tmp_path -> files o !! p = fs !! p) /\
  (files o !! group_path = fs !! group_path \/
   exists content,
     fs !! group_path = Some content /\
     files o !! group_path = Some (concat (written gids content)) /\
     ret o = 0 /\ calls o = [Rename tmp_path group_path]).
Proof.
  cbv zeta.
  destruct (setup_gpu_groups_cases io gids fs)
    as [-> | [-> | [[_ ->] | (content & Ef & [-> | [-> | ->]])]]]; cbn [ret files calls].
  - auto.
  - auto.
  - split; [|left; now rewrite lookup_insert_ne by discriminate].
    intros p _ Hp. now rewrite lookup_insert_ne by congruence.
  - split; [|left; now rewrite lookup_delete_ne, lookup_insert_ne by discriminate].
    intros p _ Hp. now rewrite lookup_delete_ne, lookup_insert_ne by congruence.
  - split.
    + intros p Hp1 Hp2.
      now rewrite lookup_insert_ne, lookup_delete_ne, lookup_insert_ne by congruence.
    + right. exists content. repeat split; [exact Ef | apply lookup_insert_eq].
  - split; [|left; now rewrite lookup_delete_ne, lookup_insert_ne by discriminate].
    intros p _ Hp. now rewrite lookup_delete_ne, lookup_insert_ne by congruence.
Qed.

(** X3.  Whatever fails, a run returns 0 or -1 and touches no file other
    than /etc/group and /etc/group.tmp; /etc/group either keeps its content
    or, by the rename of a return-0 run, becomes the text written to the
    temporary file; a run that returns -1 leaves /etc/group as it was; and
    unless the allocation of the found array fails, the run changes nothing
    at all or leaves no /etc/group.tmp behind. *)
Theorem gpu_groups_atomic_update io gids (fs : gmap string (list ascii)) :
  let o := setup_gpu_groups io gids fs in
  (ret o = 0 \/ ret o = -1) /\
  (forall p, p <> group_path -> p <> tmp_path -> files o !! p = fs !! p) /\
  (files o !! group_path = fs !! group_path \/
   exists content,
     fs !! group_path = Some content /\
     files o !! group_path = Some (concat (written gids content)) /\
     ret o = 0 /\ calls o = [Rename tmp_path group_path]) /\
  (ret o = -1 -> files o !! group_path = fs !! group_path) /\
  (calloc_fails io = false -> files o = fs \/ files o !! tmp_path = None).
Proof.
  cbv zeta.
  destruct (setup_gpu_groups_group_file io gids fs) as [Hframe Hgroup].
  split; [|split; [exact Hframe | split; [exact Hgroup|]]].
  - destruct (setup_gpu_groups_cases io gids fs)
      as [-> | [-> | [[_ ->] | (content & _ & [-> | [-> | ->]])]]]; cbn [ret]; auto.
  - clear Hframe Hgroup.
    destruct (setup_gpu_groups_cases io gids fs)
      as [-> | [-> | [[Hc ->] | (content & Ef & [-> | [-> | ->]])]]]; cbn [ret files].
    + split; [reflexivity | now left].
    + split; [reflexivity | now left].
    + split; [intros _; now rewrite lookup_insert_ne by discriminate | congruence].
    + split; [intros _; now rewrite lookup_delete_ne, lookup_insert_ne by discriminate|].
      intros _. right. apply lookup_delete_eq.
    + split; [discriminate|]. intros _. right.
      rewrite lookup_insert_ne by discriminate. apply lookup_delete_eq.
    + split; [discriminate|]. intros _. right. apply lookup_delete_eq.
Qed.


(** *** What a run is for *)

Lemma plain_field body f :
  Forall (fun c => c <> NL) body -> Forall (fun c => c <> COLON) f ->
  (forall c, In c f -> In c body) -> plain COLON f.
Proof.
  intros Hb Hf Hsub. unfold plain. apply Forall_forall. intros c Hc.
  rewrite Forall_forall in Hb, Hf. split; [now apply Hf|].
  apply Hb. apply list_elem_of_In. apply Hsub. now apply list_elem_of_In.
Qed.

(** The record appended for a GID reads back as that GID, also when [%d]
    printed it as a negative number. *)
Lemma gpu_record_fields g :
  0 <= g < 2 ^ 32 ->
  exists name gidf,
    gpu_record g = record_line name (s2l "x") gidf ROOT [NL] /\
    plain COLON name /\ plain COLON gidf /\ gid_of_field gidf = g.
Proof.
  intros Hg. exists (s2l "gpu_" ++ fmt_d (to_int g)), (fmt_d (to_int g)).
  assert (HD : plain COLON (fmt_d (to_int g))).
  { unfold plain. apply fmt_d_Forall.
    - intros c Hc. destruct (digit_plain c Hc) as (_ & _ & _ & H1 & H2 & _). now split.
    - split; discriminate. }
  split; [apply gpu_record_line|]. split; [|split; [exact HD|]].
  - unfold plain. apply Forall_app. split; [|exact HD].
    repeat constructor; discriminate.
  - unfold gid_of_field. rewrite atoi_fmt_d by apply to_int_range.
    now apply to_gid_t_to_int.
Qed.

Lemma In_find_gid gids g : In g gids -> exists j, find_gid gids g = Some j.
Proof.
  intros Hin. destruct (find_gid gids g) as [j|] eqn:E; [now exists j|].
  apply find_gid_None in E. contradiction.
Qed.

Lemma line_text_idx_shape gids body eol :
  Forall (fun c => c <> NL) body -> eol = [] \/ eol = [NL] ->
  (length (body ++ eol) < LINE_SIZE)%nat ->
  match parse_record body with
  | Some (name, pw, gidf, users) =>
      match find_gid gids (gid_of_field gidf) with
      | Some i =>
          line_idx gids (body ++ eol) = Some i /\
          line_text gids (body ++ eol) =
          if has_user users ROOT then body ++ eol
          else record_line name pw gidf (add_root users) [NL]
      | None => line_idx gids (body ++ eol) = None
      end
  | None => line_idx gids (body ++ eol) = None
  end.
Proof.
  intros Hb He Hlen. unfold line_idx, line_text.
  rewrite line_action_shape by assumption.
  destruct (parse_record body) as [[[[name pw] gidf] users]|]; [|reflexivity].
  destruct (find_gid gids (gid_of_field gidf)); [|reflexivity].
  destruct (has_user users ROOT); split; reflexivity.
Qed.

(** X4.  On an /etc/group without NUL byte whose lines fit the buffer, and
    for probed GIDs that are [gid_t] values, the text a run leaves at
    /etc/group is the concatenation of the entries it wrote, and for every
    probed GID one of these entries is a group record whose GID field reads
    as that GID and whose user list has root as a whole entry. *)
Theorem gpu_groups_root_in_every_group gids (fs : gmap string (list ascii)) content :
  fs !! group_path = Some content -> readable content ->
  Forall (fun g => 0 <= g < 2 ^ 32) gids ->
  group_after gids fs = Some (concat (written gids content)) /\
  forall g, In g gids ->
    exists name pw gidf users eol,
      In (record_line name pw gidf users eol) (written gids content) /\
      plain COLON name /\ plain COLON pw /\ plain COLON gidf /\
      (eol = [] \/ eol = [NL]) /\
      gid_of_field gidf = g /\ member ROOT users.
Proof.
  intros Hf Hr Hrange. split; [now apply output_entries_readable|].
  intros g Hin. rewrite (written_readable _ _ Hr).
  destruct (In_find_gid gids g Hin) as [j Hj].
  pose proof (find_gid_Some _ _ _ Hj) as Hgj.
  destruct (decide (Some j ∈ map (line_idx gids) (text_lines content))) as [Hyes|Hno].
  - (* a line carries the GID *)
    apply list_elem_of_In, in_map_iff in Hyes as (l & Hidx & Hl).
    apply list_elem_of_In, list_elem_of_lookup in Hl as [i Hi].
    destruct (readable_line _ _ _ Hr Hi) as (body & eol & -> & Hb & He & Hlen).
    assert (Hin' : In (line_text gids (body ++ eol))
                     (map (line_text gids) (text_lines content))).
    { apply in_map. apply list_elem_of_In. eapply list_elem_of_lookup_2; eauto. }
    set (L := map (line_text gids) (text_lines content)) in *.
    pose proof (line_text_idx_shape gids body eol Hb He Hlen) as Hshape.
    destruct (parse_record body) as [[[[name pw] gidf] users]|] eqn:Ep; [|congruence].
    destruct (parse_record_Some _ _ _ _ _ Ep) as (Eb & Hn & Hp & Hg).
    assert (Hsub : forall f, (exists a b, body = a ++ f ++ b) ->
                             forall c, In c f -> In c body).
    { intros f (a & b & ->) c Hc. apply in_or_app. right. apply in_or_app. now left. }
    assert (Pn : plain COLON name).
    { apply (plain_field body); auto. apply Hsub. exists [], ([COLON] ++ pw ++ [COLON] ++ gidf ++ [COLON] ++ users).
      exact Eb. }
    assert (Pp : plain COLON pw).
    { apply (plain_field body); auto. apply Hsub.
      exists (name ++ [COLON]), ([COLON] ++ gidf ++ [COLON] ++ users).
      rewrite Eb at 1. now rewrite <- !app_assoc. }
    assert (Pg : plain COLON gidf).
    { apply (plain_field body); auto. apply Hsub.
      exists (name ++ [COLON] ++ pw ++ [COLON]), ([COLON] ++ users).
      rewrite Eb at 1. now rewrite <- !app_assoc. }
    destruct (find_gid gids (gid_of_field gidf)) as [k|] eqn:Ef; [|congruence].
    destruct Hshape as [Hk Ht]. rewrite Ht in Hin'.
    assert (k = j) by congruence. subst k. apply find_gid_Some in Ef.
    assert (Hgid : gid_of_field gidf = g) by congruence.
    destruct (has_user users ROOT) eqn:Eu.
    + exists name, pw, gidf, users, eol. repeat split; auto.
      * apply in_or_app. left. rewrite record_line_body, <- Eb. exact Hin'.
      * now apply has_user_member.
    + exists name, pw, gidf, (add_root users), [NL]. repeat split; auto.
      * apply in_or_app. left. exact Hin'.
      * apply member_add_root.
  - (* no line carries it: its record is appended *)
    assert (Hm : In g (missing gids (found_after gids (text_lines content)))).
    { eapply missing_In; [exact Hgj|]. unfold found_after.
      apply fold_mark_keeps; [|intros H; apply Hno; now apply list_elem_of_In].
      apply lookup_replicate_2. eapply lookup_lt_Some; eauto. }
    rewrite Forall_forall in Hrange.
    destruct (gpu_record_fields g (Hrange g (proj2 (list_elem_of_In _ _) Hin)))
      as (name & gidf & E & Hn & Hg & Hgid).
    exists name, (s2l "x"), gidf, ROOT, [NL]. repeat split; auto.
    + apply in_or_app. right. rewrite <- E. now apply in_map.
    + repeat constructor; discriminate.
    + now left.
Qed.

Lemma gpu_groups_root_in_every_group_witness :
  group_after [44; 4294967294] {[ group_path := small_group ]} =
    Some (concat (written [44; 4294967294] small_group)) /\
  forall g, In g [44; 4294967294] ->
    exists name pw gidf users eol,
      In (record_line name pw gidf users eol) (written [44; 4294967294] small_group) /\
      plain COLON name /\ plain COLON pw /\ plain COLON gidf /\
      (eol = [] \/ eol = [NL]) /\
      gid_of_field gidf = g /\ member ROOT users.
Proof.
  apply (gpu_groups_root_in_every_group [44; 4294967294] _ small_group).
  - reflexivity.
  - exact small_group_readable.
  - repeat (constructor; [lia|]). constructor.
Defined.

End GroupFacts.

(** ** android_seccomp.c: verdicts on every input, the namespace flags *)
Module VerdictFacts.
Import Seccomp SeccompFacts Namespaces.

(** X7.  Whatever [is_systemd] and the kernel version were when the
    program was built, and on every [seccomp_data], also one whose fields
    are no machine words, the program ends with a return: its verdict is
    ALLOW, TRAP, ERRNO(ENOSYS) or ERRNO(EPERM), never a kill; and it is
    ERRNO(EPERM) only in a program built with [is_systemd] set and
    [major] below 5. *)
Theorem filter_always_returns t is_systemd major d :
  exists v,
    seccomp_run (filter t is_systemd major) d = Some v /\
    In v [SECCOMP_RET_ALLOW; SECCOMP_RET_TRAP;
          Z.lor SECCOMP_RET_ERRNO ENOSYS; Z.lor SECCOMP_RET_ERRNO EPERM] /\
    (v = Z.lor SECCOMP_RET_ERRNO EPERM -> is_systemd <> 0 /\ major < 5).
Proof.
  unfold seccomp_run. cbn [length filter].
  assert (Hallow : forall v, v = SECCOMP_RET_ALLOW ->
            In v [SECCOMP_RET_ALLOW; SECCOMP_RET_TRAP;
                  Z.lor SECCOMP_RET_ERRNO ENOSYS; Z.lor SECCOMP_RET_ERRNO EPERM] /\
            (v = Z.lor SECCOMP_RET_ERRNO EPERM -> is_systemd <> 0 /\ major < 5)).
  { intros v ->. split; [now left | discriminate]. }
  assert (Htrap : In SECCOMP_RET_TRAP [SECCOMP_RET_ALLOW; SECCOMP_RET_TRAP;
                  Z.lor SECCOMP_RET_ERRNO ENOSYS; Z.lor SECCOMP_RET_ERRNO EPERM] /\
            (SECCOMP_RET_TRAP = Z.lor SECCOMP_RET_ERRNO EPERM -> is_systemd <> 0 /\ major < 5)).
  { split; [right; now left | discriminate]. }
  assert (Hnosys : forall v, v = Z.lor SECCOMP_RET_ERRNO (Z.land ENOSYS SECCOMP_RET_DATA) ->
            In v [SECCOMP_RET_ALLOW; SECCOMP_RET_TRAP;
                  Z.lor SECCOMP_RET_ERRNO ENOSYS; Z.lor SECCOMP_RET_ERRNO EPERM] /\
            (v = Z.lor SECCOMP_RET_ERRNO EPERM -> is_systemd <> 0 /\ major < 5)).
  { intros v ->. split; [right; right; now left | discriminate]. }
  bpf_step. bpf_step.
  destruct (lo32 (arch d) =? AUDIT_ARCH t);
    [|bpf_step; eexists; split; [reflexivity | now apply Hallow]].
  bpf_step. bpf_step.
  destruct (lo32 (nr d) =? NR_reboot t);
    [bpf_step; eexists; split; [reflexivity | exact Htrap]|].
  bpf_step.
  destruct (lo32 (nr d) =? NR_keyctl t);
    [bpf_step; eexists; split; [reflexivity | now apply Hnosys]|].
  bpf_step.
  destruct (lo32 (nr d) =? NR_add_key t);
    [bpf_step; eexists; split; [reflexivity | now apply Hnosys]|].
  bpf_step.
  destruct (lo32 (nr d) =? NR_request_key t);
    [bpf_step; eexists; split; [reflexivity | now apply Hnosys]|].
  bpf_step.
  destruct (negb (is_systemd =? 0) && (major <? 5)) eqn:Eleg; cbn [Nat.add];
    [|bpf_step; eexists; split; [reflexivity | now apply Hallow]].
  assert (Hleg : is_systemd <> 0 /\ major < 5).
  { apply andb_true_iff in Eleg as [H1 H2]. split; [|now apply Z.ltb_lt].
    intros ->. discriminate. }
  assert (Hperm : forall v, v = Z.lor SECCOMP_RET_ERRNO (Z.land EPERM SECCOMP_RET_DATA) ->
            In v [SECCOMP_RET_ALLOW; SECCOMP_RET_TRAP;
                  Z.lor SECCOMP_RET_ERRNO ENOSYS; Z.lor SECCOMP_RET_ERRNO EPERM] /\
            (v = Z.lor SECCOMP_RET_ERRNO EPERM -> is_systemd <> 0 /\ major < 5)).
  { intros v ->. split; [right; right; right; now left | auto]. }
  bpf_step.
  destruct (lo32 (nr d) =? NR_unshare t); cbn [Nat.add].
  - bpf_step. bpf_step.
    destruct (Z.land (lo32 (nth 0 (args d) 0)) ns_mask =? 0); bpf_step;
      eexists; (split; [reflexivity|]); [now apply Hallow | now apply Hperm].
  - bpf_step.
    destruct (lo32 (nr d) =? NR_clone t); cbn [Nat.add].
    + bpf_step. bpf_step.
      destruct (Z.land (lo32 (nth 0 (args d) 0)) ns_mask =? 0); bpf_step;
        eexists; (split; [reflexivity|]); [now apply Hallow | now apply Hperm].
    + bpf_step. eexists; split; [reflexivity | now apply Hallow].
Qed.

(** The run of the program on any input, from the words it loads. *)
Lemma filter_run_words t is_systemd major d :
  seccomp_run (filter t is_systemd major) d =
  Some (classify t is_systemd major (words d)).
Proof.
  unfold seccomp_run, classify, words. cbn [length filter nr arch args nth].
  bpf_step. bpf_step.
  destruct (lo32 (arch d) =? AUDIT_ARCH t); cbn [negb]; [|bpf_step; reflexivity].
  bpf_step. bpf_step.
  destruct (lo32 (nr d) =? NR_reboot t); [bpf_step; reflexivity|].
  bpf_step.
  destruct (lo32 (nr d) =? NR_keyctl t); [bpf_step; reflexivity|].
  bpf_step.
  destruct (lo32 (nr d) =? NR_add_key t); [bpf_step; reflexivity|].
  bpf_step.
  destruct (lo32 (nr d) =? NR_request_key t); [bpf_step; reflexivity|].
  cbn [orb]. bpf_step.
  destruct (negb (is_systemd =? 0) && (major <? 5)); cbn [andb Nat.add];
    [|bpf_step; reflexivity].
  bpf_step.
  destruct (lo32 (nr d) =? NR_unshare t); cbn [orb andb Nat.add].
  - bpf_step. bpf_step.
    destruct (Z.land (lo32 (nth 0 (args d) 0)) ns_mask =? 0); cbn [negb];
      bpf_step; reflexivity.
  - bpf_step.
    destruct (lo32 (nr d) =? NR_clone t); cbn [orb andb Nat.add].
    + bpf_step. bpf_step.
      destruct (Z.land (lo32 (nth 0 (args d) 0)) ns_mask =? 0); cbn [negb];
        bpf_step; reflexivity.
    + bpf_step. reflexivity.
Qed.

(** X25.  On every [seccomp_data], the program's verdict is the
    first-match classification of the 32-bit words it loads: [arch], [nr]
    and the low half of [args[0]].  Two calls that agree on these three
    words get the same verdict: the instruction pointer, the high half of
    [args[0]] and the other arguments play no part. *)
Theorem filter_reads_three_words t is_systemd major d :
  seccomp_run (filter t is_systemd major) d =
    Some (classify t is_systemd major (words d)) /\
  forall d',
    lo32 (arch d') = lo32 (arch d) -> lo32 (nr d') = lo32 (nr d) ->
    lo32 (nth 0 (args d') 0) = lo32 (nth 0 (args d) 0) ->
    seccomp_run (filter t is_systemd major) d' =
    seccomp_run (filter t is_systemd major) d.
Proof.
  split; [apply filter_run_words|].
  intros d' Ha Hn H0. rewrite !filter_run_words. unfold words.
  now rewrite Ha, Hn, H0.
Qed.

(** The mask is the union of the seven flags. *)
Lemma ns_mask_flags :
  ns_mask = fold_right Z.lor 0 namespace_flags.
Proof. reflexivity. Qed.

Lemma land_lor_zero a f g :
  (Z.land a (Z.lor f g) =? 0) = (Z.land a f =? 0) && (Z.land a g =? 0).
Proof.
  rewrite Z.land_lor_distr_r.
  destruct (Z.eqb_spec (Z.lor (Z.land a f) (Z.land a g)) 0) as [E | E].
  - apply Z.lor_eq_0_iff in E as [-> ->]. reflexivity.
  - destruct (Z.eqb_spec (Z.land a f) 0) as [Ef|]; [|reflexivity].
    destruct (Z.eqb_spec (Z.land a g) 0) as [Eg|]; [|reflexivity].
    exfalso. apply E. rewrite Ef, Eg. reflexivity.
Qed.

Lemma requests_mask flags a0 :
  requests flags a0 = negb (Z.land a0 (fold_right Z.lor 0 flags) =? 0).
Proof.
  unfold requests. induction flags as [|f flags IH]; cbn [existsb fold_right].
  - now rewrite Z.land_0_r.
  - rewrite land_lor_zero, negb_andb, IH. reflexivity.
Qed.

(** X8.  In a program built for a systemd guest on a kernel below 5.0, on
    each of the four architectures, [unshare] and [clone] are answered with
    ERRNO(EPERM) exactly when their first argument has one of CLONE_NEWNS,
    CLONE_NEWCGROUP, CLONE_NEWUTS, CLONE_NEWIPC, CLONE_NEWUSER,
    CLONE_NEWPID, CLONE_NEWNET set, and with ALLOW otherwise: a [clone]
    without these flags (a fork, a new thread) and a request for a time
    namespace alone pass. *)
Theorem namespace_requests_refused t major minor is_systemd n a0 :
  In t [aarch64; x86_64; arm; i386] ->
  is_systemd <> 0 -> major < 5 ->
  n = NR_unshare t \/ n = NR_clone t ->
  0 <= a0 < 2 ^ 64 ->
  seccomp_run (installed_filter t (Some (major, minor)) is_systemd) (call t n a0) =
  Some (if requests namespace_flags a0
        then Z.lor SECCOMP_RET_ERRNO EPERM else SECCOMP_RET_ALLOW) /\
  requests namespace_flags CLONE_NEWTIME = false.
Proof.
  intros Ht Hs Hm Hn Ha. split; [|reflexivity].
  change (installed_filter t (Some (major, minor)) is_systemd) with (filter t is_systemd major).
  assert (Hv : valid_data (call t n a0)).
  { apply valid_call; auto.
    - simpl in Ht. destruct Hn as [-> | ->]; intuition subst; cbn; lia.
    - simpl in Ht. intuition subst; cbn; lia. }
  rewrite (filter_classifies _ _ _ _ Hv). f_equal.
  rewrite requests_mask, <- ns_mask_flags.
  unfold classify, call. cbn [arch nr args nth].
  rewrite Z.eqb_refl. cbn [negb].
  apply Z.eqb_neq in Hs. rewrite Hs. apply Z.ltb_lt in Hm. rewrite Hm. cbn [negb andb].
  simpl in Ht.
  destruct Hn as [-> | ->]; intuition subst; cbn [NR_unshare NR_clone NR_reboot NR_keyctl
    NR_add_key NR_request_key aarch64 x86_64 arm i386 Z.eqb Pos.eqb orb andb];
    destruct (Z.land a0 ns_mask =? 0); reflexivity.
Qed.

Lemma namespace_requests_refused_witness :
  seccomp_run (installed_filter aarch64 (Some (4, 14)) 1)
    (call aarch64 (NR_clone aarch64) (Z.lor CLONE_NEWPID 17)) =
    Some (Z.lor SECCOMP_RET_ERRNO EPERM) /\
  seccomp_run (installed_filter aarch64 (Some (4, 14)) 1)
    (call aarch64 (NR_clone aarch64) 17) = Some SECCOMP_RET_ALLOW.
Proof.
  split.
  - apply (namespace_requests_refused aarch64 4 14 1 (NR_clone aarch64) (Z.lor CLONE_NEWPID 17));
      [now left | discriminate | lia | now right | vm_compute; split; [discriminate | reflexivity]].
  - apply (namespace_requests_refused aarch64 4 14 1 (NR_clone aarch64) 17);
      [now left | discriminate | lia | now right | lia].
Defined.

End VerdictFacts.

(** ** android.c and network.c: the host class, DNS values, the files *)
Module IdentityFacts.
Import CLib Config Network NetworkFacts Identity.

(** *** The memoised host class *)

Lemma is_android_cached h c :
  c <> -1 -> Android.is_android h c = (c, c).
Proof.
  intros Hc. unfold Android.is_android.
  destruct (Z.eqb_spec c (-1)); [contradiction | reflexivity].
Qed.

Lemma is_android_calls_cached hs c :
  c <> -1 -> Android.is_android_calls hs c = replicate (length hs) c.
Proof.
  intros Hc. induction hs as [|h hs IH]; [reflexivity|].
  cbn [Android.is_android_calls]. rewrite is_android_cached by exact Hc.
  cbn [length replicate]. now rewrite IH.
Qed.

(** X9.  From the start of the process ([cached_result] is -1), every call
    of [is_android] returns what the first call found: 1 when ANDROID_ROOT
    was set or /system/bin/app_process existed at that moment, 0
    otherwise, whatever the host looks like at the later calls. *)
Theorem is_android_first_answer_stays h hs :
  Android.is_android_calls (h :: hs) (-1) =
  replicate (S (length hs)) (if is_android h then 1 else 0).
Proof.
  cbn [Android.is_android_calls]. unfold Android.is_android, is_android.
  rewrite Z.eqb_refl. cbn [negb].
  destruct (android_root_env h || app_process_exists h); cbv iota beta;
    cbn [replicate]; now rewrite is_android_calls_cached by discriminate.
Qed.

(** *** The values read from the properties *)

Lemma strchr_split s c p :
  strchr s c = Some p -> s = cut_at s p ++ p /\ Forall (fun d => d <> c) (cut_at s p).
Proof.
  revert p. induction s as [|d s IH]; intros p H; [discriminate|].
  cbn [strchr] in H. destruct (Ascii.eqb_spec d c) as [-> | Hd].
  - injection H as <-. unfold cut_at. rewrite Nat.sub_diag. split; [reflexivity | constructor].
  - destruct (IH p H) as [E HF]. unfold cut_at in *.
    assert (Hlen : (length p <= length s)%nat).
    { pose proof (f_equal (@length ascii) E) as El. rewrite length_app in El. lia. }
    cbn [length]. replace (S (length s) - length p)%nat with (S (length s - length p)) by lia.
    cbn [firstn app]. split; [now rewrite <- E | now constructor].
Qed.

Lemma strchr_none s c : strchr s c = None -> Forall (fun d => d <> c) s.
Proof.
  induction s as [|d s IH]; intros H; [constructor|].
  cbn [strchr] in H. destruct (Ascii.eqb_spec d c); [discriminate|].
  constructor; auto.
Qed.

Lemma c_str_prefix buf : exists rest, buf = c_str buf ++ rest.
Proof.
  induction buf as [|c buf [rest IH]]; [now exists []|].
  cbn [c_str]. destruct (Ascii.eqb c NUL).
  - now exists (c :: buf).
  - exists rest. cbn [app]. now rewrite <- IH.
Qed.

Lemma c_str_no_nul buf : Forall (fun c => c <> NUL) (c_str buf).
Proof.
  induction buf as [|c buf IH]; [constructor|].
  cbn [c_str]. destruct (Ascii.eqb_spec c NUL); [constructor | now constructor].
Qed.

Lemma fgets_read_length room fp : (length (fst (fgets_read room fp)) <= room)%nat.
Proof.
  revert fp. induction room as [|room IH]; intros fp; [simpl; lia|].
  destruct fp as [|c fp]; [simpl; lia|]. cbn [fgets_read].
  destruct (Ascii.eqb c NL); [simpl; lia|].
  specialize (IH fp). destruct (fgets_read room fp) as [l rest]. cbn [fst length] in *. lia.
Qed.

Lemma read_prop_value h size name buf :
  dns_value size buf -> dns_value size (read_prop h size name buf).
Proof.
  intros Hb. unfold read_prop.
  destruct (getprop h name) as [out|]; [|exact Hb].
  unfold fgets. destruct out as [|c out]; [exact Hb|].
  pose proof (fgets_read_length (size - 1) (c :: out)) as Hlen.
  destruct (fgets_read (size - 1) (c :: out)) as [b rest]. cbn [fst] in Hlen.
  destruct (c_str_prefix b) as [tail Eb].
  assert (Hs : (length (c_str b) <= size - 1)%nat).
  { rewrite Eb in Hlen. rewrite length_app in Hlen. lia. }
  assert (Hsize : (0 < size)%nat) by (destruct Hb; lia).
  pose proof (c_str_no_nul b) as Hnul.
  destruct (strchr (c_str b) NL) as [nl|] eqn:En.
  - destruct (strchr_split _ _ _ En) as [E HF]. split.
    + rewrite E in Hs. rewrite length_app in Hs. lia.
    + rewrite E in Hnul. apply Forall_app in Hnul as [Hnul _].
      apply Forall_forall. intros x Hx. rewrite Forall_forall in HF, Hnul. auto.
  - apply strchr_none in En. split; [lia|].
    apply Forall_forall. intros x Hx. rewrite Forall_forall in En, Hnul. auto.
Qed.

Lemma dns_scan_values h size n :
  forall ps d1 d2, (length ps <= n)%nat ->
  dns_value size d1 -> dns_value size d2 -> (d1 = [] -> d2 = []) ->
  dns_value size (fst (dns_scan h size ps d1 d2)) /\
  dns_value size (snd (dns_scan h size ps d1 d2)) /\
  (fst (dns_scan h size ps d1 d2) = [] -> snd (dns_scan h size ps d1 d2) = []).
Proof.
  induction n as [|n IH]; intros ps d1 d2 Hlen H1 H2 H12.
  { destruct ps; [|simpl in Hlen; lia]. cbn. auto. }
  destruct ps as [|p1 ps]; [cbn; auto|]. cbn [dns_scan].
  destruct (nonempty d1) eqn:En; [cbn [fst snd]; auto|].
  apply nonempty_false in En. subst d1. specialize (H12 eq_refl). subst d2.
  destruct ps as [|p2 rest].
  - cbn [fst snd]. repeat split; try apply read_prop_value; try apply H1; try apply H2.
  - apply IH.
    + cbn [length] in Hlen. lia.
    + now apply read_prop_value.
    + destruct (nonempty (read_prop h size p1 [])); [now apply read_prop_value | exact H2].
    + intros E. rewrite E. reflexivity.
Qed.

Lemma nonempty_iff s : nonempty s = true <-> s <> [].
Proof. destruct s; cbn; split; congruence. Qed.

(** X10.  On a host that is not Android, [android_fill_dns_from_props]
    returns -1 and leaves both buffers as they are.  On an Android host,
    for buffers of at least one byte, it returns 0 exactly when it leaves
    a first server in [dns1], and -1 otherwise; what it leaves in [dns1]
    and [dns2] fits the buffers with their terminating NUL and holds no
    newline; and it leaves no second server without a first one. *)
Theorem dns_props_values h dns1 dns2 size :
  (1 <= size)%nat ->
  let r := android_fill_dns_from_props h dns1 dns2 size in
  (is_android h = false -> r = (-1, (dns1, dns2))) /\
  (is_android h = true ->
   (fst r = 0 <-> fst (snd r) <> []) /\ (fst r = 0 \/ fst r = -1) /\
   dns_value size (fst (snd r)) /\ dns_value size (snd (snd r)) /\
   (fst (snd r) = [] -> snd (snd r) = [])).
Proof.
  intros Hsize. cbv zeta. unfold android_fill_dns_from_props.
  destruct (is_android h); cbn [negb]; split; try discriminate; try reflexivity.
  intros _.
  assert (H0 : dns_value size []) by (split; [simpl; lia | constructor]).
  destruct (dns_scan_values h size (length props) props [] [] (le_n _) H0 H0 (fun _ => eq_refl))
    as (H1 & H2 & H12).
  destruct (dns_scan h size props [] []) as [d1 d2]. cbn [fst snd] in *.
  split; [|split; [|split; [exact H1 | split; [exact H2 | exact H12]]]].
  - split.
    + intros E. apply nonempty_iff. destruct (nonempty d1); [reflexivity | discriminate].
    + intros E. apply nonempty_iff in E. now rewrite E.
  - destruct (nonempty d1); auto.
Qed.

Lemma dns_props_values_witness :
  let h := {| android_root_env := true; app_process_exists := true;
              getprop := fun p => if String.eqb p "net.dns1"
                                  then Some (s2l "10.0.0.1" ++ [NL]) else Some [NL] |} in
  android_fill_dns_from_props h (s2l "8.8.8.8") (s2l "8.8.4.4") 64 = (0, (s2l "10.0.0.1", [])) /\
  dns_value 64 (fst (snd (android_fill_dns_from_props h (s2l "8.8.8.8") (s2l "8.8.4.4") 64))).
Proof.
  intros h. split; [vm_compute; reflexivity|].
  destruct (dns_props_values h (s2l "8.8.8.8") (s2l "8.8.4.4") 64) as [_ H]; [lia|].
  destruct (H eq_refl) as (_ & _ & H1 & _). exact H1.
Defined.



(** *** The files of the Identity Writer *)

Lemma identity_files_lookup cfg h (fs : gmap string (list ascii)) k :
  files (identity_run cfg h fs) !! k =
  if decide (k = "/etc/group"%string) then group_step (is_android h) (fs !! k)
  else if decide (k = "/etc/resolv.conf"%string) then Some (resolv_text h)
  else if decide (k = "/etc/hosts"%string)
       then Some (snprintf 1024 (hosts_text (hostname cfg)))
  else if decide (k = "/etc/hostname"%string)
       then (if nonempty (hostname cfg)
             then Some (snprintf 128 (hostname cfg ++ [NL])) else fs !! k)
  else fs !! k.
Proof.
  unfold identity_run, fix_networking_rootfs, resolv_text.
  destruct (if is_android h then _ else _) as [dns1 dns2]. cbn [snd].
  set (r := if nonempty dns2 then _ else _).
  set (w1 := if nonempty (hostname cfg) then _ else _).
  assert (H1 : forall p, files w1 !! p =
                 if decide (p = "/etc/hostname"%string)
                 then (if nonempty (hostname cfg)
                       then Some (snprintf 128 (hostname cfg ++ [NL])) else fs !! p)
                 else fs !! p).
  { intros p. unfold w1. destruct (nonempty (hostname cfg)); cbn [files write_file sethostname].
    - destruct (decide (p = "/etc/hostname"%string)) as [-> | Hp].
      + apply lookup_insert_eq.
      + now rewrite lookup_insert_ne by congruence.
    - now destruct (decide (p = "/etc/hostname"%string)). }
  set (w3 := write_file "/etc/resolv.conf" r (write_file "/etc/hosts" _ w1)).
  assert (H3 : forall p, files w3 !! p =
                 if decide (p = "/etc/resolv.conf"%string) then Some r
                 else if decide (p = "/etc/hosts"%string)
                      then Some (snprintf 1024 (hosts_text (hostname cfg)))
                 else files w1 !! p).
  { intros p. unfold w3, write_file. cbn [files].
    destruct (decide (p = "/etc/resolv.conf"%string)) as [-> | Hp1]; [apply lookup_insert_eq|].
    rewrite lookup_insert_ne by congruence.
    destruct (decide (p = "/etc/hosts"%string)) as [-> | Hp2]; [apply lookup_insert_eq|].
    now rewrite lookup_insert_ne by congruence. }
  assert (Hg : files w3 !! "/etc/group"%string = fs !! "/etc/group"%string).
  { rewrite H3, H1. reflexivity. }
  unfold group_step.
  destruct (decide (k = "/etc/group"%string)) as [-> | Hk].
  - destruct (is_android h); cbn [andb].
    2:{ rewrite Hg. now destruct (fs !! "/etc/group"%string). }
    unfold grep_file. rewrite Hg.
    destruct (fs !! "/etc/group"%string) as [g|] eqn:Eg; [|exact Hg].
    destruct (contains (s2l "aid_inet") g); cbn [negb]; [exact Hg|].
    unfold append_file. cbn [files]. rewrite Hg. apply lookup_insert_eq.
  - assert (Hrest : files w3 !! k =
                    if decide (k = "/etc/resolv.conf"%string) then Some r
                    else if decide (k = "/etc/hosts"%string)
                         then Some (snprintf 1024 (hosts_text (hostname cfg)))
                    else if decide (k = "/etc/hostname"%string)
                         then (if nonempty (hostname cfg)
                               then Some (snprintf 128 (hostname cfg ++ [NL])) else fs !! k)
                    else fs !! k).
    { rewrite H3. destruct (decide (k = "/etc/resolv.conf"%string)); [reflexivity|].
      destruct (decide (k = "/etc/hosts"%string)); [reflexivity|]. apply H1. }
    destruct (is_android h); [|exact Hrest].
    destruct (files w3 !! "/etc/group"%string); [|exact Hrest].
    destruct (negb (grep_file w3 "/etc/group" (s2l "aid_inet"))); [|exact Hrest].
    unfold append_file. cbn [files]. rewrite lookup_insert_ne by congruence. exact Hrest.
Qed.

Lemma contains_app_r needle a b :
  contains needle b = true -> contains needle (a ++ b) = true.
Proof.
  intros Hb. induction a as [|x a IH]; [exact Hb|].
  cbn [app contains]. rewrite IH. apply orb_true_r.
Qed.

Lemma group_step_again a o : group_step a (group_step a o) = group_step a o.
Proof.
  unfold group_step. destruct o as [g|]; [|reflexivity].
  destruct a; cbn [andb]; [|reflexivity].
  destruct (contains (s2l "aid_inet") g) eqn:E; cbn [negb].
  - now rewrite E.
  - rewrite contains_app_r by (vm_compute; reflexivity). reflexivity.
Qed.

(** X11.  [fix_networking_rootfs] returns 0.  It touches no file other than
    /etc/hostname, /etc/hosts, /etc/resolv.conf and /etc/group; it never
    creates /etc/group, leaves it alone on a host that is not Android, and
    otherwise at most appends to it.  Run again on the files it left, with
    the same configuration on the same host, it leaves them as they are:
    the network groups are appended once. *)
Theorem identity_files_settle cfg h (fs : gmap string (list ascii)) :
  let out := files (identity_run cfg h fs) in
  fst (fix_networking_rootfs cfg h fs) = 0 /\
  (forall p, ~ In p ["/etc/hostname"; "/etc/hosts"; "/etc/resolv.conf"; "/etc/group"]%string ->
             out !! p = fs !! p) /\
  (fs !! "/etc/group"%string = None -> out !! "/etc/group"%string = None) /\
  (is_android h = false -> out !! "/etc/group"%string = fs !! "/etc/group"%string) /\
  (forall g, fs !! "/etc/group"%string = Some g ->
             out !! "/etc/group"%string = Some g \/
             out !! "/etc/group"%string = Some (g ++ aid_groups) /\
             contains (s2l "aid_inet") g = false) /\
  files (identity_run cfg h out) = out.
Proof.
  cbv zeta. split.
  { unfold fix_networking_rootfs.
    destruct (if is_android h then _ else _) as [dns1 dns2]. reflexivity. }
  split; [|split; [|split; [|split]]].
  - intros p Hp. rewrite identity_files_lookup.
    repeat (destruct (decide _) as [-> | _]; [exfalso; apply Hp; simpl; tauto|]).
    reflexivity.
  - intros Hg. rewrite identity_files_lookup, decide_True by reflexivity. now rewrite Hg.
  - intros Ha. rewrite identity_files_lookup, decide_True, Ha by reflexivity.
    now destruct (fs !! "/etc/group"%string).
  - intros g Hg. rewrite identity_files_lookup, decide_True, Hg by reflexivity.
    cbn [group_step].
    destruct (is_android h); cbn [andb]; [|now left].
    destruct (contains (s2l "aid_inet") g); cbn [negb]; [now left | right; split; reflexivity].
  - apply map_eq. intros k. rewrite identity_files_lookup.
    destruct (decide (k = "/etc/group"%string)) as [-> | H1].
    { rewrite identity_files_lookup, decide_True by reflexivity. apply group_step_again. }
    destruct (decide (k = "/etc/resolv.conf"%string)) as [-> | H2].
    { rewrite identity_files_lookup. reflexivity. }
    destruct (decide (k = "/etc/hosts"%string)) as [-> | H3].
    { rewrite identity_files_lookup. reflexivity. }
    destruct (decide (k = "/etc/hostname"%string)) as [-> | H4].
    { rewrite !identity_files_lookup.
      rewrite !(decide_False (P := "/etc/hostname"%string = _)) by discriminate.
      rewrite !decide_True by reflexivity.
      now destruct (nonempty (hostname cfg)). }
    reflexivity.
Qed.

Example identity_files_android :
  let fs : gmap string (list ascii) := {[ "/etc/group"%string := s2l "root:x:0:" ++ [NL] ]} in
  let out := files (identity_run (config_with_hostname (s2l "box")) android_no_dns fs) in
  out !! "/etc/group"%string = Some (s2l "root:x:0:" ++ [NL] ++ aid_groups) /\
  files (identity_run (config_with_hostname (s2l "box")) android_no_dns out) = out.
Proof.
  cbv zeta. split; [vm_compute; reflexivity|].
  apply identity_files_settle.
Qed.


Lemma servers_fit h :
  (length (fst (servers h)) < 64)%nat /\ (length (snd (servers h)) < 64)%nat.
Proof.
  unfold servers. destruct (is_android h) eqn:Ea.
  - unfold android_fill_dns_from_props. rewrite Ea. cbn [negb].
    assert (H0 : dns_value 64 []) by (split; [simpl; lia | constructor]).
    destruct (dns_scan_values h 64 (length props) props [] [] (le_n _) H0 H0 (fun _ => eq_refl))
      as ((H1 & _) & (H2 & _) & _).
    destruct (dns_scan h 64 props [] []) as [d1 d2]. cbn [fst snd] in *. now split.
  - cbn. lia.
Qed.

(** X12.  No buffer of [fix_networking_rootfs] cuts a text short when the
    hostname has at most 126 bytes: /etc/hosts holds its three lines,
    /etc/hostname (written for a hostname that is not empty) the hostname
    and a newline, and /etc/resolv.conf one [nameserver] line for the first
    server and, when there is a second server, one for it, the servers
    being the defaults on a host that is not Android and what
    [android_fill_dns_from_props] left in the buffers on Android. *)
Theorem identity_texts_whole cfg h (fs : gmap string (list ascii)) :
  (length (hostname cfg) <= 126)%nat ->
  let out := files (identity_run cfg h fs) in
  out !! "/etc/hosts"%string = Some (hosts_text (hostname cfg)) /\
  (hostname cfg <> [] ->
   out !! "/etc/hostname"%string = Some (hostname cfg ++ [NL])) /\
  out !! "/etc/resolv.conf"%string =
    Some (s2l "nameserver " ++ fst (servers h) ++ [NL] ++
          if nonempty (snd (servers h))
          then s2l "nameserver " ++ snd (servers h) ++ [NL] else []).
Proof.
  intros Hlen. cbv zeta. rewrite !identity_files_lookup.
  rewrite !(decide_False (P := _ = "/etc/group"%string)) by discriminate.
  rewrite !(decide_False (P := "/etc/hosts"%string = "/etc/resolv.conf"%string)) by discriminate.
  rewrite !(decide_False (P := "/etc/hostname"%string = "/etc/resolv.conf"%string)) by discriminate.
  rewrite !(decide_False (P := "/etc/hostname"%string = "/etc/hosts"%string)) by discriminate.
  rewrite !decide_True by reflexivity.
  split; [|split].
  - f_equal. unfold snprintf. apply firstn_all2.
    unfold hosts_text. rewrite !length_app. cbn [length s2l list_ascii_of_string]. lia.
  - intros Hne. apply nonempty_iff in Hne. rewrite Hne. f_equal.
    unfold snprintf. apply firstn_all2. rewrite length_app. cbn [length]. lia.
  - f_equal. unfold resolv_text. fold (servers h).
    destruct (servers_fit h) as [H1 H2].
    destruct (servers h) as [d1 d2]. cbn [fst snd] in *.
    destruct (nonempty d2); unfold snprintf; rewrite firstn_all2.
    + reflexivity.
    + rewrite !length_app. cbn [length s2l list_ascii_of_string]. lia.
    + now rewrite app_nil_r.
    + rewrite !length_app. cbn [length s2l list_ascii_of_string]. lia.
Qed.

Lemma identity_texts_whole_witness :
  files (identity_run (config_with_hostname (s2l "box")) linux_host ∅)
    !! "/etc/hostname"%string = Some (s2l "box" ++ [NL]).
Proof.
  destruct (identity_texts_whole (config_with_hostname (s2l "box")) linux_host ∅)
    as (_ & H & _); [simpl; lia|].
  apply H. discriminate.
Defined.

End IdentityFacts.

(** ** mount.c: what the device loop keeps *)
Module DeviceFacts.
Import CLib Config Mount Devices.













(** *** Failure of the set-up, and the TTY placeholders *)

(** X13.  [setup_dev] fails exactly when the mount on <rootfs>/dev fails
    with an error other than EBUSY, and then leaves /dev as it was; no
    failure of mknod, of a bind mount or of a link makes it fail. *)
Theorem setup_dev_fails_with_mount e host_dev hw_access (dev : gmap string node) :
  (fst (setup_dev e host_dev hw_access dev) = -1 <-> dev_mount e = MountFail) /\
  (fst (setup_dev e host_dev hw_access dev) = 0 <-> dev_mount e <> MountFail) /\
  (dev_mount e = MountFail -> snd (setup_dev e host_dev hw_access dev) = dev).
Proof.
  unfold setup_dev, create_devices.
  destruct (negb (hw_access =? 0)), (dev_mount e); cbn [fst snd];
    repeat split; intros; try reflexivity; try discriminate; congruence.
Qed.





Lemma tty_name_digits k : s2l (tty_name k) = s2l "tty" ++ fmt_d (Z.of_nat k).
Proof. unfold tty_name, l2s, s2l. apply list_ascii_of_string_of_list_ascii. Qed.

Lemma tty_name_inv k (name : string) (n : Z) :
  Z.of_nat k < 2 ^ 31 -> tty_name k = name ->
  s2l name = s2l "tty" ++ fmt_d n -> - 2 ^ 31 <= n < 2 ^ 31 -> Z.of_nat k = n.
Proof.
  intros Hk <- E Hn. rewrite tty_name_digits in E.
  apply app_inv_head in E. apply (f_equal atoi) in E.
  rewrite !HardwareFacts.atoi_fmt_d in E by lia. exact E.
Qed.



End DeviceFacts.

(** ** terminal.c *)
Module TerminalFacts.
Import CLib Config Terminal.

(** *** The TTY list *)

Lemma join_names_spaced t ttys :
  join_names (map name (t :: ttys)) = name t ++ spaced ttys.
Proof.
  revert t. induction ttys as [|u ttys IH]; intros t.
  - cbn. now rewrite app_nil_r.
  - change (join_names (map name (t :: u :: ttys)))
      with (name t ++ s2l " " ++ join_names (map name (u :: ttys))).
    rewrite IH. unfold spaced. cbn [map concat]. now rewrite <- !app_assoc.
Qed.

(** A bounded [strncat] onto a truncated text truncates the longer text. *)
Lemma strncat_firstn size acc src :
  1 <= size < 2 ^ 64 ->
  strncat (firstn (Z.to_nat (size - 1)) acc) src
          (room size (firstn (Z.to_nat (size - 1)) acc)) =
  firstn (Z.to_nat (size - 1)) (acc ++ src).
Proof.
  intros Hs. unfold strncat, room. set (N := Z.to_nat (size - 1)).
  rewrite length_firstn.
  assert (Hroom : Z.to_nat ((size - Z.of_nat (Nat.min N (length acc)) - 1) mod 2 ^ 64)
                  = (N - length acc)%nat).
  { rewrite Z.mod_small by lia. lia. }
  rewrite Hroom. now rewrite firstn_app.
Qed.

Lemma ttys_string_loop_later ttys i size acc :
  1 <= size < 2 ^ 64 -> (0 < i)%nat ->
  ttys_string_loop ttys i size (firstn (Z.to_nat (size - 1)) acc) =
  firstn (Z.to_nat (size - 1)) (acc ++ spaced ttys).
Proof.
  intros Hs. revert i acc. induction ttys as [|t ttys IH]; intros i acc Hi.
  - unfold spaced. cbn. now rewrite app_nil_r.
  - cbn [ttys_string_loop]. apply Nat.ltb_lt in Hi as Hi'. rewrite Hi'.
    rewrite !strncat_firstn by exact Hs. rewrite IH by lia.
    unfold spaced. cbn [map concat]. now rewrite <- !app_assoc.
Qed.

(** X19.  For a buffer of [size] bytes, [size] at least 1, and an array of
    at least [count] entries, the buffer holds the first [size - 1] bytes
    of the first [count] slave names joined by single spaces: the whole
    list when it fits, and never more than the buffer takes. *)
Theorem ttys_string_is_truncated_join ttys count size :
  1 <= size < 2 ^ 64 -> count <= Z.of_nat (length ttys) ->
  let names := map name (firstn (Z.to_nat count) ttys) in
  build_container_ttys_string ttys count size =
    firstn (Z.to_nat (size - 1)) (join_names names) /\
  Z.of_nat (length (build_container_ttys_string ttys count size)) < size /\
  (Z.of_nat (length (join_names names)) < size ->
   build_container_ttys_string ttys count size = join_names names).
Proof.
  intros Hs _. cbv zeta.
  assert (E : build_container_ttys_string ttys count size =
              firstn (Z.to_nat (size - 1))
                (join_names (map name (firstn (Z.to_nat count) ttys)))).
  { unfold build_container_ttys_string.
    destruct (firstn (Z.to_nat count) ttys) as [|t rest]; [now rewrite firstn_nil|].
    cbn [ttys_string_loop Nat.ltb Nat.leb].
    pose proof (strncat_firstn size [] (name t) Hs) as H0.
    rewrite firstn_nil, app_nil_l in H0. rewrite H0.
    rewrite ttys_string_loop_later by (auto; lia).
    now rewrite join_names_spaced. }
  rewrite E. split; [reflexivity|]. split.
  - rewrite length_firstn. lia.
  - intros Hfit. apply firstn_all2. lia.
Qed.

Lemma ttys_string_is_truncated_join_witness :
  let ttys := [ {| master := 3; slave := 4; name := s2l "/dev/pts/0" |};
                {| master := 5; slave := 6; name := s2l "/dev/pts/1" |} ] in
  build_container_ttys_string ttys 2 256 = s2l "/dev/pts/0 /dev/pts/1" /\
  build_container_ttys_string ttys 2 14 = s2l "/dev/pts/0 /d".
Proof.
  cbv zeta. split.
  - destruct (ttys_string_is_truncated_join
                [ {| master := 3; slave := 4; name := s2l "/dev/pts/0" |};
                  {| master := 5; slave := 6; name := s2l "/dev/pts/1" |} ] 2 256)
      as (_ & _ & H); [lia | simpl; lia |].
    apply H. vm_compute. reflexivity.
  - destruct (ttys_string_is_truncated_join
                [ {| master := 3; slave := 4; name := s2l "/dev/pts/0" |};
                  {| master := 5; slave := 6; name := s2l "/dev/pts/1" |} ] 2 14)
      as (H & _); [lia | simpl; lia |].
    rewrite H. vm_compute. reflexivity.
Defined.


(** *** The bind-mount targets *)

Lemma to_int_small v : - 2 ^ 31 <= v < 2 ^ 31 -> to_int v = v.
Proof. intros H. unfold to_int. rewrite Z.mod_small by lia. lia. Qed.

(** The 32-byte buffer takes the target of every round. *)
Lemma tty_target_whole i :
  0 <= i < 2 ^ 31 - 1 -> tty_target i = s2l "/dev/tty" ++ fmt_d (i + 1).
Proof.
  intros Hi. unfold tty_target, snprintf. rewrite to_int_small by lia.
  apply firstn_all2. rewrite length_app.
  pose proof (HardwareFacts.fmt_d_length (i + 1)). simpl. lia.
Qed.

Lemma setup_ttys_loop_lookup ttys i k t :
  ttys !! k = Some t ->
  setup_ttys_loop ttys i !! k = Some (name t, tty_target (i + Z.of_nat k)).
Proof.
  revert i k. induction ttys as [|u ttys IH]; intros i k Hk; [discriminate|].
  destruct k as [|k]; cbn [setup_ttys_loop].
  - injection Hk as ->. cbn [lookup list_lookup]. now rewrite Z.add_0_r.
  - change (setup_ttys_loop ttys (i + 1) !! k =
            Some (name t, tty_target (i + Z.of_nat (S k)))).
    change (ttys !! k = Some t) in Hk.
    rewrite (IH (i + 1) k Hk). do 3 f_equal. lia.
Qed.

Lemma setup_ttys_loop_length ttys i : length (setup_ttys_loop ttys i) = length ttys.
Proof. revert i. induction ttys as [|u ttys IH]; intros i; cbn; [|rewrite IH]; reflexivity. Qed.

(** X18.  With an array of at least [count] entries, [count] an [int],
    [ds_terminal_setup_ttys] returns 0 and asks for [count] bind mounts:
    the mount of round [k] (from 0) puts the slave of entry [k] on
    /dev/tty<k+1>, the number in decimal and the 32-byte buffer cutting
    nothing off. *)
Theorem setup_ttys_mounts ttys count :
  0 <= count <= Z.of_nat (length ttys) -> count < 2 ^ 31 ->
  fst (ds_terminal_setup_ttys ttys count) = 0 /\
  length (snd (ds_terminal_setup_ttys ttys count)) = Z.to_nat count /\
  forall k t, (k < Z.to_nat count)%nat -> ttys !! k = Some t ->
    snd (ds_terminal_setup_ttys ttys count) !! k =
    Some (name t, s2l "/dev/" ++ s2l (Mount.tty_name (S k))).
Proof.
  intros Hc Hi. unfold ds_terminal_setup_ttys. cbn [fst snd].
  split; [reflexivity|]. split.
  - rewrite setup_ttys_loop_length, length_firstn. lia.
  - intros k t Hk Ht.
    rewrite (setup_ttys_loop_lookup _ 0 k t) by (now rewrite lookup_take_lt).
    rewrite tty_target_whole by lia.
    unfold Mount.tty_name, l2s, s2l.
    rewrite list_ascii_of_string_of_list_ascii.
    replace (0 + Z.of_nat k + 1) with (Z.of_nat (S k)) by lia. reflexivity.
Qed.

Lemma setup_ttys_mounts_witness :
  let ttys := [ {| master := 3; slave := 4; name := s2l "/dev/pts/0" |};
                {| master := 5; slave := 6; name := s2l "/dev/pts/1" |} ] in
  snd (ds_terminal_setup_ttys ttys 2) !! 1%nat =
  Some (s2l "/dev/pts/1", s2l "/dev/tty2").
Proof.
  cbv zeta.
  destruct (setup_ttys_mounts
              [ {| master := 3; slave := 4; name := s2l "/dev/pts/0" |};
                {| master := 5; slave := 6; name := s2l "/dev/pts/1" |} ] 2)
    as (_ & _ & H); [simpl; lia | lia |].
  apply (H 1%nat {| master := 5; slave := 6; name := s2l "/dev/pts/1" |});
    [simpl; lia | reflexivity].
Defined.


(** *** Raw mode *)

Lemma tcflag_high f n : tcflag f -> 32 <= n -> Z.testbit f n = false.
Proof.
  intros Hf Hn. rewrite <- (Z.mod_small f (2 ^ 32)) by exact Hf.
  apply Z.mod_pow2_bits_high. lia.
Qed.

Lemma clear_bits_bits f m n :
  tcflag f -> 0 <= n ->
  Z.testbit (clear_bits f m) n = Z.testbit f n && negb (Z.testbit m n).
Proof.
  intros Hf Hn. unfold clear_bits. rewrite Z.land_spec.
  destruct (Z.lt_ge_cases n 32) as [Hlt | Hge].
  - rewrite Z.mod_pow2_bits_low by lia. now rewrite Z.lnot_spec by lia.
  - rewrite (tcflag_high f n Hf Hge). reflexivity.
Qed.

Lemma set_bits_bits f m n : Z.testbit (set_bits f m) n = Z.testbit f n || Z.testbit m n.
Proof. apply Z.lor_spec. Qed.

Lemma tcflag_bits f : 0 <= f -> (forall n, 32 <= n -> Z.testbit f n = false) -> tcflag f.
Proof.
  intros H0 Hb. split; [exact H0|].
  assert (E : f = f mod 2 ^ 32).
  { apply Z.bits_inj'. intros n Hn. destruct (Z.lt_ge_cases n 32).
    - now rewrite Z.mod_pow2_bits_low by lia.
    - rewrite Z.mod_pow2_bits_high by lia. now apply Hb. }
  rewrite E. apply Z.mod_pos_bound. lia.
Qed.

Lemma clear_bits_tcflag f m : tcflag f -> tcflag (clear_bits f m).
Proof.
  intros Hf. apply tcflag_bits.
  - unfold clear_bits. apply Z.land_nonneg. left. apply Hf.
  - intros n Hn. rewrite clear_bits_bits by (auto; lia).
    now rewrite (tcflag_high f n Hf Hn).
Qed.

Lemma set_bits_tcflag f m : tcflag f -> tcflag m -> tcflag (set_bits f m).
Proof.
  intros Hf Hm. apply tcflag_bits.
  - unfold set_bits. apply Z.lor_nonneg. split; [apply Hf | apply Hm].
  - intros n Hn. rewrite set_bits_bits.
    now rewrite (tcflag_high f n Hf Hn), (tcflag_high m n Hm Hn).
Qed.

Ltac bit_cases n :=
  let H := fresh in
  assert (H : In n (map Z.of_nat (seq 0 16)) \/ 16 <= n) by (simpl; lia);
  destruct H as [H | H];
  [simpl in H; repeat (destruct H as [<- | H]); try contradiction |].

Lemma small_mask_high m n : 0 <= m < 2 ^ 16 -> 16 <= n -> Z.testbit m n = false.
Proof.
  intros Hm Hn. rewrite <- (Z.mod_small m (2 ^ 16)) by exact Hm.
  apply Z.mod_pow2_bits_high. lia.
Qed.

Ltac eval_masks :=
  repeat match goal with
  | |- context [Z.testbit ?m ?k] =>
      lazymatch m with
      | c_iflag _ => fail
      | c_oflag _ => fail
      | c_lflag _ => fail
      | _ => let v := eval vm_compute in (Z.testbit m k) in
             change (Z.testbit m k) with v
      end
  | |- context [existsb ?f ?l] =>
      let v := eval vm_compute in (existsb f l) in change (existsb f l) with v
  | |- context [Z.eqb ?a ?b] =>
      let v := eval vm_compute in (Z.eqb a b) in change (Z.eqb a b) with v
  end.

Lemma new_tios_bits t n :
  tcflag (c_iflag t) -> tcflag (c_oflag t) -> tcflag (c_lflag t) -> 0 <= n ->
  Z.testbit (c_iflag (new_tios t)) n = iflag_bit (c_iflag t) n /\
  Z.testbit (c_lflag (new_tios t)) n = lflag_bit (c_lflag t) n /\
  Z.testbit (c_oflag (new_tios t)) n = oflag_bit (c_oflag t) n.
Proof.
  intros Hi Ho Hl Hn. unfold new_tios, iflag_bit, lflag_bit, oflag_bit.
  cbn [c_iflag c_lflag c_oflag].
  assert (HI : tcflag IGNPAR) by (unfold tcflag, IGNPAR; lia).
  repeat (rewrite ?set_bits_bits;
          rewrite ?clear_bits_bits by (auto using clear_bits_tcflag, set_bits_tcflag)).
  bit_cases n.
  1-16: eval_masks; cbn [negb andb orb];
    rewrite ?andb_true_r, ?andb_false_r, ?orb_false_r, ?orb_true_r;
    repeat split; reflexivity.
  assert (Hm : forall m, 0 <= m < 2 ^ 16 -> Z.testbit m n = false)
    by (intros m Hm; now apply small_mask_high).
  repeat match goal with
  | |- context [Z.testbit ?m n] =>
      lazymatch m with
      | c_iflag _ => fail
      | c_oflag _ => fail
      | c_lflag _ => fail
      | _ => rewrite (Hm m) by (vm_compute; split; [intros ?; discriminate | reflexivity])
      end
  end.
  assert (Hne : forall k, 0 <= k < 16 -> (n =? k) = false)
    by (intros k Hk; apply Z.eqb_neq; lia).
  cbn [existsb]. rewrite !Hne by lia.
  cbn [orb negb]. rewrite ?andb_true_r, ?orb_false_r. repeat split; reflexivity.
Qed.


Lemma land_bit_clear x k :
  0 <= k -> Z.testbit x k = false -> Z.land x (2 ^ k) = 0.
Proof.
  intros Hk Hb. apply Z.bits_inj'. intros n Hn.
  rewrite Z.land_spec, Z.bits_0, Z.pow2_bits_eqb by exact Hk.
  destruct (Z.eqb_spec k n) as [<- | _]; [now rewrite Hb | apply andb_false_r].
Qed.

Lemma land_bit_set x k :
  0 <= k -> Z.testbit x k = true -> Z.land x (2 ^ k) = 2 ^ k.
Proof.
  intros Hk Hb. apply Z.bits_inj'. intros n Hn.
  rewrite Z.land_spec, Z.pow2_bits_eqb by exact Hk.
  destruct (Z.eqb_spec k n) as [<- | _]; [now rewrite Hb | apply andb_false_r].
Qed.

Lemma new_tios_tcflag t :
  tcflag (c_iflag t) -> tcflag (c_oflag t) -> tcflag (c_lflag t) ->
  tcflag (c_iflag (new_tios t)) /\ tcflag (c_oflag (new_tios t)) /\
  tcflag (c_lflag (new_tios t)).
Proof.
  intros Hi Ho Hl. unfold new_tios. cbn [c_iflag c_oflag c_lflag].
  assert (HI : tcflag IGNPAR) by (unfold tcflag, IGNPAR; lia).
  assert (HO : tcflag OPOST) by (unfold tcflag, OPOST; lia).
  auto using clear_bits_tcflag, set_bits_tcflag.
Qed.

Lemma new_tios_again t :
  tcflag (c_iflag t) -> tcflag (c_oflag t) -> tcflag (c_lflag t) ->
  new_tios (new_tios t) = new_tios t.
Proof.
  intros Hi Ho Hl.
  destruct (new_tios_tcflag t Hi Ho Hl) as (Hi' & Ho' & Hl').
  assert (Ei : c_iflag (new_tios (new_tios t)) = c_iflag (new_tios t)).
  { apply Z.bits_inj'. intros n Hn.
    destruct (new_tios_bits (new_tios t) n Hi' Ho' Hl' Hn) as (E1 & _).
    destruct (new_tios_bits t n Hi Ho Hl Hn) as (E2 & _).
    rewrite E1. unfold iflag_bit at 1. rewrite E2. unfold iflag_bit.
    destruct (Z.eqb_spec n 2) as [-> | _]; [reflexivity|]. cbn [orb].
    now destruct (Z.testbit (c_iflag t) n), (existsb (Z.eqb n) _). }
  assert (El : c_lflag (new_tios (new_tios t)) = c_lflag (new_tios t)).
  { apply Z.bits_inj'. intros n Hn.
    destruct (new_tios_bits (new_tios t) n Hi' Ho' Hl' Hn) as (_ & E1 & _).
    destruct (new_tios_bits t n Hi Ho Hl Hn) as (_ & E2 & _).
    rewrite E1. unfold lflag_bit at 1. rewrite E2. unfold lflag_bit.
    now destruct (Z.testbit (c_lflag t) n), (existsb (Z.eqb n) _). }
  assert (Eo : c_oflag (new_tios (new_tios t)) = c_oflag (new_tios t)).
  { apply Z.bits_inj'. intros n Hn.
    destruct (new_tios_bits (new_tios t) n Hi' Ho' Hl' Hn) as (_ & _ & E1).
    destruct (new_tios_bits t n Hi Ho Hl Hn) as (_ & _ & E2).
    rewrite E1. unfold oflag_bit at 1. rewrite E2. unfold oflag_bit.
    destruct (Z.eqb_spec n 0) as [-> | _]; [reflexivity|]. cbn [orb].
    now destruct (Z.testbit (c_oflag t) n), (n =? 2). }
  assert (Ec : c_cc (new_tios (new_tios t)) = c_cc (new_tios t)).
  { unfold new_tios. cbn [c_cc].
    rewrite (list_insert_insert_ne _ VMIN VTIME) by discriminate.
    rewrite (list_insert_insert_eq _ VTIME).
    now rewrite (list_insert_insert_eq _ VMIN). }
  destruct (new_tios (new_tios t)) as [i1 o1 c1 l1 cc1] eqn:E1.
  destruct (new_tios t) as [i2 o2 c2 l2 cc2] eqn:E2.
  cbn [c_iflag c_oflag c_lflag c_cc] in *. subst.
  f_equal. unfold new_tios in E1. now injection E1.
Qed.

(** X20.  When [ds_setup_tios] returns 0 on a terminal whose flag words are
    32-bit values and whose [c_cc] has room for VMIN, [*old] holds the
    attributes the terminal had, and the terminal has them with: the input
    flags ISTRIP, INLCR, IGNCR, ICRNL, IXON, IXANY, IXOFF, IUCLC clear and
    IGNPAR set; the local flags TOSTOP, ISIG, ICANON, ECHO, ECHOE, ECHOK,
    ECHONL, IEXTEN clear; ONLCR clear and OPOST set; every other flag bit,
    the control flags and the other control characters as before; VMIN 1
    and VTIME 0.  Applying the change to the result changes nothing. *)
Theorem setup_tios_raw_mode fd old :
  tcflag (c_iflag (attrs fd)) -> tcflag (c_oflag (attrs fd)) ->
  tcflag (c_lflag (attrs fd)) -> (VMIN < length (c_cc (attrs fd)))%nat ->
  tios_ret (ds_setup_tios fd old) = 0 ->
  let t := attrs fd in
  let t' := attrs_after (ds_setup_tios fd old) in
  saved (ds_setup_tios fd old) = t /\
  Forall (fun b => Z.land (c_iflag t') b = 0) input_cleared /\
  Z.land (c_iflag t') IGNPAR = IGNPAR /\
  Forall (fun b => Z.land (c_lflag t') b = 0) local_cleared /\
  Z.land (c_oflag t') ONLCR = 0 /\ Z.land (c_oflag t') OPOST = OPOST /\
  (forall n, 0 <= n -> ~ In (2 ^ n) (IGNPAR :: input_cleared) ->
             Z.testbit (c_iflag t') n = Z.testbit (c_iflag t) n) /\
  (forall n, 0 <= n -> ~ In (2 ^ n) local_cleared ->
             Z.testbit (c_lflag t') n = Z.testbit (c_lflag t) n) /\
  (forall n, 0 <= n -> ~ In (2 ^ n) [ONLCR; OPOST] ->
             Z.testbit (c_oflag t') n = Z.testbit (c_oflag t) n) /\
  c_cflag t' = c_cflag t /\
  c_cc t' !! VMIN = Some 1 /\ c_cc t' !! VTIME = Some 0 /\
  (forall i, i <> VMIN -> i <> VTIME -> c_cc t' !! i = c_cc t !! i) /\
  new_tios t' = t'.
Proof.
  intros Hi Ho Hl Hcc Hret. cbv zeta.
  assert (E : ds_setup_tios fd old =
              {| tios_ret := 0; saved := attrs fd; attrs_after := new_tios (attrs fd);
                 sigtt_ignored := true |}).
  { unfold ds_setup_tios in *.
    destruct (isatty fd), (tcgetattr_fails fd), (tcsetattr_fails fd);
      cbn in Hret |- *; try discriminate; reflexivity. }
  rewrite E. cbn [saved attrs_after]. clear E Hret.
  set (t := attrs fd) in *.
  assert (Hb : forall n, 0 <= n ->
             Z.testbit (c_iflag (new_tios t)) n = iflag_bit (c_iflag t) n /\
             Z.testbit (c_lflag (new_tios t)) n = lflag_bit (c_lflag t) n /\
             Z.testbit (c_oflag (new_tios t)) n = oflag_bit (c_oflag t) n)
    by (intros n Hn; now apply new_tios_bits).
  assert (Hclear_i : forall k, 0 <= k -> existsb (Z.eqb k) [5; 6; 7; 8; 9; 10; 11; 12] = true ->
                     Z.land (c_iflag (new_tios t)) (2 ^ k) = 0).
  { intros k Hk Hex. apply land_bit_clear; [exact Hk|].
    destruct (Hb k Hk) as (-> & _). unfold iflag_bit. rewrite Hex.
    destruct (Z.eqb_spec k 2) as [-> | _]; [discriminate Hex|]. apply andb_false_r. }
  assert (Hclear_l : forall k, 0 <= k -> existsb (Z.eqb k) [0; 1; 3; 4; 5; 6; 8; 15] = true ->
                     Z.land (c_lflag (new_tios t)) (2 ^ k) = 0).
  { intros k Hk Hex. apply land_bit_clear; [exact Hk|].
    destruct (Hb k Hk) as (_ & -> & _). unfold lflag_bit. rewrite Hex.
    apply andb_false_r. }
  split; [reflexivity|]. split.
  { unfold input_cleared.
    repeat (constructor; [first
      [ apply (Hclear_i 5); [lia | reflexivity] | apply (Hclear_i 6); [lia | reflexivity]
      | apply (Hclear_i 7); [lia | reflexivity] | apply (Hclear_i 8); [lia | reflexivity]
      | apply (Hclear_i 9); [lia | reflexivity] | apply (Hclear_i 10); [lia | reflexivity]
      | apply (Hclear_i 11); [lia | reflexivity] | apply (Hclear_i 12); [lia | reflexivity] ]|]).
    constructor. }
  split.
  { apply (land_bit_set _ 2); [lia|]. destruct (Hb 2 ltac:(lia)) as (-> & _). reflexivity. }
  split.
  { unfold local_cleared.
    repeat (constructor; [first
      [ apply (Hclear_l 8); [lia | reflexivity] | apply (Hclear_l 0); [lia | reflexivity]
      | apply (Hclear_l 1); [lia | reflexivity] | apply (Hclear_l 3); [lia | reflexivity]
      | apply (Hclear_l 4); [lia | reflexivity] | apply (Hclear_l 5); [lia | reflexivity]
      | apply (Hclear_l 6); [lia | reflexivity] | apply (Hclear_l 15); [lia | reflexivity] ]|]).
    constructor. }
  split.
  { apply (land_bit_clear _ 2); [lia|]. destruct (Hb 2 ltac:(lia)) as (_ & _ & ->).
    unfold oflag_bit. cbn [Z.eqb orb negb]. apply andb_false_r. }
  split.
  { apply (land_bit_set _ 0); [lia|]. destruct (Hb 0 ltac:(lia)) as (_ & _ & ->).
    reflexivity. }
  split.
  { intros n Hn Hnot. destruct (Hb n Hn) as (-> & _). unfold iflag_bit.
    bit_cases n.
    1-16: first [ exfalso; apply Hnot; vm_compute; tauto
                | eval_masks; cbn [negb andb orb]; now rewrite ?andb_true_r ].
    assert (Hne : forall k, 0 <= k < 16 -> (n =? k) = false)
      by (intros k Hk; apply Z.eqb_neq; lia).
    cbn [existsb]. rewrite !Hne by lia. cbn [orb negb]. apply andb_true_r. }
  split.
  { intros n Hn Hnot. destruct (Hb n Hn) as (_ & -> & _). unfold lflag_bit.
    bit_cases n.
    1-16: first [ exfalso; apply Hnot; vm_compute; tauto
                | eval_masks; cbn [negb andb orb]; now rewrite ?andb_true_r ].
    assert (Hne : forall k, 0 <= k < 16 -> (n =? k) = false)
      by (intros k Hk; apply Z.eqb_neq; lia).
    cbn [existsb]. rewrite !Hne by lia. cbn [orb negb]. apply andb_true_r. }
  split.
  { intros n Hn Hnot. destruct (Hb n Hn) as (_ & _ & ->). unfold oflag_bit.
    destruct (Z.eqb_spec n 0) as [-> | _]; [exfalso; apply Hnot; vm_compute; tauto|].
    destruct (Z.eqb_spec n 2) as [-> | _]; [exfalso; apply Hnot; vm_compute; tauto|].
    cbn [orb negb]. apply andb_true_r. }
  split; [reflexivity|].
  unfold new_tios at 1 2 3. cbn [c_cc].
  split.
  { rewrite list_lookup_insert_ne by discriminate.
    apply list_lookup_insert_eq. exact Hcc. }
  split.
  { apply list_lookup_insert_eq. rewrite length_insert. unfold VMIN, VTIME in *. lia. }
  split.
  { intros i H1 H2. now rewrite !list_lookup_insert_ne by congruence. }
  now apply new_tios_again.
Qed.

Lemma setup_tios_raw_mode_witness :
  let cooked := {| c_iflag := 1280; c_oflag := 5; c_cflag := 191; c_lflag := 35387;
                   c_cc := [3; 28; 127; 21; 4; 0; 1; 0] |} in
  let fd := {| isatty := true; attrs := cooked;
               tcgetattr_fails := false; tcsetattr_fails := false |} in
  Z.land (c_lflag (attrs_after (ds_setup_tios fd cooked))) ICANON = 0 /\
  Z.land (c_oflag (attrs_after (ds_setup_tios fd cooked))) OPOST = OPOST.
Proof.
  cbv zeta.
  destruct (setup_tios_raw_mode
              {| isatty := true;
                 attrs := {| c_iflag := 1280; c_oflag := 5; c_cflag := 191;
                             c_lflag := 35387; c_cc := [3; 28; 127; 21; 4; 0; 1; 0] |};
                 tcgetattr_fails := false; tcsetattr_fails := false |}
              {| c_iflag := 1280; c_oflag := 5; c_cflag := 191; c_lflag := 35387;
                 c_cc := [3; 28; 127; 21; 4; 0; 1; 0] |})
    as (_ & _ & _ & Hl & _ & Ho & _);
    [unfold tcflag; simpl; lia | unfold tcflag; simpl; lia | unfold tcflag; simpl; lia
    | simpl; unfold VMIN; lia | reflexivity |].
  split; [|exact Ho].
  apply Forall_cons in Hl as [_ Hl]. apply Forall_cons in Hl as [_ Hl].
  apply Forall_cons in Hl as [Hl _]. exact Hl.
Defined.

End TerminalFacts.

(** ** mount.c: the mount point of a rootfs image *)
Module ImageFacts.
Import CLib Terminal TerminalFacts Image.

Lemma strrchr_Some s c p :
  strrchr s c = Some p ->
  exists a b, s = a ++ c :: b /\ p = c :: b /\ Forall (fun d => d <> c) b.
Proof.
  revert p. induction s as [|d s IH]; intros p H; [discriminate|].
  cbn [strrchr] in H. destruct (strrchr s c) as [q|] eqn:E.
  - injection H as <-. destruct (IH q eq_refl) as (a & b & -> & -> & Hb).
    now exists (d :: a), b.
  - destruct (Ascii.eqb_spec d c) as [-> | _]; [|discriminate].
    injection H as <-. exists [], s. repeat split.
    clear IH. induction s as [|x s IHs]; [constructor|].
    cbn [strrchr] in E. destruct (strrchr s c); [discriminate|].
    destruct (Ascii.eqb_spec x c); [discriminate|]. constructor; auto.
Qed.

Lemma strrchr_None s c : strrchr s c = None -> Forall (fun d => d <> c) s.
Proof.
  induction s as [|x s IH]; intros E; [constructor|].
  cbn [strrchr] in E. destruct (strrchr s c); [discriminate|].
  destruct (Ascii.eqb_spec x c); [discriminate|]. constructor; auto.
Qed.

Lemma strrchr_app a b c :
  Forall (fun d => d <> c) b -> strrchr (a ++ c :: b) c = Some (c :: b).
Proof.
  intros Hb. induction a as [|x a IH]; cbn [app strrchr].
  - rewrite (HardwareFacts.strrchr_none b c Hb). now rewrite Ascii.eqb_refl.
  - now rewrite IH.
Qed.

Lemma Forall_firstn {A} (P : A -> Prop) n (l : list A) : Forall P l -> Forall P (firstn n l).
Proof.
  intros H. rewrite <- (firstn_skipn n l) in H. now apply Forall_app in H as [H _].
Qed.

(** The name holds no [/] and fits 127 bytes. *)
Lemma image_name_plain img_path :
  Forall (fun c => c <> "/"%char) (image_name img_path) /\
  (length (image_name img_path) <= 127)%nat.
Proof.
  unfold image_name.
  set (filename := match strrchr img_path "/" with Some p => tl p | None => img_path end).
  assert (Hf : Forall (fun c => c <> "/"%char) filename).
  { unfold filename. destruct (strrchr img_path "/") as [p|] eqn:E.
    - destruct (strrchr_Some _ _ _ E) as (a & b & _ & -> & Hb). exact Hb.
    - now apply strrchr_None. }
  assert (Hn : Forall (fun c => c <> "/"%char) (safe_strncpy filename 128) /\
               (length (safe_strncpy filename 128) <= 127)%nat).
  { unfold safe_strncpy. split; [now apply Forall_firstn|].
    rewrite length_firstn. change (128 - 1)%nat with 127%nat. lia. }
  destruct Hn as [Hn Hlen].
  destruct (strrchr (safe_strncpy filename 128) ".") as [dot|]; [|now split].
  unfold cut_at. split; [now apply Forall_firstn|].
  rewrite length_firstn. lia.
Qed.

(** The name of a path whose last component is [stem.ext]. *)
Lemma image_name_stem pre stem ext :
  pre = [] \/ (exists d, pre = d ++ ["/"%char]) ->
  Forall (fun c => c <> "/"%char) stem ->
  Forall (fun c => c <> "/"%char /\ c <> "."%char) ext ->
  (length stem + length ext < 127)%nat ->
  image_name (pre ++ stem ++ "."%char :: ext) = stem.
Proof.
  intros Hpre Hstem Hext Hlen. unfold image_name.
  assert (Hlast : Forall (fun c => c <> "/"%char) (stem ++ "."%char :: ext)).
  { apply Forall_app. split; [exact Hstem|]. constructor; [discriminate|].
    eapply Forall_impl; [exact Hext|]. cbn. tauto. }
  assert (Hfile : match strrchr (pre ++ stem ++ "."%char :: ext) "/" with
                  | Some p => tl p
                  | None => pre ++ stem ++ "."%char :: ext
                  end = stem ++ "."%char :: ext).
  { destruct Hpre as [-> | [d ->]].
    - cbn [app]. now rewrite (HardwareFacts.strrchr_none _ _ Hlast).
    - rewrite <- app_assoc. cbn [app]. now rewrite (strrchr_app d _ _ Hlast). }
  rewrite Hfile. unfold safe_strncpy.
  rewrite firstn_all2 by (rewrite length_app; cbn [length]; change (128 - 1)%nat with 127%nat; lia).
  rewrite strrchr_app by (eapply Forall_impl; [exact Hext|]; cbn; tauto).
  unfold cut_at. rewrite length_app.
  replace (length stem + length ("."%char :: ext) - length ("."%char :: ext))%nat
    with (length stem) by lia.
  now rewrite firstn_app, Nat.sub_diag, firstn_all, app_nil_r.
Qed.

(** X17.  For a buffer of [mp_size] bytes, [mp_size] at least 1,
    [mount_rootfs_img] leaves in it the first [mp_size - 1] bytes of
    <workspace>/mounts/<name>, where <name> is the last component of the
    image path cut at its last dot; <name> holds no [/] and at most 127
    bytes, and it is the stem for a last component [stem.ext] shorter than
    128 bytes.  The function returns 0 exactly when the shell command of the
    loop mount reports 0, and -1 otherwise, whatever the file-system check
    reports. *)
Theorem image_mount_point workspace system img_path mp_size :
  1 <= mp_size < 2 ^ 64 ->
  let r := mount_rootfs_img workspace system img_path mp_size in
  let mount_point := snd (fst r) in
  mount_point =
    firstn (Z.to_nat (mp_size - 1)) (workspace ++ s2l "/mounts/" ++ image_name img_path) /\
  Z.of_nat (length mount_point) < mp_size /\
  Forall (fun c => c <> "/"%char) (image_name img_path) /\
  (length (image_name img_path) <= 127)%nat /\
  (forall pre stem ext,
      img_path = pre ++ stem ++ "."%char :: ext ->
      pre = [] \/ (exists d, pre = d ++ ["/"%char]) ->
      Forall (fun c => c <> "/"%char) stem ->
      Forall (fun c => c <> "/"%char /\ c <> "."%char) ext ->
      (length stem + length ext < 127)%nat ->
      image_name img_path = stem) /\
  (fst (fst r) = 0 \/ fst (fst r) = -1) /\
  (fst (fst r) = 0 <->
   system (snprintf (PATH_MAX + 64)
             (s2l "mount -v -o loop " ++ img_path ++ s2l " " ++ mount_point ++
              s2l " 2>/dev/null")) = 0).
Proof.
  intros Hs. cbv zeta.
  assert (Hmp : strncat
                  (strncat (snprintf (Z.to_nat mp_size) (workspace ++ s2l "/mounts"))
                     (s2l "/")
                     (room mp_size (snprintf (Z.to_nat mp_size) (workspace ++ s2l "/mounts"))))
                  (image_name img_path)
                  (room mp_size
                     (strncat (snprintf (Z.to_nat mp_size) (workspace ++ s2l "/mounts"))
                        (s2l "/")
                        (room mp_size
                           (snprintf (Z.to_nat mp_size) (workspace ++ s2l "/mounts"))))) =
                firstn (Z.to_nat (mp_size - 1))
                  (workspace ++ s2l "/mounts/" ++ image_name img_path)).
  { unfold snprintf.
    replace (Z.to_nat mp_size - 1)%nat with (Z.to_nat (mp_size - 1)) by lia.
    rewrite !strncat_firstn by exact Hs.
    f_equal. rewrite <- !app_assoc. reflexivity. }
  assert (E : mount_rootfs_img workspace system img_path mp_size =
              let mp := firstn (Z.to_nat (mp_size - 1))
                          (workspace ++ s2l "/mounts/" ++ image_name img_path) in
              let loop := snprintf (PATH_MAX + 64)
                            (s2l "mount -v -o loop " ++ img_path ++ s2l " " ++ mp ++
                             s2l " 2>/dev/null") in
              (if negb (system loop =? 0) then -1 else 0, mp,
               [Mkdir (snprintf (Z.to_nat mp_size) (workspace ++ s2l "/mounts")) 493;
                Mkdir mp 493;
                System (snprintf (PATH_MAX + 64)
                          (s2l "e2fsck -f -y " ++ img_path ++ s2l " >/dev/null 2>&1"));
                System loop])).
  { unfold mount_rootfs_img. cbv zeta. rewrite Hmp.
    destruct (negb (system _ =? 0)); reflexivity. }
  rewrite E. cbv zeta. cbn [fst snd]. clear E Hmp.
  destruct (image_name_plain img_path) as [Hplain Hlen].
  split; [reflexivity|]. split; [rewrite length_firstn; lia|].
  split; [exact Hplain|]. split; [exact Hlen|]. split.
  { intros pre stem ext -> Hpre Hstem Hext Hl. now apply image_name_stem. }
  destruct (Z.eqb_spec (system (snprintf (PATH_MAX + 64)
             (s2l "mount -v -o loop " ++ img_path ++ s2l " " ++
              firstn (Z.to_nat (mp_size - 1))
                (workspace ++ s2l "/mounts/" ++ image_name img_path) ++
              s2l " 2>/dev/null"))) 0) as [E0 | E0]; cbn [negb].
  - split; [now left|]. split; auto.
  - split; [now right|]. split; [discriminate | contradiction].
Qed.

Lemma image_mount_point_witness :
  snd (fst (mount_rootfs_img (s2l "/data/ws") (fun _ => 0)
              (s2l "/sdcard/img/debian.bookworm.img") 4096)) =
  s2l "/data/ws/mounts/debian.bookworm".
Proof.
  destruct (image_mount_point (s2l "/data/ws") (fun _ => 0)
              (s2l "/sdcard/img/debian.bookworm.img") 4096) as (H & _); [lia|].
  rewrite H. vm_compute. reflexivity.
Defined.

End ImageFacts.

(** ** environment.c: the merge step and the boot environment *)
Module MergeFacts.
Import CLib Config Environment EnvironmentFacts Terminal Boot.

(** *** /etc/environment *)

(** [setenv] with [overwrite] set either refuses the name or binds it. *)
Lemma setenv_union name value (env : environ) :
  setenv name value true env = setenv name value true ∅ ∪ env.
Proof.
  unfold setenv.
  destruct (negb (Network.nonempty name) || existsb (Ascii.eqb "="%char) name).
  - now rewrite (left_id_L ∅ (∪)).
  - rewrite lookup_empty.
    rewrite insert_union_singleton_l, <- insert_empty.
    destruct (env !! l2s name); reflexivity.
Qed.

Lemma load_line_union buf (env : environ) :
  load_line buf env = load_line buf ∅ ∪ env.
Proof.
  unfold load_line.
  destruct (match strchr (c_str buf) NL with
            | Some nl => cut_at (c_str buf) nl
            | None => c_str buf
            end) as [|c line]; [now rewrite (left_id_L ∅ (∪))|].
  destruct (Ascii.eqb c "#"); [now rewrite (left_id_L ∅ (∪))|].
  destruct (strchr (c :: line) "="%char) as [eq|]; [|now rewrite (left_id_L ∅ (∪))].
  apply setenv_union.
Qed.

Lemma load_lines_union fuel envf (env : environ) :
  load_lines fuel envf env = (fun m : environ => m ∪ env) <$> load_lines fuel envf ∅.
Proof.
  revert envf env. induction fuel as [|fuel IH]; intros envf env; [reflexivity|].
  cbn [load_lines]. destruct (fgets 512 envf) as [[buf envf']|].
  - rewrite (IH envf' (load_line buf env)), (IH envf' (load_line buf ∅)).
    destruct (load_lines fuel envf' ∅) as [m|]; [|reflexivity].
    cbn [fmap option_fmap option_map]. f_equal.
    rewrite (load_line_union buf env). apply (assoc_L (∪)).
  - cbn [fmap option_fmap option_map]. now rewrite (left_id_L ∅ (∪)).
Qed.

(** X22.  The merge step lays the assignments of /etc/environment over the
    environment: the result is what the file gives on an empty environment,
    completed by the variables the environment had and the file does not
    assign.  So no variable is removed, and merging the same file a second
    time changes nothing. *)
Theorem load_etc_environment_overlays (fs : gmap string (list ascii)) (env : environ) :
  load_etc_environment fs env = load_etc_environment fs ∅ ∪ env /\
  dom env ⊆ dom (load_etc_environment fs env) /\
  (forall k, load_etc_environment fs ∅ !! k = None ->
             load_etc_environment fs env !! k = env !! k) /\
  load_etc_environment fs (load_etc_environment fs env) = load_etc_environment fs env.
Proof.
  assert (E : forall env : environ,
             load_etc_environment fs env = load_etc_environment fs ∅ ∪ env).
  { intros e. unfold load_etc_environment.
    destruct (fs !! "/etc/environment"%string) as [content|];
      [|now rewrite (left_id_L ∅ (∪))].
    rewrite (load_lines_union _ content e).
    destruct (load_lines (S (length content)) content ∅) as [m|];
      cbn [fmap option_fmap option_map default]; [reflexivity|].
    now rewrite (left_id_L ∅ (∪)). }
  split; [apply E|]. split; [|split].
  - rewrite (E env), dom_union_L. apply union_subseteq_r.
  - intros k Hk. rewrite (E env). rewrite lookup_union_r; [reflexivity | exact Hk].
  - rewrite (E (load_etc_environment fs env)), (E env).
    rewrite (assoc_L (∪)). now rewrite (idemp_L (∪)).
Qed.

(** *** One line of the file *)

Lemma strchr_app_first s c r :
  Forall (fun d => d <> c) s -> strchr (s ++ c :: r) c = Some (c :: r).
Proof.
  induction 1 as [|d s Hd _ IH]; cbn [app strchr].
  - now rewrite Ascii.eqb_refl.
  - destruct (Ascii.eqb_spec d c); [contradiction | exact IH].
Qed.

Lemma strchr_absent s c : Forall (fun d => d <> c) s -> strchr s c = None.
Proof.
  induction 1 as [|d s Hd _ IH]; cbn [strchr]; [reflexivity|].
  destruct (Ascii.eqb_spec d c); [contradiction | exact IH].
Qed.

Lemma cut_at_app (s p : list ascii) : cut_at (s ++ p) p = s.
Proof.
  unfold cut_at. rewrite length_app.
  replace (length s + length p - length p)%nat with (length s) by lia.
  now rewrite firstn_app, Nat.sub_diag, firstn_all, app_nil_r.
Qed.

(** A line [key=val] with its newline, short enough for the buffer, as
    the loop body sees it. *)
Lemma load_line_assign key val (env : environ) :
  key <> [] -> hd NUL key <> "#"%char ->
  Forall (fun c => c <> "="%char /\ c <> NL /\ c <> NUL) key ->
  Forall (fun c => c <> NL /\ c <> NUL) val ->
  let quoted :=
    (2 <=? length val)%nat &&
    ((Ascii.eqb (hd NUL val) DQUOTE && Ascii.eqb (List.last val NUL) DQUOTE) ||
     (Ascii.eqb (hd NUL val) SQUOTE && Ascii.eqb (List.last val NUL) SQUOTE)) in
  load_line (key ++ "="%char :: val ++ [NL]) env =
  <[l2s key := if quoted then tl (removelast val) else val]> env.
Proof.
  intros Hne Hhash Hkey Hval. cbv zeta. unfold load_line.
  assert (Hnul : Forall (fun c => c <> NUL) (key ++ "="%char :: val ++ [NL])).
  { apply Forall_app. split; [eapply Forall_impl; [exact Hkey|]; cbn; tauto|].
    constructor; [discriminate|]. apply Forall_app. split.
    - eapply Forall_impl; [exact Hval|]. cbn. tauto.
    - repeat constructor. discriminate. }
  rewrite (HardwareFacts.c_str_plain _ Hnul).
  assert (Hnl : Forall (fun c => c <> NL) (key ++ "="%char :: val)).
  { apply Forall_app. split; [eapply Forall_impl; [exact Hkey|]; cbn; tauto|].
    constructor; [discriminate|]. eapply Forall_impl; [exact Hval|]. cbn. tauto. }
  replace (key ++ "="%char :: val ++ [NL]) with ((key ++ "="%char :: val) ++ [NL])
    by (now rewrite <- app_assoc).
  rewrite (strchr_app_first _ NL [] Hnl), cut_at_app.
  destruct key as [|k key']; [contradiction|]. cbn [app hd] in *.
  destruct (Ascii.eqb_spec k "#") as [-> | _]; [contradiction|].
  change (k :: key' ++ "="%char :: val) with ((k :: key') ++ "="%char :: val).
  rewrite strchr_app_first by (eapply Forall_impl; [exact Hkey|]; cbn; tauto).
  rewrite cut_at_app. cbn [tl].
  apply setenv_set; [reflexivity|].
  apply not_true_is_false. intros Hex. apply existsb_exists in Hex as (c & Hc & Heq).
  apply Ascii.eqb_eq in Heq. subst c.
  rewrite Forall_forall in Hkey. apply list_elem_of_In in Hc.
  now destruct (Hkey _ Hc) as [H _].
Qed.

(** X23.  A line KEY=VALUE of /etc/environment (a key that is not empty,
    does not start with [#] and holds no [=], newline or NUL; a value
    without newline or NUL) binds KEY: to the text between the quotes when
    VALUE is wrapped in a pair of double quotes or in a pair of single
    quotes, and to VALUE as it stands when it starts with no quote. *)
Theorem load_line_strips_quotes key w (env : environ) :
  key <> [] -> hd NUL key <> "#"%char ->
  Forall (fun c => c <> "="%char /\ c <> NL /\ c <> NUL) key ->
  Forall (fun c => c <> NL /\ c <> NUL) w ->
  load_line (key ++ "="%char :: (DQUOTE :: w ++ [DQUOTE]) ++ [NL]) env = <[l2s key := w]> env /\
  load_line (key ++ "="%char :: (SQUOTE :: w ++ [SQUOTE]) ++ [NL]) env = <[l2s key := w]> env /\
  (hd NUL w <> DQUOTE -> hd NUL w <> SQUOTE ->
   load_line (key ++ "="%char :: w ++ [NL]) env = <[l2s key := w]> env) /\
  load_line (key ++ "="%char :: (DQUOTE :: w ++ [SQUOTE]) ++ [NL]) env =
    <[l2s key := DQUOTE :: w ++ [SQUOTE]]> env.
Proof.
  intros Hne Hhash Hkey Hw.
  assert (Hq : forall a b, a <> NL /\ a <> NUL -> b <> NL /\ b <> NUL ->
               Forall (fun c => c <> NL /\ c <> NUL) (a :: w ++ [b])).
  { intros a b Ha Hb. constructor; [exact Ha|]. apply Forall_app. split; [exact Hw|].
    now repeat constructor. }
  assert (Hlen : forall a b, (2 <=? length (a :: w ++ [b]))%nat = true).
  { intros a b. apply Nat.leb_le. cbn [length]. rewrite length_app. simpl. lia. }
  assert (Hlast : forall a b, List.last (a :: w ++ [b]) NUL = b).
  { intros a b. change (a :: w ++ [b]) with ((a :: w) ++ [b]). apply last_last. }
  assert (Hstrip : forall a b, tl (removelast (a :: w ++ [b])) = w).
  { intros a b. change (a :: w ++ [b]) with ((a :: w) ++ [b]).
    now rewrite removelast_last. }
  assert (Hd : DQUOTE <> NL /\ DQUOTE <> NUL) by (split; discriminate).
  assert (Hs : SQUOTE <> NL /\ SQUOTE <> NUL) by (split; discriminate).
  split; [|split; [|split]].
  - rewrite (load_line_assign key _ env Hne Hhash Hkey (Hq _ _ Hd Hd)).
    rewrite Hlen, Hlast, Hstrip. reflexivity.
  - rewrite (load_line_assign key _ env Hne Hhash Hkey (Hq _ _ Hs Hs)).
    rewrite Hlen, Hlast, Hstrip. reflexivity.
  - intros H1 H2. rewrite (load_line_assign key w env Hne Hhash Hkey Hw).
    destruct (Ascii.eqb_spec (hd NUL w) DQUOTE); [contradiction|].
    destruct (Ascii.eqb_spec (hd NUL w) SQUOTE); [contradiction|].
    cbn [andb orb]. now rewrite andb_false_r.
  - rewrite (load_line_assign key _ env Hne Hhash Hkey (Hq _ _ Hd Hs)).
    rewrite Hlen, Hlast. reflexivity.
Qed.

Lemma load_line_strips_quotes_witness :
  load_line (s2l "LANG=" ++ [DQUOTE] ++ s2l "C.UTF-8" ++ [DQUOTE] ++ [NL]) ∅ =
  {[ "LANG"%string := s2l "C.UTF-8" ]}.
Proof.
  destruct (load_line_strips_quotes (s2l "LANG") (s2l "C.UTF-8") ∅) as (H & _).
  - discriminate.
  - discriminate.
  - repeat constructor; discriminate.
  - repeat constructor; discriminate.
  - exact H.
Defined.

(** X24.  A line of /etc/environment that is empty, starts with [#], holds
    no [=] or starts with [=] (an empty key, which [setenv] refuses)
    changes nothing. *)
Theorem load_line_skips line (env : environ) :
  Forall (fun c => c <> NL /\ c <> NUL) line ->
  line = [] \/ hd NUL line = "#"%char \/ Forall (fun c => c <> "="%char) line \/
  hd NUL line = "="%char ->
  load_line (line ++ [NL]) env = env.
Proof.
  intros Hl Hcase. unfold load_line.
  assert (Hnul : Forall (fun c => c <> NUL) (line ++ [NL])).
  { apply Forall_app. split; [eapply Forall_impl; [exact Hl|]; cbn; tauto|].
    repeat constructor. discriminate. }
  rewrite (HardwareFacts.c_str_plain _ Hnul).
  rewrite (strchr_app_first line NL [])
    by (eapply Forall_impl; [exact Hl|]; cbn; tauto).
  rewrite cut_at_app.
  destruct line as [|c line]; [reflexivity|].
  destruct Hcase as [H | [H | [H | H]]].
  - discriminate.
  - cbn [hd] in H. subst c. reflexivity.
  - destruct (Ascii.eqb c "#"); [reflexivity|]. now rewrite (strchr_absent _ _ H).
  - cbn [hd] in H. subst c. change (Ascii.eqb "=" "#") with false. cbn iota.
    cbn [strchr]. change (Ascii.eqb "=" "=") with true. cbn iota.
    unfold cut_at. rewrite Nat.sub_diag. reflexivity.
Qed.

Lemma load_line_skips_witness :
  load_line (s2l "# PATH=/opt/bin" ++ [NL]) ∅ = ∅ /\
  load_line (s2l "=x" ++ [NL]) ∅ = ∅.
Proof.
  split.
  - apply load_line_skips; [repeat constructor; discriminate | right; left; reflexivity].
  - apply load_line_skips; [repeat constructor; discriminate | right; right; right; reflexivity].
Defined.

(** *** The boot environment *)

Lemma setenv_fresh name value (env : environ) :
  Network.nonempty name = true -> existsb (Ascii.eqb "="%char) name = false ->
  env !! l2s name = None ->
  setenv name value false env = <[l2s name := value]> env.
Proof. intros H1 H2 H3. unfold setenv. now rewrite H1, H2, H3. Qed.

(** X21.  The environment [ds_env_boot_setup] leaves holds PATH, HOME,
    container and TERM as the sealed environment has them, LANG set to
    en_US.UTF-8 whatever LANG was before, container_ttys exactly when
    [tty_count] is positive, holding what [build_container_ttys_string]
    put in its 256-byte buffer, and no other variable; it depends on the
    environment before it only through TERM. *)
Theorem boot_environment cfg ttys (env : environ) :
  let env' := ds_env_boot_setup cfg ttys env in
  getenv "LANG" env' = Some (s2l "en_US.UTF-8") /\
  getenv "container_ttys" env' =
    (if 0 <? tty_count cfg
     then Some (build_container_ttys_string ttys (tty_count cfg) 256) else None) /\
  (forall k, k <> "LANG"%string -> k <> "container_ttys"%string ->
             getenv k env' = getenv k (sealed (term_buf env))) /\
  (forall env2 : environ, getenv "TERM" env2 = getenv "TERM" env ->
                          ds_env_boot_setup cfg ttys env2 = env').
Proof.
  cbv zeta.
  assert (E : forall e : environ,
             ds_env_boot_setup cfg ttys e =
             <["LANG"%string := s2l "en_US.UTF-8"]>
               (if 0 <? tty_count cfg
                then <["container_ttys"%string :=
                         build_container_ttys_string ttys (tty_count cfg) 256]>
                       (sealed (term_buf e))
                else sealed (term_buf e))).
  { intros e. unfold ds_env_boot_setup, clearenv.
    rewrite set_container_defaults_empty.
    destruct (0 <? tty_count cfg).
    - rewrite setenv_set by reflexivity. now rewrite setenv_fresh by reflexivity.
    - now rewrite setenv_fresh by reflexivity. }
  assert (Hs : forall k, k <> "PATH"%string -> k <> "TERM"%string -> k <> "HOME"%string ->
                         k <> "container"%string -> sealed (term_buf env) !! k = None).
  { intros k H1 H2 H3 H4. unfold sealed. rewrite !lookup_insert_ne by congruence.
    apply lookup_singleton_ne. congruence. }
  rewrite (E env). unfold getenv. split; [|split; [|split]].
  - apply lookup_insert_eq.
  - rewrite lookup_insert_ne by discriminate. destruct (0 <? tty_count cfg).
    + apply lookup_insert_eq.
    + apply Hs; discriminate.
  - intros k H1 H2. rewrite lookup_insert_ne by congruence.
    destruct (0 <? tty_count cfg); [|reflexivity].
    now rewrite lookup_insert_ne by congruence.
  - intros env2 H2. rewrite (E env2). unfold term_buf, getenv. now rewrite H2.
Qed.

Example boot_environment_sample :
  let cfg := Mount.config_with_ttys 2 in
  let ttys := [ {| master := 3; slave := 4; name := s2l "/dev/pts/0" |};
                {| master := 5; slave := 6; name := s2l "/dev/pts/1" |} ] in
  let env : environ := {[ "LANG" := s2l "de_DE.UTF-8"; "TERM" := s2l "linux" ]}%string in
  ds_env_boot_setup cfg ttys env !! "container_ttys"%string =
    Some (s2l "/dev/pts/0 /dev/pts/1") /\
  ds_env_boot_setup cfg ttys env !! "LANG"%string = Some (s2l "en_US.UTF-8").
Proof. vm_compute. split; reflexivity. Qed.

End MergeFacts.

(** ** mount.c: the cgroup hierarchy *)
Module BridgeFacts.
Import CLib Config Network Mount Cgroup.

(** X16.  [setup_cgroups] fails exactly when the mount on /sys/fs/cgroup
    fails with an error other than EBUSY.  When the host shows a unified
    hierarchy (cgroup.controllers exists, or /proc/mounts mentions
    cgroup2) the only mount is cgroup2; otherwise a tmpfs is mounted and,
    unless that failed, the eight legacy controllers are mounted after it
    in the order of the table, each with its name as data, whatever the
    outcome of each of these mounts. *)
Theorem cgroup_hierarchy e :
  let r := setup_cgroups e in
  (fst r = -1 <-> mount_on e "/sys/fs/cgroup" = MountFail) /\
  (fst r = 0 <-> mount_on e "/sys/fs/cgroup" <> MountFail) /\
  mounted_types (snd r) =
    if has_cgroup_controllers e || mounts_mention_cgroup2 e
    then [("cgroup2"%string, None)]
    else ("tmpfs"%string, Some "mode=755"%string) ::
         match mount_on e "/sys/fs/cgroup" with
         | MountFail => []
         | MountOk | MountBusy => map (fun s => ("cgroup"%string, Some s)) subs
         end.
Proof.
  cbv zeta. unfold setup_cgroups.
  destruct (has_cgroup_controllers e || mounts_mention_cgroup2 e).
  - destruct (mount_on e "/sys/fs/cgroup"); cbn [fst snd domount];
      repeat split; intros; try reflexivity; try discriminate; congruence.
  - destruct (mount_on e "/sys/fs/cgroup"); cbn [fst snd domount Z.ltb Z.compare];
      repeat split; intros; try reflexivity; try discriminate; congruence.
Qed.

End BridgeFacts.
